(** * hello_world_evolution: a shallow embedding of the evolution pipeline

    The development follows the layout of the Python sources:
    - [core/life_forms.py]       life forms, DNA, message fragments
    - [core/stages.py]           the stage enumeration
    - [patterns/singleton.py]    the singleton metaclass and its registry
    - [patterns/observer.py]     the two observers
    - [core/evolution_engine.py] the engine and its stage loop
    - [patterns/factory.py], [patterns/strategy.py]   the two factories
    - [generators/message_generator.py]  generator, transformer, lazy message
    - [main.py]                  orchestrator and pipeline wrapper

    Python integers are unbounded and are modelled by [Z]; Python strings are
    modelled by byte strings.  Objects that are shared and mutated (the
    singletons) live in an explicit heap; exceptions are outcomes of an
    error-and-state monad whose state survives a raise. *)

From Stdlib Require Import ZArith QArith String Ascii List Lia DecimalString.
From stdpp Require Import base option list gmap strings.

Local Open Scope string_scope.
Local Open Scope Z_scope.

(** ** Python preliminaries *)

(** An exception: the name of its class and its message. *)
Inductive exn : Type :=
| PyExn (cls : string) (msg : string).

Definition ValueError (msg : string) : exn := PyExn "ValueError" msg.
Definition TypeError (msg : string) : exn := PyExn "TypeError" msg.

(** The outcome of a call: a value, or a raised exception. *)
Inductive result (A : Type) : Type :=
| Ok (a : A)
| Raise (e : exn).
Arguments Ok {A} a.
Arguments Raise {A} e.

Definition is_ok {A} (r : result A) : bool :=
  match r with Ok _ => true | Raise _ => false end.

(** [str(n)] for an integer. *)
Definition str_of_int (n : Z) : string := NilZero.string_of_int (Z.to_int n).

(** ["c" * n] *)
Fixpoint str_repeat (c : string) (n : nat) : string :=
  match n with
  | O => ""
  | S k => c +:+ str_repeat c k
  end.

(** Format specifications [:Ns] (left aligned) and [:>Ns] (right aligned):
    pad with spaces up to the width, never truncate. *)
Definition fmt_left (width : nat) (s : string) : string :=
  s +:+ str_repeat " " (width - String.length s).
Definition fmt_right (width : nat) (s : string) : string :=
  str_repeat " " (width - String.length s) +:+ s.

(** ** core/life_forms.py *)

Record DNASequence (T : Type) : Type := mkDNASequence { _value : T }.
Arguments mkDNASequence {T} _value.
Arguments _value {T} d.

Definition DNASequence_bind {T U} (self : DNASequence T)
    (func : T -> DNASequence U) : DNASequence U :=
  func (_value self).

Definition DNASequence_fmap {T U} (self : DNASequence T) (func : T -> U)
    : DNASequence U :=
  mkDNASequence (func (_value self)).

Definition DNASequence_get {T} (self : DNASequence T) : T := _value self.

(** The four concrete subclasses of [LifeForm]. *)
Inductive species : Type := Fish | Amphibian | Reptile | Dinosaur.

(** The instance attributes of a [LifeForm]: [complexity] and [_dna] are set
    by [LifeForm.__init__], [_message_fragment] by [MessageCarrierMixin]. *)
Record LifeForm : Type := mkLifeForm {
  class_of : species;
  complexity : Z;
  _dna : DNASequence Z;
  _message_fragment : string
}.

(** [MessageCarrierMixin] *)
Definition carry_message (self : LifeForm) (fragment : string) : LifeForm :=
  {| class_of := class_of self;
     complexity := complexity self;
     _dna := _dna self;
     _message_fragment := fragment |}.

Definition get_message_fragment (self : LifeForm) : string :=
  _message_fragment self.

(** [LifeForm.__init__]: the mixin initialiser runs first and stores the
    empty fragment, then the complexity and its DNA are stored. *)
Definition LifeForm_init (cls : species) (complexity0 : Z) : LifeForm :=
  {| class_of := cls;
     complexity := complexity0;
     _dna := mkDNASequence complexity0;
     _message_fragment := "" |}.

Definition get_genetic_code (self : LifeForm) : DNASequence Z := _dna self.

(** [LifeForm.mutate] *)
Definition mutate (self : LifeForm) (mutation_factor : Z) : LifeForm :=
  let c := DNASequence_get
             (DNASequence_fmap (_dna self) (fun x => x * mutation_factor)) in
  {| class_of := class_of self;
     complexity := c;
     _dna := mkDNASequence c;
     _message_fragment := _message_fragment self |}.

(** The constructors of the four classes, with their keyword defaults. *)
Definition new_Fish : LifeForm :=
  carry_message (LifeForm_init Fish 1) "H".

Definition new_Amphibian (inherited_complexity : option Z)
    (inherited_message : option string) : LifeForm :=
  carry_message (LifeForm_init Amphibian (default 2 inherited_complexity))
                (default "" inherited_message +:+ "ello").

Definition new_Reptile (inherited_complexity : option Z)
    (inherited_message : option string) : LifeForm :=
  carry_message (LifeForm_init Reptile (default 6 inherited_complexity))
                (default "" inherited_message +:+ " ").

Definition new_Dinosaur (inherited_complexity : option Z)
    (inherited_message : option string) : LifeForm :=
  carry_message (LifeForm_init Dinosaur (default 24 inherited_complexity))
                (default "" inherited_message +:+ "World").

(** [MessageBearer] *)
Record MessageBearer : Type := mkMessageBearer { _final_message : string }.

Definition reveal (self : MessageBearer) : string := _final_message self.
Definition MessageBearer_str (self : MessageBearer) : string := reveal self.

(** The objects that travel through the engine. *)
Inductive organism : Type :=
| OLife (l : LifeForm)
| OBearer (b : MessageBearer).

(** The mutation factor that each class passes to [mutate] in [evolve]. *)
Definition mutation_factor_of (cls : species) : Z :=
  match cls with
  | Fish => 2
  | Amphibian => 3
  | Reptile => 4
  | Dinosaur => 5
  end.

(** [evolve]: the receiver is mutated in place and a new object is returned;
    the pair is (receiver after the call, returned object). *)
Definition evolve (self : LifeForm) : LifeForm * organism :=
  match class_of self with
  | Fish =>
      let self' := mutate self 2 in
      (self', OLife (new_Amphibian (Some (complexity self'))
                                   (Some (get_message_fragment self'))))
  | Amphibian =>
      let self' := mutate self 3 in
      (self', OLife (new_Reptile (Some (complexity self'))
                                 (Some (get_message_fragment self'))))
  | Reptile =>
      let self' := mutate self 4 in
      (self', OLife (new_Dinosaur (Some (complexity self'))
                                  (Some (get_message_fragment self'))))
  | Dinosaur =>
      let self' := mutate self 5 in
      (self', OBearer (mkMessageBearer (get_message_fragment self')))
  end.

(** [Dinosaur.roar] *)
Definition roar (self : LifeForm) : string :=
  "ROAR! (carrying message: " +:+ _message_fragment self +:+ ")".

Definition species_name (cls : species) : string :=
  match cls with
  | Fish => "Fish"
  | Amphibian => "Amphibian"
  | Reptile => "Reptile"
  | Dinosaur => "Dinosaur"
  end.

(** ** core/stages.py *)

Inductive EvolutionStage : Type :=
| PRIMORDIAL_SOUP
| AQUATIC
| AMPHIBIOUS
| TERRESTRIAL
| APEX_PREDATOR
| TRANSCENDENT.

(** [stage.name] *)
Definition stage_name (stage : EvolutionStage) : string :=
  match stage with
  | PRIMORDIAL_SOUP => "PRIMORDIAL_SOUP"
  | AQUATIC => "AQUATIC"
  | AMPHIBIOUS => "AMPHIBIOUS"
  | TERRESTRIAL => "TERRESTRIAL"
  | APEX_PREDATOR => "APEX_PREDATOR"
  | TRANSCENDENT => "TRANSCENDENT"
  end.

(** [stage.value], numbered by [auto()] from 1. *)
Definition stage_value (stage : EvolutionStage) : Z :=
  match stage with
  | PRIMORDIAL_SOUP => 1
  | AQUATIC => 2
  | AMPHIBIOUS => 3
  | TERRESTRIAL => 4
  | APEX_PREDATOR => 5
  | TRANSCENDENT => 6
  end.

#[global] Instance EvolutionStage_eq_dec : EqDecision EvolutionStage.
Proof. solve_decision. Defined.

(** ** The program state

    Three classes are built by [SingletonMeta]: [HelloWorldOrchestrator],
    the base class [Singleton], and its subclass [EvolutionLogger]. *)

Inductive singleton_class : Type :=
| HelloWorldOrchestrator
| Singleton
| EvolutionLogger.

#[global] Instance singleton_class_eq_dec : EqDecision singleton_class.
Proof. solve_decision. Defined.

#[global] Instance singleton_class_countable : Countable singleton_class.
Proof.
  refine (inj_countable'
    (fun c => match c with
              | HelloWorldOrchestrator => 0%nat
              | Singleton => 1%nat
              | EvolutionLogger => 2%nat
              end)
    (fun n => match n with
              | O => HelloWorldOrchestrator
              | S O => Singleton
              | _ => EvolutionLogger
              end) _).
  intros []; reflexivity.
Defined.

(** Objects are referred to by their position in the heap. *)
Abbreviation loc := nat.

(** patterns/observer.py: an attached observer is either a reference to an
    [EvolutionLogger] or a [SilentObserver], which has no state. *)
Inductive observer : Type :=
| ObsLogger (l : loc)
| ObsSilent.

(** The two strategy classes of core/evolution_engine.py and their
    instances. *)
Inductive strategy_class : Type :=
| LinearEvolutionStrategy_cls
| AcceleratedEvolutionStrategy_cls.

Inductive strategy : Type :=
| LinearEvolutionStrategy
| AcceleratedEvolutionStrategy (acceleration_factor : Z).

Definition strategy_type_name (s : strategy) : string :=
  match s with
  | LinearEvolutionStrategy => "LinearEvolutionStrategy"
  | AcceleratedEvolutionStrategy _ => "AcceleratedEvolutionStrategy"
  end.

(** The attributes of an [EvolutionEngine] that the modelled methods read
    ([_pipeline] is only touched by [build_pipeline]). *)
Record EvolutionEngine : Type := mkEvolutionEngine {
  _observers : list observer;
  _strategy : strategy;
  _debug : bool
}.

(** The attributes of the orchestrator that carry state: the cached engine
    and the registry of its life-form factory. *)
Record Orchestrator : Type := mkOrchestrator {
  _engine : option EvolutionEngine;
  _factory : gmap string species
}.

Inductive obj : Type :=
| ObjOrchestrator (o : Orchestrator)
| ObjLogger (_log_entries : list string)
| ObjSingleton.

(** The mutable state of the process: the module global [DEBUG] of main.py,
    the class attribute [SingletonMeta._instances], the heap of singleton
    objects, the class attribute [EvolutionStrategyFactory._strategies] and
    what has been printed so far (one entry per call of [print]). *)
Record World : Type := mkWorld {
  DEBUG : bool;
  _instances : gmap singleton_class loc;
  heap : list obj;
  _strategies : gmap string strategy_class;
  stdout : list string
}.

(** Assignments to one component of the state. *)
Definition with_DEBUG (b : bool) (w : World) : World :=
  {| DEBUG := b; _instances := _instances w; heap := heap w;
     _strategies := _strategies w; stdout := stdout w |}.

Definition with_instances (m : gmap singleton_class loc) (w : World) : World :=
  {| DEBUG := DEBUG w; _instances := m; heap := heap w;
     _strategies := _strategies w; stdout := stdout w |}.

Definition with_heap (h : list obj) (w : World) : World :=
  {| DEBUG := DEBUG w; _instances := _instances w; heap := h;
     _strategies := _strategies w; stdout := stdout w |}.

Definition with_stdout (out : list string) (w : World) : World :=
  {| DEBUG := DEBUG w; _instances := _instances w; heap := heap w;
     _strategies := _strategies w; stdout := out |}.

(** Computations that read and write the state and may raise; the state
    reached when the exception is raised is kept. *)
Definition M (A : Type) : Type := World -> result A * World.

#[global] Instance M_ret : MRet M := fun A a w => (Ok a, w).

#[global] Instance M_bind : MBind M := fun A B f m w =>
  match m w with
  | (Ok a, w') => f a w'
  | (Raise e, w') => (Raise e, w')
  end.

Definition raise {A} (e : exn) : M A := fun w => (Raise e, w).

Definition lift_result {A} (r : result A) : M A := fun w => (r, w).

Definition gets {A} (f : World -> A) : M A := fun w => (Ok (f w), w).

Definition when (b : bool) (m : M unit) : M unit :=
  if b then m else mret tt.

Definition print (line : string) : M unit := fun w =>
  (Ok tt, with_stdout (stdout w ++ [line]) w).

Definition set_DEBUG (b : bool) : M unit := fun w => (Ok tt, with_DEBUG b w).

Definition set_instances (m : gmap singleton_class loc) : M unit := fun w =>
  (Ok tt, with_instances m w).

Definition set_heap (h : list obj) : M unit := fun w => (Ok tt, with_heap h w).

(** A new object is placed at the end of the heap. *)
Definition alloc (o : obj) : M loc :=
  h ← gets heap;
  set_heap (h ++ [o]);;
  mret (length h).

(** Reading through a reference.  A reference always points to a live
    object in Python; the error case exists only to make the model total. *)
Definition deref (l : loc) : M obj :=
  h ← gets heap;
  match h !! l with
  | Some o => mret o
  | None => raise (PyExn "ReferenceError" "no such object")
  end.

Definition store (l : loc) (o : obj) : M unit :=
  h ← gets heap;
  set_heap (<[l := o]> h).

(** ** patterns/singleton.py *)

(** [ConcreteLifeFormFactory.__init__] (patterns/factory.py) builds this
    registry. *)
Definition initial_registry : gmap string species :=
  <["fish" := Fish]> (<["amphibian" := Amphibian]>
  (<["reptile" := Reptile]> (<["dinosaur" := Dinosaur]> ∅))).

(** [super().__call__()]: the ordinary construction of an instance, that is
    the [__init__] of the class run on a new object. *)
Definition type_call (cls : singleton_class) : M loc :=
  match cls with
  | HelloWorldOrchestrator =>
      self ← alloc (ObjOrchestrator
                      {| _engine := None; _factory := initial_registry |});
      d ← gets DEBUG;
      when d (print "[DEBUG] HelloWorldOrchestrator initialized (Singleton)");;
      mret self
  | Singleton => alloc ObjSingleton
  | EvolutionLogger => alloc (ObjLogger [])
  end.

(** [SingletonMeta.__call__]; the lock only matters between threads, both
    membership tests see the same registry. *)
Definition SingletonMeta_call (cls : singleton_class) : M loc :=
  reg ← gets _instances;
  (match reg !! cls with
   | None =>
       instance ← type_call cls;
       reg' ← gets _instances;
       set_instances (<[cls := instance]> reg')
   | Some _ => mret tt
   end);;
  reg'' ← gets _instances;
  match reg'' !! cls with
  | Some instance => mret instance
  | None => raise (PyExn "KeyError" "")
  end.

(** [SingletonMeta.clear_instances] *)
Definition clear_instances : M unit := set_instances ∅.

(** ** Duck typing

    [run_evolution] and [MessageGenerator.generate] accept any object and
    only use the attributes listed here.  An absent attribute is [None]; a
    method that is present yields the outcome of calling it. *)
Class PyObject (O : Type) : Type := {
  (** [type(o).__name__] *)
  type_name : O -> string;
  (** [str(o)] *)
  py_str : O -> result string;
  (** [o.complexity], rendered by [str] *)
  attr_complexity : O -> option string;
  (** [o._message_fragment], as an f-string renders it *)
  attr_message_fragment : O -> option string;
  (** [o.reveal()] *)
  reveal_method : O -> option (result string);
  (** [o.evolve()]: the object that the call returns *)
  evolve_method : O -> option (result O);
  (** [a != b] *)
  py_ne : O -> O -> bool
}.

(** A universe of objects that contains the one built by [Fish()], the
    default argument of [run_evolution]. *)
Class HasFish (O : Type) : Type := Fish_object : O.

(** ** patterns/observer.py *)

Section Observers.
Context {O : Type} `{PyObject O}.

(** The entry that [EvolutionLogger.on_evolution_step] formats. *)
Definition log_entry (organism0 : O) (stage : EvolutionStage) : string :=
  "Evolution stage: " +:+ stage_name stage +:+
  " - " +:+ "Organism: " +:+ type_name organism0.

(** [EvolutionLogger.on_evolution_step] appends to the log of the logger;
    [SilentObserver.on_evolution_step] does nothing. *)
Definition on_evolution_step (self : observer) (organism0 : O)
    (stage : EvolutionStage) : M unit :=
  match self with
  | ObsLogger l =>
      let entry := log_entry organism0 stage in
      o ← deref l;
      match o with
      | ObjLogger entries => store l (ObjLogger (entries ++ [entry]))
      | _ => raise (PyExn "AttributeError" "_log_entries")
      end
  | ObsSilent => mret tt
  end.
End Observers.

(** [EvolutionLogger.get_logs] *)
Definition get_logs (self : loc) : M (list string) :=
  o ← deref self;
  match o with
  | ObjLogger entries => mret entries
  | _ => raise (PyExn "AttributeError" "_log_entries")
  end.

(** ** core/evolution_engine.py *)

(** [EvolutionEngine.__init__] *)
Definition EvolutionEngine_init (strategy0 : option strategy) (debug : bool)
    : EvolutionEngine :=
  {| _observers := [];
     _strategy := default LinearEvolutionStrategy strategy0;
     _debug := debug |}.

Definition attach_observer (self : EvolutionEngine) (o : observer)
    : EvolutionEngine :=
  {| _observers := _observers self ++ [o];
     _strategy := _strategy self;
     _debug := _debug self |}.

Definition set_strategy (self : EvolutionEngine) (s : strategy)
    : EvolutionEngine :=
  {| _observers := _observers self;
     _strategy := s;
     _debug := _debug self |}.

(** The list [stages] of [run_evolution]. *)
Definition stages : list EvolutionStage :=
  [AQUATIC; AMPHIBIOUS; TERRESTRIAL; APEX_PREDATOR; TRANSCENDENT].

(** How one pass through the body of the stage loop ends. *)
Inductive loop_exit (O : Type) : Type :=
| Continue (current : O)
| Break (current : O).
Arguments Continue {O} current.
Arguments Break {O} current.

Section Engine.
Context {O : Type} `{PyObject O} `{HasFish O}.

(** [LinearEvolutionStrategy.evolve]: [organism.evolve()], an
    [AttributeError] when the object has no such method. *)
Definition call_evolve (organism0 : O) : result O :=
  match evolve_method organism0 with
  | Some r => r
  | None => Raise (PyExn "AttributeError" "evolve")
  end.

(** [AcceleratedEvolutionStrategy.evolve] *)
Fixpoint accelerated_evolve (n : nat) (result0 : O) : result O :=
  match n with
  | 0%nat => Ok result0
  | S k =>
      match evolve_method result0 with
      | Some r =>
          match r with
          | Ok next => accelerated_evolve k next
          | Raise e => Raise e
          end
      | None => Ok result0
      end
  end.

Definition strategy_evolve (s : strategy) (organism0 : O) : result O :=
  match s with
  | LinearEvolutionStrategy => call_evolve organism0
  | AcceleratedEvolutionStrategy k => accelerated_evolve (Z.to_nat k) organism0
  end.

(** [notify_observers] *)
Fixpoint notify_each (observers : list observer) (organism0 : O)
    (stage : EvolutionStage) : M unit :=
  match observers with
  | [] => mret tt
  | obs :: rest =>
      on_evolution_step obs organism0 stage;;
      notify_each rest organism0 stage
  end.

Definition notify_observers (self : EvolutionEngine) (organism0 : O)
    (stage : EvolutionStage) : M unit :=
  notify_each (_observers self) organism0 stage.

(** The value that the debug lines show as the message of an object:
    [getattr(o, '_message_fragment', o.reveal() if hasattr(o, 'reveal')
    else 'N/A')]; the default is evaluated before the attribute is
    looked up. *)
Definition debug_message (o : O) : M string :=
  dflt ← match reveal_method o with
         | Some r => lift_result r
         | None => mret "N/A"
         end;
  mret (default dflt (attr_message_fragment o)).

(** The first debug line of a stage. *)
Definition debug_stage_line (current : O) (stage : EvolutionStage)
    : M unit :=
  let organism_type := type_name current in
  message ← debug_message current;
  let complexity_str := default "N/A" (attr_complexity current) in
  print ("[EVOLUTION] Stage: " +:+ fmt_left 20 (stage_name stage) +:+ " | " +:+
         "Organism: " +:+ fmt_left 15 organism_type +:+ " | " +:+
         "Complexity: " +:+ fmt_right 4 complexity_str +:+ " | " +:+
         "Message: '" +:+ message +:+ "'").

(** The second debug line of a stage. *)
Definition debug_evolved_line (next_form : O) : M unit :=
  let next_type := type_name next_form in
  next_message ← debug_message next_form;
  print ("            → Evolved to: " +:+ fmt_left 15 next_type +:+ " | " +:+
         "Message: '" +:+ next_message +:+ "'").

(** The body of [for stage in stages] in [run_evolution]. *)
Definition stage_body (self : EvolutionEngine) (current : O)
    (stage : EvolutionStage) : M (loop_exit O) :=
  notify_observers self current stage;;
  when (_debug self) (debug_stage_line current stage);;
  match evolve_method current with
  | Some r =>
      next_form ← lift_result r;
      when (_debug self && py_ne next_form current)
           (debug_evolved_line next_form);;
      mret (Continue next_form)
  | None => mret (Break current)
  end.

Fixpoint stage_loop (self : EvolutionEngine) (current : O)
    (todo : list EvolutionStage) : M O :=
  match todo with
  | [] => mret current
  | stage :: rest =>
      x ← stage_body self current stage;
      match x with
      | Continue next_form => stage_loop self next_form rest
      | Break current' => mret current'
      end
  end.

(** [EvolutionEngine.run_evolution] *)
Definition run_evolution (self : EvolutionEngine)
    (initial_organism : option O) : M O :=
  let current := default Fish_object initial_organism in
  stage_loop self current stages.
End Engine.

(** ** patterns/factory.py and patterns/strategy.py

    [lower] stands for [str.lower]; the factories apply it to the requested
    name before they consult their registry. *)

(** The keyword arguments that the constructors of the life forms know. *)
Record life_form_kwargs : Type := mkLifeFormKwargs {
  inherited_complexity : option Z;
  inherited_message : option string
}.

Definition no_kwargs : life_form_kwargs :=
  {| inherited_complexity := None; inherited_message := None |}.

Definition kwargs_empty (kw : life_form_kwargs) : bool :=
  match inherited_complexity kw, inherited_message kw with
  | None, None => true
  | _, _ => false
  end.

(** Calling [life_form_class] with the keyword arguments: [Fish.__init__]
    takes no argument. *)
Definition call_life_form_class (cls : species) (kw : life_form_kwargs)
    : result LifeForm :=
  match cls with
  | Fish =>
      if kwargs_empty kw then Ok new_Fish
      else Raise (TypeError "Fish.__init__() got an unexpected keyword argument")
  | Amphibian =>
      Ok (new_Amphibian (inherited_complexity kw) (inherited_message kw))
  | Reptile =>
      Ok (new_Reptile (inherited_complexity kw) (inherited_message kw))
  | Dinosaur =>
      Ok (new_Dinosaur (inherited_complexity kw) (inherited_message kw))
  end.

(** Calling [strategy_class] with the keyword arguments; the only keyword is
    [acceleration_factor], and [LinearEvolutionStrategy] takes no argument. *)
Definition call_strategy_class (cls : strategy_class)
    (acceleration_factor : option Z) : result strategy :=
  match cls with
  | LinearEvolutionStrategy_cls =>
      match acceleration_factor with
      | None => Ok LinearEvolutionStrategy
      | Some _ => Raise (TypeError "LinearEvolutionStrategy() takes no arguments")
      end
  | AcceleratedEvolutionStrategy_cls =>
      Ok (AcceleratedEvolutionStrategy (default 2 acceleration_factor))
  end.

(** The initial value of [EvolutionStrategyFactory._strategies]. *)
Definition initial_strategies : gmap string strategy_class :=
  <["linear" := LinearEvolutionStrategy_cls]>
  (<["accelerated" := AcceleratedEvolutionStrategy_cls]> ∅).

Section Factories.
Variable lower : string -> string.

(** [ConcreteLifeFormFactory.register] *)
Definition register (registry : gmap string species) (species_type : string)
    (life_form_class : species) : gmap string species :=
  <[lower species_type := life_form_class]> registry.

(** [ConcreteLifeFormFactory.create_life_form] *)
Definition create_life_form (registry : gmap string species)
    (species_type : string) (kw : life_form_kwargs) : result LifeForm :=
  match registry !! lower species_type with
  | None => Raise (ValueError ("Unknown species type: " +:+ species_type))
  | Some life_form_class =>
      if String.eqb (lower species_type) "fish"
      then call_life_form_class life_form_class no_kwargs
      else call_life_form_class life_form_class kw
  end.

(** [EvolutionStrategyFactory.register_strategy] *)
Definition register_strategy (registry : gmap string strategy_class)
    (name : string) (cls : strategy_class) : gmap string strategy_class :=
  <[lower name := cls]> registry.

(** [EvolutionStrategyFactory.create_strategy] *)
Definition create_strategy (registry : gmap string strategy_class)
    (strategy_type : string) (acceleration_factor : option Z)
    : result strategy :=
  match registry !! lower strategy_type with
  | None => Raise (ValueError ("Unknown strategy type: " +:+ strategy_type))
  | Some cls =>
      if String.eqb (lower strategy_type) "linear"
      then call_strategy_class cls None
      else call_strategy_class cls acceleration_factor
  end.
End Factories.

(** [str.lower] on byte strings: the letters A to Z are folded. *)
Definition ascii_lower (c : ascii) : ascii :=
  let n := nat_of_ascii c in
  if ((65 <=? n) && (n <=? 90))%nat then ascii_of_nat (n + 32) else c.

Fixpoint str_lower (s : string) : string :=
  match s with
  | EmptyString => EmptyString
  | String c rest => String (ascii_lower c) (str_lower rest)
  end.

(** [str.strip] on byte strings. *)
Definition is_space (c : ascii) : bool :=
  let n := nat_of_ascii c in
  (((9 <=? n) && (n <=? 13)) || ((28 <=? n) && (n <=? 32)))%nat.

Fixpoint str_lstrip (s : string) : string :=
  match s with
  | EmptyString => EmptyString
  | String c rest => if is_space c then str_lstrip rest else s
  end.

Fixpoint str_rstrip (s : string) : string :=
  match s with
  | EmptyString => EmptyString
  | String c rest =>
      let rest' := str_rstrip rest in
      if is_space c && String.eqb rest' "" then "" else String c rest'
  end.

Definition str_strip (s : string) : string := str_rstrip (str_lstrip s).

(** ** generators/message_generator.py *)

(** The methods that [MessageMeta] injects into [DynamicMessageClass]. *)
Definition get_greeting : string := "Hello".
Definition get_target : string := "World".
Definition get_separator : string := " ".
Definition compose_message : string :=
  get_greeting +:+ get_separator +:+ get_target.

(** [render] of a class made by [create_message_class]. *)
Definition render (_prefix _suffix : string) : string :=
  let core_message := "Hello World" in
  str_strip (_prefix +:+ core_message +:+ _suffix).

(** The four bound methods stored in [MessageGenerator._strategies]. *)
Inductive generation : Type :=
| simple_generation
| dynamic_generation
| meta_generation
| composed_generation.

(** [MessageGenerator.__init__] *)
Definition generator_strategies : gmap string generation :=
  <["simple" := simple_generation]> (<["dynamic" := dynamic_generation]>
  (<["meta" := meta_generation]> (<["composed" := composed_generation]> ∅))).

Section Generator.
Context {O : Type} `{PyObject O}.

Definition _simple_generation (source : O) : result string := py_str source.

Definition _dynamic_generation (source : O) : result string :=
  Ok (render "" "").

Definition _meta_generation (source : O) : result string :=
  Ok compose_message.

Definition _composed_generation (source : O) : result string :=
  match reveal_method source with
  | Some r => r
  | None => py_str source
  end.

Definition call_generation (g : generation) (source : O) : result string :=
  match g with
  | simple_generation => _simple_generation source
  | dynamic_generation => _dynamic_generation source
  | meta_generation => _meta_generation source
  | composed_generation => _composed_generation source
  end.

(** [MessageGenerator.generate] *)
Definition generate (source : O) (strategy0 : string) : result string :=
  let generation_func :=
    default simple_generation (generator_strategies !! strategy0) in
  call_generation generation_func source.
End Generator.

(** [MessageTransformer] *)
Definition identity (message : string) : string := message.

Definition apply_pipeline (message : string)
    (transformations : list (string -> string)) : string :=
  fold_left (fun result0 transform => transform result0) transformations message.

(** [LazyMessage] *)
Record LazyMessage : Type := mkLazyMessage {
  _generator : unit -> result string;
  _cached_value : option string
}.

Definition LazyMessage_init (generator : unit -> result string) : LazyMessage :=
  {| _generator := generator; _cached_value := None |}.

(** [LazyMessage.__str__]: the outcome and the object after the call. *)
Definition LazyMessage_str (self : LazyMessage) : result string * LazyMessage :=
  match _cached_value self with
  | Some v => (Ok v, self)
  | None =>
      match _generator self tt with
      | Ok v => (Ok v, {| _generator := _generator self; _cached_value := Some v |})
      | Raise e => (Raise e, self)
      end
  end.

Definition force (self : LazyMessage) : result string * LazyMessage :=
  LazyMessage_str self.

(** ** main.py *)

(** The newline character. *)
Definition nl : string := String (ascii_of_nat 10) EmptyString.

Definition when_DEBUG (m : M unit) : M unit :=
  d ← gets DEBUG;
  when d m.

(** Reading the attributes of [self] in a method of the orchestrator. *)
Definition get_orchestrator (self : loc) : M Orchestrator :=
  o ← deref self;
  match o with
  | ObjOrchestrator orch => mret orch
  | _ => raise (PyExn "AttributeError" "HelloWorldOrchestrator")
  end.

(** [HelloWorldOrchestrator.set_debug] *)
Definition set_debug (self : loc) (debug : bool) : M unit :=
  set_DEBUG debug.

(** [HelloWorldOrchestrator.initialize_engine] *)
Definition initialize_engine (self : loc) : M EvolutionEngine :=
  when_DEBUG (print "[DEBUG] Initializing Evolution Engine...");;
  registry ← gets _strategies;
  strategy0 ← lift_result (create_strategy str_lower registry "linear" None);
  when_DEBUG (print ("[DEBUG] Strategy: " +:+ strategy_type_name strategy0));;
  d ← gets DEBUG;
  let engine := EvolutionEngine_init (Some strategy0) d in
  logger ← SingletonMeta_call EvolutionLogger;
  let engine := attach_observer engine (ObsLogger logger) in
  let engine := attach_observer engine ObsSilent in
  when_DEBUG (print "[DEBUG] Observers attached: EvolutionLogger, SilentObserver");;
  mret engine.

(** [HelloWorldOrchestrator.create_initial_organism] *)
Definition create_initial_organism (self : loc) : M LifeForm :=
  when_DEBUG (print "[DEBUG] Creating initial organism: Fish");;
  orch ← get_orchestrator self;
  fish ← lift_result (create_life_form str_lower (_factory orch) "fish" no_kwargs);
  when_DEBUG (print ("[DEBUG] Fish created with message: '" +:+
                     get_message_fragment fish +:+ "'"));;
  mret fish.

(** [HelloWorldOrchestrator.create_lazy_output] *)
Definition create_lazy_output (self : loc) (message : string) : LazyMessage :=
  LazyMessage_init (fun _ => Ok message).

Section Orchestrator.
Context {O : Type} `{PyObject O} `{HasFish O}.

(** [HelloWorldOrchestrator.run_evolution_pipeline] *)
Definition run_evolution_pipeline (self : loc) (initial_organism : O)
    : M O :=
  orch ← get_orchestrator self;
  (match _engine orch with
   | None =>
       engine ← initialize_engine self;
       orch' ← get_orchestrator self;
       store self (ObjOrchestrator {| _engine := Some engine;
                                      _factory := _factory orch' |})
   | Some _ => mret tt
   end);;
  when_DEBUG (print (nl +:+ "[DEBUG] Starting evolution pipeline...");;
              print (str_repeat "=" 60));;
  orch'' ← get_orchestrator self;
  match _engine orch'' with
  | None => raise (PyExn "AttributeError" "run_evolution")
  | Some engine =>
      final_form ← run_evolution engine (Some initial_organism);
      when_DEBUG (print (str_repeat "=" 60);;
                  print ("[DEBUG] Evolution complete! Final form: " +:+
                         type_name final_form));;
      mret final_form
  end.

(** [HelloWorldOrchestrator.extract_message] *)
Definition extract_message (self : loc) (message_bearer : O) : M string :=
  when_DEBUG (print (nl +:+ "[DEBUG] Extracting message from MessageBearer..."));;
  raw_message ← lift_result (generate message_bearer "composed");
  when_DEBUG (print ("[DEBUG] Raw message: '" +:+ raw_message +:+ "'"));;
  let transformed := apply_pipeline raw_message [identity] in
  when_DEBUG (print ("[DEBUG] Transformed message: '" +:+ transformed +:+ "'"));;
  mret transformed.
End Orchestrator.

(** A Python [str] as a duck-typed object: none of the attributes that the
    engine and the generator look for, and [str(s)] is [s]. *)
#[global] Instance str_PyObject : PyObject string := {|
  type_name _ := "str";
  py_str s := Ok s;
  attr_complexity _ := None;
  attr_message_fragment _ := None;
  reveal_method _ := None;
  evolve_method _ := None;
  py_ne a b := negb (String.eqb a b)
|}.

Section Main.
(** The life forms inherit [object.__str__], which renders the class and
    the address of the object; the model leaves this rendering open. *)
Variable object_str : LifeForm -> string.

(** The classes of core/life_forms.py as duck-typed objects.  They define
    no comparison, so [!=] compares identities, and it is only applied to
    an object and the new object that its [evolve] returned. *)
#[local] Instance organism_PyObject : PyObject organism := {|
  type_name o :=
    match o with
    | OLife l => species_name (class_of l)
    | OBearer _ => "MessageBearer"
    end;
  py_str o :=
    match o with
    | OLife l => Ok (object_str l)
    | OBearer b => Ok (MessageBearer_str b)
    end;
  attr_complexity o :=
    match o with
    | OLife l => Some (str_of_int (complexity l))
    | OBearer _ => None
    end;
  attr_message_fragment o :=
    match o with
    | OLife l => Some (_message_fragment l)
    | OBearer _ => None
    end;
  reveal_method o :=
    match o with
    | OLife _ => None
    | OBearer b => Some (Ok (reveal b))
    end;
  evolve_method o :=
    match o with
    | OLife l => Some (Ok (snd (evolve l)))
    | OBearer _ => None
    end;
  py_ne _ _ := true
|}.

#[local] Instance organism_HasFish : HasFish organism := OLife new_Fish.

(** [ComplexityWrapper]: its only attribute is the reference to the
    orchestrator. *)
Record ComplexityWrapper : Type := mkComplexityWrapper {
  _orchestrator : loc
}.

Definition ComplexityWrapper_init : M ComplexityWrapper :=
  orch ← SingletonMeta_call HelloWorldOrchestrator;
  mret {| _orchestrator := orch |}.

(** [ComplexityWrapper.pipeline_execute] *)
Definition pipeline_execute (self : ComplexityWrapper) : M string :=
  let initial := _orchestrator self in
  organism0 ← create_initial_organism initial;
  bearer ← run_evolution_pipeline (_orchestrator self) (OLife organism0);
  message ← extract_message (_orchestrator self) bearer;
  let lazy := create_lazy_output (_orchestrator self) message in
  lift_result (fst (force lazy)).

(** The method [say_hello] that [MetaHelloWorld] injects. *)
Definition say_hello : M string :=
  wrapper ← ComplexityWrapper_init;
  pipeline_execute wrapper.
End Main.

(** The state of a new process: [DEBUG = False], no singleton, nothing
    printed. *)
Definition initial_world : World :=
  {| DEBUG := false; _instances := ∅; heap := [];
     _strategies := initial_strategies; stdout := [] |}.

(** ** Notions used in the statements *)

(** The DNA of a life form holds its complexity. *)
Definition dna_invariant (l : LifeForm) : Prop :=
  DNASequence_get (_dna l) = complexity l.

#[global] Instance species_eq_dec : EqDecision species.
Proof. solve_decision. Defined.

#[global] Instance observer_eq_dec : EqDecision observer.
Proof. solve_decision. Defined.

(** The reference [l] points to an [EvolutionLogger]. *)
Definition is_logger (h : list obj) (l : loc) : bool :=
  match h !! l with
  | Some (ObjLogger _) => true
  | _ => false
  end.

Definition observer_ok (h : list obj) (o : observer) : bool :=
  match o with
  | ObsLogger l => is_logger h l
  | ObsSilent => true
  end.

(** Every attached logger is a live [EvolutionLogger]. *)
Definition observers_ok (h : list obj) (observers : list observer) : bool :=
  forallb (observer_ok h) observers.

(** The heap after the logger at [l] has appended [entry]. *)
Definition heap_log (l : loc) (entry : string) (h : list obj) : list obj :=
  match h !! l with
  | Some (ObjLogger entries) => <[l := ObjLogger (entries ++ [entry])]> h
  | _ => h
  end.

(** The heap after every observer of the list has been notified. *)
Fixpoint heap_notify (observers : list observer) (entry : string)
    (h : list obj) : list obj :=
  match observers with
  | [] => h
  | ObsLogger l :: rest => heap_notify rest entry (heap_log l entry h)
  | ObsSilent :: rest => heap_notify rest entry h
  end.

(** The log of the logger at [l], empty when [l] is no logger. *)
Definition log_of (h : list obj) (l : loc) : list string :=
  match h !! l with
  | Some (ObjLogger entries) => entries
  | _ => []
  end.

Section PureView.
Context {O : Type} `{PyObject O}.

(** The object after [n] successive assignments [current = next_form],
    when every one of these calls of [evolve] exists and returns. *)
Fixpoint iter_evolve (n : nat) (o : O) : option O :=
  match n with
  | 0%nat => Some o
  | S k =>
      match evolve_method o with
      | Some (Ok next) => iter_evolve k next
      | _ => None
      end
  end.

(** A pass of the loop body that raises, possibly after passes that
    continue. *)
Inductive fails_in (self : EvolutionEngine)
    : O -> list EvolutionStage -> World -> exn -> World -> Prop :=
| fails_now current stage rest w e w' :
    stage_body self current stage w = (Raise e, w') ->
    fails_in self current (stage :: rest) w e w'
| fails_later current stage rest w next_form w1 e w' :
    stage_body self current stage w = (Ok (Continue next_form), w1) ->
    fails_in self next_form rest w1 e w' ->
    fails_in self current (stage :: rest) w e w'.
End PureView.

Section OrganismView.
Variable object_str : LifeForm -> string.

(** The instance of the repository's classes, for this rendering. *)
Definition the_organisms : PyObject organism := organism_PyObject object_str.

(** How the loop body leaves an organism: a life form evolves, a message
    bearer ends the loop. *)
Definition exit_of (o : organism) : loop_exit organism :=
  match o with
  | OLife l => Continue (snd (evolve l))
  | OBearer _ => Break o
  end.

(** The organism that the loop returns. *)
Fixpoint evolve_through (o : organism) (todo : list EvolutionStage)
    : organism :=
  match todo with
  | [] => o
  | _ :: rest =>
      match o with
      | OLife l => evolve_through (snd (evolve l)) rest
      | OBearer _ => o
      end
  end.

(** The heap that the loop leaves. *)
Fixpoint heap_through (observers : list observer) (o : organism)
    (todo : list EvolutionStage) (h : list obj) : list obj :=
  match todo with
  | [] => h
  | stage :: rest =>
      let h' := heap_notify observers
                  (log_entry (H := the_organisms) o stage) h in
      match o with
      | OLife l => heap_through observers (snd (evolve l)) rest h'
      | OBearer _ => h'
      end
  end.
End OrganismView.

(** The message that an organism carries. *)
Definition message_of (o : organism) : string :=
  match o with
  | OLife l => get_message_fragment l
  | OBearer b => reveal b
  end.

(** The state after lines that are printed only when [DEBUG] is set. *)
Definition debug_out (w : World) (lines : list string) : World :=
  if DEBUG w then with_stdout (stdout w ++ lines) w else w.

(** The state after some output and some changes of the heap. *)
Definition emit (out : list string) (h : list obj) (w : World) : World :=
  with_stdout (stdout w ++ out) (with_heap h w).

(** The heaps agree except for the contents of the logs. *)
Definition same_but_logs (h h' : list obj) : Prop :=
  forall l,
    match h !! l with
    | Some (ObjLogger _) => is_logger h' l = true
    | other => h' !! l = other
    end.

(** What the pipeline relies on, and maintains: the factory of every
    orchestrator builds a [Fish] for the name [fish] and a cached engine
    only has live loggers attached; the strategy [linear] is registered;
    a registered [EvolutionLogger] is a live logger and a registered
    [HelloWorldOrchestrator] a live orchestrator. *)
Definition world_ok (w : World) : Prop :=
  (forall l orch,
      heap w !! l = Some (ObjOrchestrator orch) ->
      _factory orch !! "fish" = Some Fish /\
      forall engine, _engine orch = Some engine ->
                     observers_ok (heap w) (_observers engine) = true) /\
  is_Some (_strategies w !! "linear") /\
  (forall l, _instances w !! EvolutionLogger = Some l ->
             is_logger (heap w) l = true) /\
  (forall l, _instances w !! HelloWorldOrchestrator = Some l ->
             exists orch, heap w !! l = Some (ObjOrchestrator orch)).

(** The reference of the wrapper points to an orchestrator. *)
Definition wrapper_live (w : World) (self : ComplexityWrapper) : Prop :=
  exists orch, heap w !! _orchestrator self = Some (ObjOrchestrator orch).

(** The object that the construction of a singleton class puts on the
    heap. *)
Definition new_object (cls : singleton_class) : obj :=
  match cls with
  | HelloWorldOrchestrator =>
      ObjOrchestrator {| _engine := None; _factory := initial_registry |}
  | Singleton => ObjSingleton
  | EvolutionLogger => ObjLogger []
  end.

(** Every registered singleton is an object of the heap. *)
Definition registry_in_heap (w : World) : Prop :=
  forall cls l, _instances w !! cls = Some l -> (l < length (heap w))%nat.

(** A sequence of constructions of singleton classes. *)
Fixpoint construct_all (classes : list singleton_class) : M unit :=
  match classes with
  | [] => mret tt
  | cls :: rest => SingletonMeta_call cls;; construct_all rest
  end.

(** The classes of the repository together with one foreign class, whose
    [evolve] raises once its counter has reached zero: concrete inputs for
    the failure path of the engine. *)
Inductive specimen : Type :=
| Native (o : organism)
| Fragile (countdown : nat).

Definition lift_native (r : result organism) : result specimen :=
  match r with
  | Ok o => Ok (Native o)
  | Raise e => Raise e
  end.

Section Specimens.
Variable object_str : LifeForm -> string.

#[local] Instance specimen_PyObject : PyObject specimen := {|
  type_name s :=
    match s with
    | Native o => type_name (PyObject := the_organisms object_str) o
    | Fragile _ => "Fragile"
    end;
  py_str s :=
    match s with
    | Native o => py_str (PyObject := the_organisms object_str) o
    | Fragile _ => Ok "Fragile"
    end;
  attr_complexity s :=
    match s with
    | Native o => attr_complexity (PyObject := the_organisms object_str) o
    | Fragile _ => None
    end;
  attr_message_fragment s :=
    match s with
    | Native o =>
        attr_message_fragment (PyObject := the_organisms object_str) o
    | Fragile _ => None
    end;
  reveal_method s :=
    match s with
    | Native o => reveal_method (PyObject := the_organisms object_str) o
    | Fragile _ => None
    end;
  evolve_method s :=
    match s with
    | Native o =>
        lift_native <$>
          evolve_method (PyObject := the_organisms object_str) o
    | Fragile 0%nat => Some (Raise (PyExn "RuntimeError" "extinct"))
    | Fragile (S k) => Some (Ok (Fragile k))
    end;
  py_ne _ _ := true
|}.

#[local] Instance specimen_HasFish : HasFish specimen :=
  Native (OLife new_Fish).
End Specimens.

(** A state with one logger, and the engine that [initialize_engine] builds
    around it. *)
Definition logged_world : World :=
  with_instances (<[EvolutionLogger := 0%nat]> ∅)
    (with_heap [ObjLogger []] initial_world).

Definition logged_engine : EvolutionEngine :=
  attach_observer
    (attach_observer (EvolutionEngine_init (Some LinearEvolutionStrategy) false)
       (ObsLogger 0%nat))
    ObsSilent.

(** ** Further notions: the evolution chain *)

(** The number of calls of [evolve] that separate a class from the
    [MessageBearer]. *)
Definition evolves_left (cls : species) : nat :=
  match cls with
  | Fish => 4
  | Amphibian => 3
  | Reptile => 2
  | Dinosaur => 1
  end.

(** What these calls append to the fragment. *)
Definition message_suffix (cls : species) : string :=
  match cls with
  | Fish => "ello World"
  | Amphibian => " World"
  | Reptile => "World"
  | Dinosaur => ""
  end.

(** [EvolutionContext] of patterns/strategy.py: its only attribute is the
    strategy. *)
Record EvolutionContext : Type := mkEvolutionContext {
  context_strategy : strategy
}.

Definition EvolutionContext_set_strategy (self : EvolutionContext)
    (s : strategy) : EvolutionContext :=
  {| context_strategy := s |}.

Definition execute_evolution {O : Type} `{PyObject O}
    (self : EvolutionContext) (organism0 : O) : result O :=
  strategy_evolve (context_strategy self) organism0.

(** ** core/stages.py: pipelines, composition and currying

    A stage is any callable on organisms; it may raise. *)

Section Pipelines.
Context {A : Type}.

(** [functools.reduce(lambda org, stage: stage(org), stages, initial)]: the
    stages are applied from left to right, and a stage that raises ends
    the reduction. *)
Fixpoint reduce_stages (stages0 : list (A -> result A)) (org : A)
    : result A :=
  match stages0 with
  | [] => Ok org
  | stage :: rest =>
      match stage org with
      | Ok org' => reduce_stages rest org'
      | Raise e => Raise e
      end
  end.

(** [EvolutionPipeline]: its attribute [_stages]. *)
Definition EvolutionPipeline : Type := list (A -> result A).

Definition EvolutionPipeline_init : EvolutionPipeline := [].

(** [add_stage] appends to [_stages] and returns the pipeline itself. *)
Definition add_stage (self : EvolutionPipeline) (stage_func : A -> result A)
    : EvolutionPipeline :=
  (self ++ [stage_func])%list.

Definition EvolutionPipeline_execute (self : EvolutionPipeline)
    (initial_organism : A) : result A :=
  reduce_stages self initial_organism.

(** [compose] of its functions: the reduction over [reversed(functions)]. *)
Definition py_compose (functions : list (A -> result A)) (arg : A)
    : result A :=
  reduce_stages (rev functions) arg.
End Pipelines.

(** The stage [lambda org: org.evolve() if hasattr(org, 'evolve') else org]
    of [build_pipeline] and of [create_evolution_pipeline]. *)
Definition evolve_stage {O : Type} `{PyObject O} (org : O) : result O :=
  match evolve_method org with
  | Some r => r
  | None => Ok org
  end.

(** [EvolutionEngine.build_pipeline], as a function of the attribute
    [_pipeline] of the engine: it adds four stages to that pipeline, which
    is new when the engine is built, and returns it. *)
Definition build_pipeline {O : Type} `{PyObject O}
    (_pipeline : EvolutionPipeline) : EvolutionPipeline (A := O) :=
  add_stage (add_stage (add_stage (add_stage _pipeline evolve_stage)
                          evolve_stage) evolve_stage) evolve_stage.

(** The stage [lambda org: org if isinstance(org, Fish) else Fish()] of
    main.py. *)
Definition init_stage (org : organism) : result organism :=
  match org with
  | OLife l =>
      match class_of l with
      | Fish => Ok org
      | _ => Ok (OLife new_Fish)
      end
  | OBearer _ => Ok (OLife new_Fish)
  end.

(** [create_evolution_pipeline] of main.py. *)
Definition create_evolution_pipeline (object_str : LifeForm -> string)
    : EvolutionPipeline (A := organism) :=
  add_stage
    (add_stage
       (add_stage
          (add_stage
             (add_stage EvolutionPipeline_init init_stage)
             (evolve_stage (H := the_organisms object_str)))
          (evolve_stage (H := the_organisms object_str)))
       (evolve_stage (H := the_organisms object_str)))
    (evolve_stage (H := the_organisms object_str)).

(** [curry] of core/stages.py and [curry_decorator] of utils/decorators.py.
    The function [func] takes positional and keyword arguments and has
    [co_argcount] parameters.  A call of the curried function either calls
    [func] or returns a function that waits for more arguments, which is
    determined by the arguments collected so far. *)
Section Curry.
Context {V R : Type}.
Variable co_argcount : nat.
Variable func : list V -> gmap string V -> result R.



End Curry.

(** ** patterns/factory.py: the builder *)

(** [LifeFormBuilder]: the three attributes that its methods set. *)
Record LifeFormBuilder : Type := mkLifeFormBuilder {
  _complexity : Z;
  _message : string;
  _type : string
}.

Definition LifeFormBuilder_init : LifeFormBuilder :=
  {| _complexity := 1; _message := ""; _type := "fish" |}.

Definition with_complexity (self : LifeFormBuilder) (c : Z) : LifeFormBuilder :=
  {| _complexity := c; _message := _message self; _type := _type self |}.

Definition with_message (self : LifeFormBuilder) (message : string)
    : LifeFormBuilder :=
  {| _complexity := _complexity self; _message := message;
     _type := _type self |}.

Definition of_type (self : LifeFormBuilder) (life_form_type : string)
    : LifeFormBuilder :=
  {| _complexity := _complexity self; _message := _message self;
     _type := life_form_type |}.

(** [LifeFormBuilder.build]: a new factory, hence the initial registry. *)
Definition build (lower : string -> string) (self : LifeFormBuilder)
    : result LifeForm :=
  let factory := initial_registry in
  if String.eqb (lower (_type self)) "fish"
  then create_life_form lower factory (_type self) no_kwargs
  else create_life_form lower factory (_type self)
         {| inherited_complexity := Some (_complexity self);
            inherited_message := Some (_message self) |}.

(** [builder_approach] of main.py: [build], four calls of [evolve], then
    [reveal]; a call of a method that the object lacks raises an
    [AttributeError]. *)
Definition method_evolve (o : organism) : result organism :=
  match o with
  | OLife l => Ok (snd (evolve l))
  | OBearer _ => Raise (PyExn "AttributeError" "evolve")
  end.

Definition method_reveal (o : organism) : result string :=
  match o with
  | OLife _ => Raise (PyExn "AttributeError" "reveal")
  | OBearer b => Ok (reveal b)
  end.

Definition result_bind {A B} (r : result A) (f : A -> result B) : result B :=
  match r with
  | Ok a => f a
  | Raise e => Raise e
  end.

Definition builder_approach : result string :=
  let builder := LifeFormBuilder_init in
  result_bind (build str_lower (of_type builder "fish")) (fun organism0 =>
  result_bind (method_evolve (OLife organism0)) (fun o1 =>
  result_bind (method_evolve o1) (fun o2 =>
  result_bind (method_evolve o2) (fun o3 =>
  result_bind (method_evolve o3) (fun evolved =>
  method_reveal evolved))))).

(** The life form that a class builds from the two inherited values. *)
Definition new_life_form (cls : species) (c : Z) (m : string) : LifeForm :=
  match cls with
  | Fish => new_Fish
  | Amphibian => new_Amphibian (Some c) (Some m)
  | Reptile => new_Reptile (Some c) (Some m)
  | Dinosaur => new_Dinosaur (Some c) (Some m)
  end.

(** ** patterns/singleton.py: the decorator [singleton]

    The closure keeps the dictionary [instances], which only ever holds the
    key [cls]: it is modelled by the instance it may hold.  The class is
    called with the arguments of the first call. *)
Section SingletonDecorator.
Context {Args I : Type}.
Variable cls : Args -> result I.

(** [get_instance] *)
Definition get_instance (args : Args) (instances : option I)
    : result I * option I :=
  match instances with
  | Some instance => (Ok instance, instances)
  | None =>
      match cls args with
      | Ok instance => (Ok instance, Some instance)
      | Raise e => (Raise e, None)
      end
  end.

(** A sequence of calls of [get_instance]: their outcomes and the dictionary
    they leave. *)
Fixpoint get_instances (calls : list Args) (instances : option I)
    : list (result I) * option I :=
  match calls with
  | [] => ([], instances)
  | args :: rest =>
      let '(r, instances') := get_instance args instances in
      let '(rs, instances'') := get_instances rest instances' in
      (r :: rs, instances'')
  end.
End SingletonDecorator.

(** ** patterns/observer.py: the log of the logger *)

(** [EvolutionLogger.clear_logs] *)
Definition clear_logs (self : loc) : M unit :=
  o ← deref self;
  match o with
  | ObjLogger _ => store self (ObjLogger [])
  | _ => raise (PyExn "AttributeError" "_log_entries")
  end.

(** ** generators/message_generator.py: the other transformations *)





(** The text is ASCII: on such text the byte strings of the model and the
    strings of Python have the same characters, letters and white space. *)
Fixpoint ascii_only (s : string) : bool :=
  match s with
  | EmptyString => true
  | String c rest => (nat_of_ascii c <? 128)%nat && ascii_only rest
  end.

Fixpoint all_space (s : string) : bool :=
  match s with
  | EmptyString => true
  | String c rest => is_space c && all_space rest
  end.


(** ** utils/decorators.py

    A decorated function is applied to its arguments in a state of the
    process; it returns a value or raises, and leaves a state. *)

(** [except Exception] catches the exceptions whose class derives from
    [Exception]: of the built-in classes all but these four, and the
    repository defines no exception class of its own. *)
Definition is_Exception (e : exn) : bool :=
  match e with
  | PyExn cls _ =>
      negb (existsb (String.eqb cls)
              ["BaseException"; "KeyboardInterrupt"; "SystemExit";
               "GeneratorExit"])
  end.

(** The process as [retry] sees it: the state that the decorated function
    acts on, and the pauses that [time.sleep] has made, in seconds. *)
Record Process (State : Type) : Type := mkProcess {
  state : State;
  slept : list Q
}.
Arguments mkProcess {State} state slept.
Arguments state {State} p.
Arguments slept {State} p.

Definition after_sleep {State} (secs : Q) (p : Process State)
    : Process State :=
  {| state := state p; slept := (slept p ++ [secs])%list |}.

(** [time.sleep(secs)] refuses a negative length. *)
Definition time_sleep {State} (secs : Q) (p : Process State)
    : result unit * Process State :=
  if Qle_bool 0 secs then (Ok tt, after_sleep secs p)
  else (Raise (ValueError "sleep length must be non-negative"), p).

Section Retry.
Context {State Ret : Type}.
Variable max_attempts : Z.
Variable delay : Q.
(** [func] applied to the arguments of the wrapper. *)
Variable func : Process State -> result Ret * Process State.

(** The loop [for attempt in range(max_attempts)] of the wrapper, with
    [todo] passes left, and the [raise last_exception] after it; raising
    [None] is a [TypeError]. *)
Fixpoint retry_loop (todo : nat) (attempt : Z) (last_exception : option exn)
    (p : Process State) : result Ret * Process State :=
  match todo with
  | 0%nat =>
      match last_exception with
      | Some e => (Raise e, p)
      | None =>
          (Raise (TypeError "exceptions must derive from BaseException"), p)
      end
  | S todo' =>
      match func p with
      | (Ok v, p') => (Ok v, p')
      | (Raise e, p') =>
          if is_Exception e then
            if attempt <? max_attempts - 1 then
              match time_sleep delay p' with
              | (Ok _, p'') => retry_loop todo' (attempt + 1) (Some e) p''
              | (Raise e', p'') => (Raise e', p'')
              end
            else retry_loop todo' (attempt + 1) (Some e) p'
          else (Raise e, p')
      end
  end.

(** The wrapper that [retry(max_attempts, delay)] puts around [func]. *)
Definition retry (p : Process State) : result Ret * Process State :=
  retry_loop (Z.to_nat max_attempts) 0 None p.

(** [retried k p p']: from [p], [func] raises [k] times in a row an
    exception that derives from [Exception], with a pause after each, and
    this leads to [p']. *)
Inductive retried : nat -> Process State -> Process State -> Prop :=
| retried_0 p : retried 0 p p
| retried_S k p e p1 p2 :
    func p = (Raise e, p1) ->
    is_Exception e = true ->
    retried k (after_sleep delay p1) p2 ->
    retried (S k) p p2.
End Retry.

Definition retry_default_delay : Q := 1 # 10.

Section Memoize.
Context {Args State Ret : Type}.
(** [str(args) + str(sorted(kwargs.items()))] *)
Variable key : Args -> string.
Variable func : Args -> State -> result Ret * State.

(** The wrapper of [memoize]; [cache] is the dictionary of the closure. *)
Definition memoize (args : Args) (cache : gmap string Ret) (s : State)
    : result Ret * gmap string Ret * State :=
  match cache !! key args with
  | Some v => (Ok v, cache, s)
  | None =>
      match func args s with
      | (Ok v, s') => (Ok v, <[key args := v]> cache, s')
      | (Raise e, s') => (Raise e, cache, s')
      end
  end.

(** Calls of the wrapper one after the other, whatever they return. *)
Fixpoint memoize_calls (calls : list Args) (cache : gmap string Ret)
    (s : State) : gmap string Ret * State :=
  match calls with
  | [] => (cache, s)
  | args :: rest =>
      let '(_, cache', s') := memoize args cache s in
      memoize_calls rest cache' s'
  end.
End Memoize.

Section ValidateArgs.
Context {Arg Kwargs State Ret : Type}.
(** [str(arg)] in the message of the error. *)
Variable str : Arg -> string.
Variable func : list Arg -> Kwargs -> State -> result Ret * State.

(** The loop over [zip(args, validators)]: the first argument that its
    validator refuses. *)
Fixpoint first_invalid (args : list Arg) (validators : list (Arg -> bool))
    : option Arg :=
  match args, validators with
  | arg :: args', validator :: validators' =>
      if validator arg then first_invalid args' validators' else Some arg
  | _, _ => None
  end.

(** The wrapper of [validate_args] for the given validators. *)
Definition validate_args (validators : list (Arg -> bool))
    (args : list Arg) (kwargs : Kwargs) (s : State) : result Ret * State :=
  match first_invalid args validators with
  | Some arg =>
      (Raise (ValueError ("Validation failed for argument: " +:+ str arg)), s)
  | None => func args kwargs s
  end.
End ValidateArgs.


(** The wrappers of [timeit] and [log_call] call the function and return
    what it returns; the elapsed time and the log entry are dropped. *)
Definition timeit {F : Type} (func : F) : F := func.
Definition log_call {F : Type} (prefix : string) (func : F) : F := func.



(** ** main.py: the application and the entry points *)

(** [str(e)] of an exception that was raised with one message. *)
Definition exn_str (e : exn) : string :=
  match e with PyExn _ msg => msg end.

(** [Application]: the reference to the orchestrator; the attribute
    [_execution_count] is written and never read, the model leaves it
    out. *)
Record Application : Type := mkApplication {
  Application_orchestrator : loc
}.

Definition Application_init : M Application :=
  orch ← SingletonMeta_call HelloWorldOrchestrator;
  mret {| Application_orchestrator := orch |}.

Section Entry.
Variable object_str : LifeForm -> string.

(** [Application.execute], under [timeit] *)
Definition execute (self : Application) : M string :=
  timeit (say_hello object_str).

(** [Application.run]; beside the outcome and the state, the lines that it
    writes to [sys.stderr]. *)
Definition Application_run (self : Application) (w : World)
    : result unit * World * list string :=
  match (result0 ← execute self; print result0) w with
  | (Ok _, w') => (Ok tt, w', [])
  | (Raise e, w') =>
      if is_Exception e
      then (Raise e, w', ["Error in evolution: " +:+ exn_str e])
      else (Raise e, w', [])
  end.

(** [main] *)
Definition main (debug : bool) (w : World)
    : result unit * World * list string :=
  match (set_DEBUG debug;;
         clear_instances;;
         when_DEBUG (print (str_repeat "=" 60);;
                     print "HELLO WORLD EVOLUTION - DEBUG MODE";;
                     print (str_repeat "=" 60));;
         Application_init) w with
  | (Raise e, w1) => (Raise e, w1, [])
  | (Ok app, w1) =>
      match Application_run app w1 with
      | (Ok _, w2, err) =>
          let '(r, w3) :=
            when_DEBUG (print (nl +:+ str_repeat "=" 60);;
                        print "EVOLUTION COMPLETE";;
                        print (str_repeat "=" 60)) w2 in
          (r, w3, err)
      | (Raise e, w2, err) => (Raise e, w2, err)
      end
  end.

(** [HigherOrderHelloWorld.run]: the factory builds an application and
    executes it; [apply_with_context] calls the factory. *)
Definition HigherOrderHelloWorld_run : M string :=
  app ← Application_init;
  execute app.

(** The body of [alternative_main]. *)
Definition alternative_main_body : M unit :=
  let pipeline := create_evolution_pipeline object_str in
  let initial := OLife new_Fish in
  result0 ← lift_result (EvolutionPipeline_execute pipeline initial);
  message ← lift_result (generate (H := the_organisms object_str)
                           result0 "composed");
  print message.
End Entry.

(** A computation on the program state, in the process that [retry]
    sees. *)
Definition on_process {A} (m : M A) (p : Process World)
    : result A * Process World :=
  let '(r, w') := m (state p) in
  (r, {| state := w'; slept := slept p |}).

(** [alternative_main], under [retry(max_attempts=3)] and
    [log_call(prefix="MAIN: ")]. *)
Definition alternative_main (object_str : LifeForm -> string)
    : Process World -> result unit * Process World :=
  retry 3 retry_default_delay
    (log_call "MAIN: " (on_process (alternative_main_body object_str))).

(** [functional_approach]: the values that pass through the chain, and the
    operations, which are functions of no argument or of one. *)
Inductive chain_value : Type :=
| VNone
| VOrganism (o : organism)
| VStr (s : string).

Inductive operation : Type :=
| Nullary (f : unit -> result chain_value)
| Unary (f : chain_value -> result chain_value).

(** [op() if acc is None else op(acc)] *)
Definition call_operation (acc : chain_value) (op : operation)
    : result chain_value :=
  match acc, op with
  | VNone, Nullary f => f tt
  | VNone, Unary _ =>
      Raise (TypeError "<lambda>() missing 1 required positional argument")
  | _, Unary f => f acc
  | _, Nullary _ =>
      Raise (TypeError "<lambda>() takes 0 positional arguments but 1 was given")
  end.

Definition reduce_operations (operations : list operation)
    (initial : chain_value) : result chain_value :=
  fold_left (fun acc op => result_bind acc (fun v => call_operation v op))
    operations (Ok initial).

Definition value_evolve (v : chain_value) : result chain_value :=
  match v with
  | VOrganism o => result_bind (method_evolve o) (fun o' => Ok (VOrganism o'))
  | _ => Raise (PyExn "AttributeError" "evolve")
  end.

Definition value_reveal (v : chain_value) : result chain_value :=
  match v with
  | VOrganism o => result_bind (method_reveal o) (fun s => Ok (VStr s))
  | _ => Raise (PyExn "AttributeError" "reveal")
  end.

Definition functional_approach : result chain_value :=
  let operations :=
    [Nullary (fun _ => Ok (VOrganism (OLife new_Fish)));
     Unary value_evolve; Unary value_evolve; Unary value_evolve;
     Unary value_evolve; Unary value_reveal] in
  reduce_operations operations VNone.

(** [metaclass_approach] *)
Definition metaclass_approach : string := compose_message.

(** The number of lines that the loop of [run_evolution] prints in debug
    mode: two for a life form, one for the bearer that ends the loop. *)
Fixpoint debug_lines (o : organism) (todo : list EvolutionStage) : nat :=
  match todo with
  | [] => 0
  | _ :: rest =>
      match o with
      | OLife l => 2 + debug_lines (snd (evolve l)) rest
      | OBearer _ => 1
      end
  end.

(** * Properties *)

(** ** Life forms *)

Lemma dna_invariant_init cls c : dna_invariant (LifeForm_init cls c).
Proof. reflexivity. Qed.

Lemma dna_invariant_carry l fragment :
  dna_invariant l -> dna_invariant (carry_message l fragment).
Proof. intros Hl. exact Hl. Qed.

Lemma dna_invariant_mutate l k : dna_invariant (mutate l k).
Proof. reflexivity. Qed.

Lemma complexity_mutate l k :
  complexity (mutate l k) = DNASequence_get (_dna l) * k.
Proof. reflexivity. Qed.

Lemma evolve_receiver l :
  fst (evolve l) = mutate l (mutation_factor_of (class_of l)).
Proof. unfold evolve. destruct (class_of l); reflexivity. Qed.

Lemma evolve_offspring_complexity l l' :
  snd (evolve l) = OLife l' ->
  dna_invariant l' /\ complexity l' = complexity (fst (evolve l)).
Proof.
  unfold evolve. destruct (class_of l); cbn; intros Heq;
    inversion Heq; subst; split; reflexivity.
Qed.

Lemma evolve_message l :
  message_of (snd (evolve l)) =
  match class_of l with
  | Fish => _message_fragment l +:+ "ello"
  | Amphibian => _message_fragment l +:+ " "
  | Reptile => _message_fragment l +:+ "World"
  | Dinosaur => _message_fragment l
  end.
Proof. unfold evolve. destruct (class_of l); reflexivity. Qed.

(** C10: the DNA of a life form holds its complexity after construction and
    after every [mutate]; [evolve] multiplies the complexity of its receiver
    by the factor of its class (2, 3, 4, 5) and hands the product to the
    life form it builds; along the default chain the complexities are 1, 2,
    6 and 24, and the last [evolve] computes 120. *)
Theorem dna_tracks_complexity :
  (forall cls c fragment,
      dna_invariant (carry_message (LifeForm_init cls c) fragment)) /\
  dna_invariant new_Fish /\
  (forall ic im, dna_invariant (new_Amphibian ic im) /\
                 dna_invariant (new_Reptile ic im) /\
                 dna_invariant (new_Dinosaur ic im)) /\
  (forall l k, dna_invariant (mutate l k)) /\
  (forall l, dna_invariant (fst (evolve l))) /\
  (forall l l', snd (evolve l) = OLife l' -> dna_invariant l') /\
  map mutation_factor_of [Fish; Amphibian; Reptile; Dinosaur] = [2; 3; 4; 5] /\
  (forall l,
      dna_invariant l ->
      complexity (fst (evolve l)) =
        complexity l * mutation_factor_of (class_of l) /\
      forall l', snd (evolve l) = OLife l' ->
                 complexity l' = complexity l * mutation_factor_of (class_of l)) /\
  (exists amphibian reptile dinosaur bearer,
      snd (evolve new_Fish) = OLife amphibian /\
      snd (evolve amphibian) = OLife reptile /\
      snd (evolve reptile) = OLife dinosaur /\
      snd (evolve dinosaur) = OBearer bearer /\
      map complexity [new_Fish; amphibian; reptile; dinosaur] = [1; 2; 6; 24] /\
      complexity (fst (evolve dinosaur)) = 120).
Proof.
  split; [intros; apply dna_invariant_carry, dna_invariant_init |].
  split; [reflexivity |].
  split; [intros; repeat split |].
  split; [apply dna_invariant_mutate |].
  split; [intros l; rewrite evolve_receiver; apply dna_invariant_mutate |].
  split; [intros l l' Hl'; apply (evolve_offspring_complexity l l' Hl') |].
  split; [reflexivity |].
  split.
  - intros l Hinv.
    assert (Hself : complexity (fst (evolve l)) =
                    complexity l * mutation_factor_of (class_of l)).
    { rewrite evolve_receiver, complexity_mutate. now rewrite Hinv. }
    split; [exact Hself |].
    intros l' Hl'. rewrite <- Hself.
    apply (evolve_offspring_complexity l l' Hl').
  - eexists _, _, _, _. repeat split.
Qed.

Lemma dna_tracks_complexity_witness :
  dna_invariant new_Fish /\
  complexity (fst (evolve new_Fish)) = 1 * 2 /\
  complexity (new_Amphibian (Some 2) (Some "H")) = 1 * 2.
Proof.
  pose proof dna_tracks_complexity as (_ & Hfish & _ & _ & _ & _ & _ & Hstep & _).
  destruct (Hstep new_Fish Hfish) as [Hself Hchild].
  split; [exact Hfish |].
  split; [exact Hself |].
  apply Hchild. reflexivity.
Defined.

(** ** The message generator and the transformer *)


Lemma generator_strategies_known (strategy0 : string) :
  strategy0 ∈ ["simple"; "dynamic"; "meta"; "composed"] ->
  is_Some (generator_strategies !! strategy0).
Proof.
  intros Hin. repeat (apply elem_of_cons in Hin as [-> | Hin]; [by eexists |]).
  by apply elem_of_nil in Hin.
Qed.



Lemma apply_pipeline_identity (message : string) :
  apply_pipeline message [identity] = message.
Proof. reflexivity. Qed.

Lemma when_DEBUG_print line w :
  when_DEBUG (print line) w = (Ok tt, debug_out w [line]).
Proof.
  unfold when_DEBUG, debug_out, mbind, M_bind, gets.
  destruct (DEBUG w); reflexivity.
Qed.

Lemma when_DEBUG_print2 line1 line2 w :
  when_DEBUG (print line1;; print line2) w = (Ok tt, debug_out w [line1; line2]).
Proof.
  unfold when_DEBUG, debug_out, mbind, M_bind, gets.
  destruct (DEBUG w); [| reflexivity].
  cbn. unfold print, with_stdout; cbn. rewrite <- app_assoc. reflexivity.
Qed.

Lemma debug_out_DEBUG w lines : DEBUG (debug_out w lines) = DEBUG w.
Proof. unfold debug_out. destruct (DEBUG w) eqn:E; [exact E | exact E]. Qed.

Lemma debug_out_heap w lines : heap (debug_out w lines) = heap w.
Proof. unfold debug_out. destruct (DEBUG w); reflexivity. Qed.

Lemma debug_out_instances w lines :
  _instances (debug_out w lines) = _instances w.
Proof. unfold debug_out. destruct (DEBUG w); reflexivity. Qed.

Lemma debug_out_strategies w lines :
  _strategies (debug_out w lines) = _strategies w.
Proof. unfold debug_out. destruct (DEBUG w); reflexivity. Qed.

Lemma debug_out_quiet w lines : DEBUG w = false -> debug_out w lines = w.
Proof. unfold debug_out. now intros ->. Qed.

Lemma debug_out_twice w lines1 lines2 :
  debug_out (debug_out w lines1) lines2 = debug_out w (lines1 ++ lines2).
Proof.
  unfold debug_out. destruct (DEBUG w) eqn:E; cbn; rewrite E; [| reflexivity].
  unfold with_stdout; cbn. now rewrite app_assoc.
Qed.

(** [extract_message] returns what the generation returned and only prints. *)
Lemma extract_message_outcome {O : Type} `{PyObject O}
    (self : loc) (source : O) (w : World) :
  extract_message self source w =
  match generate source "composed" with
  | Ok raw =>
      (Ok raw,
       debug_out w [nl +:+ "[DEBUG] Extracting message from MessageBearer...";
                    "[DEBUG] Raw message: '" +:+ raw +:+ "'";
                    "[DEBUG] Transformed message: '" +:+ raw +:+ "'"])
  | Raise e =>
      (Raise e,
       debug_out w [nl +:+ "[DEBUG] Extracting message from MessageBearer..."])
  end.
Proof.
  unfold extract_message.
  unfold mbind at 1, M_bind at 1. rewrite when_DEBUG_print.
  unfold mbind at 1, M_bind at 1, lift_result at 1.
  destruct (generate source "composed") as [raw | e]; [| reflexivity].
  unfold mbind at 1, M_bind at 1. rewrite when_DEBUG_print.
  unfold mbind at 1, M_bind at 1. rewrite apply_pipeline_identity.
  rewrite when_DEBUG_print. unfold mret, M_ret.
  now rewrite !debug_out_twice.
Qed.

(** C5: the result extractor is the identity.  For every string, the empty
    one included, [extract_message] succeeds and returns it unchanged,
    whether the string is passed as such or carried by a [MessageBearer];
    the transformation it applies is [apply_pipeline] with [identity];
    extracting from the extracted string returns the same string again. *)
Theorem extract_message_is_identity (object_str : LifeForm -> string) :
  (forall x, apply_pipeline x [identity] = x) /\
  (forall self w (x : string), fst (extract_message self x w) = Ok x) /\
  (forall self w, fst (extract_message self "" w) = Ok "") /\
  (forall self w (x : string),
      fst (extract_message (H := the_organisms object_str) self
             (OBearer (mkMessageBearer x)) w) = Ok x) /\
  (forall self w w' (x : string),
      exists y, fst (extract_message self x w) = Ok y /\
                fst (extract_message self y w') = Ok y) /\
  (forall self w (x : string),
      DEBUG w = false -> snd (extract_message self x w) = w).
Proof.
  split; [apply apply_pipeline_identity |].
  split; [intros; now rewrite extract_message_outcome |].
  split; [intros; now rewrite extract_message_outcome |].
  split; [intros; now rewrite extract_message_outcome |].
  split.
  - intros self w w' x. exists x. now rewrite !extract_message_outcome.
  - intros self w x Hquiet. rewrite extract_message_outcome. cbn.
    now apply debug_out_quiet.
Qed.

Lemma extract_message_is_identity_witness :
  snd (extract_message (O := string) 0%nat "Hello World" initial_world)
  = initial_world.
Proof.
  pose proof (extract_message_is_identity (fun _ => "")) as H.
  apply H. reflexivity.
Defined.

(** ** The factories *)

Lemma lookup_initial_registry_fish : initial_registry !! "fish" = Some Fish.
Proof. reflexivity. Qed.

Lemma lookup_initial_strategies_linear :
  initial_strategies !! "linear" = Some LinearEvolutionStrategy_cls.
Proof. reflexivity. Qed.

Lemma create_life_form_unknown lower registry species_type kw :
  registry !! lower species_type = None ->
  create_life_form lower registry species_type kw =
  Raise (ValueError ("Unknown species type: " +:+ species_type)).
Proof. intros Hnone. unfold create_life_form. now rewrite Hnone. Qed.

Lemma create_strategy_unknown lower registry strategy_type factor :
  registry !! lower strategy_type = None ->
  create_strategy lower registry strategy_type factor =
  Raise (ValueError ("Unknown strategy type: " +:+ strategy_type)).
Proof. intros Hnone. unfold create_strategy. now rewrite Hnone. Qed.

(** The lookup is made with the lower-cased name: a name in capitals
    reaches the class registered under the lower-case key. *)
Lemma create_life_form_ignores_case :
  create_life_form str_lower initial_registry "FISH" no_kwargs = Ok new_Fish.
Proof. reflexivity. Qed.

Lemma get_orchestrator_live self orch w :
  heap w !! self = Some (ObjOrchestrator orch) ->
  get_orchestrator self w = (Ok orch, w).
Proof.
  intros Hlive. unfold get_orchestrator, deref, mbind, M_bind, gets.
  now rewrite Hlive.
Qed.

Lemma create_initial_organism_unknown self orch w :
  heap w !! self = Some (ObjOrchestrator orch) ->
  _factory orch !! "fish" = None ->
  create_initial_organism self w =
  (Raise (ValueError "Unknown species type: fish"),
   debug_out w ["[DEBUG] Creating initial organism: Fish"]).
Proof.
  intros Hlive Hnone. unfold create_initial_organism.
  unfold mbind at 1, M_bind at 1. rewrite when_DEBUG_print.
  unfold mbind at 1, M_bind at 1.
  rewrite (get_orchestrator_live self orch)
    by now rewrite debug_out_heap.
  unfold mbind at 1, M_bind at 1, lift_result at 1.
  now rewrite create_life_form_unknown.
Qed.

Lemma initialize_engine_unknown self w :
  _strategies w !! "linear" = None ->
  initialize_engine self w =
  (Raise (ValueError "Unknown strategy type: linear"),
   debug_out w ["[DEBUG] Initializing Evolution Engine..."]).
Proof.
  intros Hnone. unfold initialize_engine.
  unfold mbind at 1, M_bind at 1. rewrite when_DEBUG_print.
  unfold mbind at 1, M_bind at 1, gets at 1.
  unfold mbind at 1, M_bind at 1, lift_result at 1.
  rewrite create_strategy_unknown; [reflexivity |].
  now rewrite debug_out_strategies.
Qed.

(** C7: a request for a variant that is not registered fails.  Both
    factories look the lower-cased name up; when the registry has no entry
    for it, [create_life_form] and [create_strategy] raise the [ValueError]
    that names the unknown species or strategy and build nothing.  The error
    is raised once and travels up unchanged: through the pipeline of the
    wrapper it arrives after a single attempt, which leaves at most its one
    debug line behind. *)
Theorem unregistered_variant_is_refused
    (lower : string -> string) (object_str : LifeForm -> string) :
  (forall registry species_type kw,
      registry !! lower species_type = None ->
      create_life_form lower registry species_type kw =
      Raise (ValueError ("Unknown species type: " +:+ species_type))) /\
  (forall registry strategy_type factor,
      registry !! lower strategy_type = None ->
      create_strategy lower registry strategy_type factor =
      Raise (ValueError ("Unknown strategy type: " +:+ strategy_type))) /\
  (forall self orch w,
      heap w !! _orchestrator self = Some (ObjOrchestrator orch) ->
      _factory orch !! "fish" = None ->
      pipeline_execute object_str self w =
      (Raise (ValueError "Unknown species type: fish"),
       debug_out w ["[DEBUG] Creating initial organism: Fish"])) /\
  (forall self orch w (seed : organism),
      heap w !! self = Some (ObjOrchestrator orch) ->
      _engine orch = None ->
      _strategies w !! "linear" = None ->
      run_evolution_pipeline (H := the_organisms object_str)
        (H0 := organism_HasFish) self seed w =
      (Raise (ValueError "Unknown strategy type: linear"),
       debug_out w ["[DEBUG] Initializing Evolution Engine..."])).
Proof.
  split; [intros; now apply create_life_form_unknown |].
  split; [intros; now apply create_strategy_unknown |].
  split.
  - intros self orch w Hlive Hnone. unfold pipeline_execute.
    unfold mbind at 1, M_bind at 1.
    now rewrite (create_initial_organism_unknown _ orch).
  - intros self orch w seed Hlive Hengine Hnone.
    unfold run_evolution_pipeline.
    unfold mbind at 1, M_bind at 1.
    rewrite (get_orchestrator_live self orch) by assumption.
    rewrite Hengine.
    unfold mbind at 1, M_bind at 1. unfold mbind at 1, M_bind at 1.
    now rewrite initialize_engine_unknown.
Qed.

Lemma unregistered_variant_witness :
  create_life_form str_lower initial_registry "bird" no_kwargs =
    Raise (ValueError "Unknown species type: bird") /\
  create_strategy str_lower initial_strategies "Lamarckian" None =
    Raise (ValueError "Unknown strategy type: Lamarckian").
Proof.
  destruct (unregistered_variant_is_refused str_lower (fun _ => ""))
    as (Hspecies & Hstrategy & _).
  split; [apply Hspecies | apply Hstrategy]; vm_compute; reflexivity.
Defined.

(** ** Observers and the heap *)

Lemma with_heap_same w : with_heap (heap w) w = w.
Proof. now destruct w. Qed.

Lemma with_stdout_same w : with_stdout (stdout w) w = w.
Proof. now destruct w. Qed.

Lemma heap_log_length l entry h : length (heap_log l entry h) = length h.
Proof.
  unfold heap_log. destruct (h !! l) as [[]|]; try reflexivity.
  apply length_insert.
Qed.

Lemma heap_log_lookup l entry h l' :
  heap_log l entry h !! l' =
  match h !! l' with
  | Some (ObjLogger entries) =>
      Some (ObjLogger (if decide (l = l') then entries ++ [entry] else entries))
  | other => other
  end.
Proof.
  destruct (decide (l = l')) as [<- | Hne].
  - unfold heap_log. destruct (h !! l) as [[| entries |]|] eqn:Hl;
      rewrite ?Hl; try reflexivity.
    rewrite list_lookup_insert_eq by (eapply lookup_lt_Some; eassumption).
    reflexivity.
  - unfold heap_log. destruct (h !! l) as [[| entries |]|];
      rewrite ?list_lookup_insert_ne by assumption;
      destruct (h !! l') as [[]|]; reflexivity.
Qed.

Lemma is_logger_heap_log l entry h l' :
  is_logger (heap_log l entry h) l' = is_logger h l'.
Proof.
  unfold is_logger. rewrite heap_log_lookup.
  now destruct (h !! l') as [[]|].
Qed.

Lemma is_logger_heap_notify observers entry h l' :
  is_logger (heap_notify observers entry h) l' = is_logger h l'.
Proof.
  revert h. induction observers as [| [l |] rest IH]; intros h; cbn.
  - reflexivity.
  - now rewrite IH, is_logger_heap_log.
  - apply IH.
Qed.

Lemma observers_ok_ext h h' observers :
  (forall l, is_logger h' l = is_logger h l) ->
  observers_ok h' observers = observers_ok h observers.
Proof.
  intros Hsame. unfold observers_ok.
  induction observers as [| [l |] rest IH]; cbn; [reflexivity | |].
  - now rewrite Hsame, IH.
  - apply IH.
Qed.

Lemma observers_ok_heap_notify observers' entry h observers :
  observers_ok (heap_notify observers' entry h) observers =
  observers_ok h observers.
Proof. apply observers_ok_ext. intros l. apply is_logger_heap_notify. Qed.

Lemma heap_notify_length observers entry h :
  length (heap_notify observers entry h) = length h.
Proof.
  revert h. induction observers as [| [l |] rest IH]; intros h; cbn.
  - reflexivity.
  - now rewrite IH, heap_log_length.
  - apply IH.
Qed.

(** Notifications leave every object that is no logger as it is. *)
Lemma heap_notify_lookup_orchestrator observers entry h l orch :
  h !! l = Some (ObjOrchestrator orch) ->
  heap_notify observers entry h !! l = Some (ObjOrchestrator orch).
Proof.
  revert h. induction observers as [| [l' |] rest IH]; intros h Hl; cbn.
  - exact Hl.
  - apply IH. rewrite heap_log_lookup. now rewrite Hl.
  - now apply IH.
Qed.

(** The log of a logger grows by one entry for each time it is attached. *)
Lemma log_of_heap_notify observers entry h l :
  is_logger h l = true ->
  log_of (heap_notify observers entry h) l =
  (log_of h l ++
   replicate (count_occ observer_eq_dec observers (ObsLogger l)) entry)%list.
Proof.
  revert h. induction observers as [| [l' |] rest IH]; intros h Hl.
  - cbn. now rewrite app_nil_r.
  - cbn [heap_notify count_occ].
    rewrite IH by now rewrite is_logger_heap_log.
    unfold log_of at 1. rewrite heap_log_lookup.
    unfold is_logger in Hl. unfold log_of.
    destruct (h !! l) as [[| entries |]|]; try discriminate.
    destruct (observer_eq_dec (ObsLogger l') (ObsLogger l)) as [Heq | Hne].
    + inversion Heq; subst. rewrite decide_True by reflexivity.
      cbn. now rewrite <- app_assoc.
    + rewrite decide_False by congruence. reflexivity.
  - cbn [heap_notify count_occ].
    destruct (observer_eq_dec ObsSilent (ObsLogger l)); [discriminate |].
    now apply IH.
Qed.

Section ObserverFacts.
Context {O : Type} `{PyObject O}.

Lemma on_evolution_step_ok (obs : observer) (o : O) stage w :
  observer_ok (heap w) obs = true ->
  on_evolution_step obs o stage w =
  (Ok tt, with_heap (heap_notify [obs] (log_entry o stage) (heap w)) w).
Proof.
  destruct obs as [l |]; cbn.
  - unfold is_logger, heap_log. intros Hl.
    unfold deref, store, mbind, M_bind, gets, set_heap.
    destruct (heap w !! l) as [[| entries |]|]; try discriminate.
    reflexivity.
  - intros _. unfold mret, M_ret. now rewrite with_heap_same.
Qed.

Lemma notify_each_ok (observers : list observer) (o : O) stage w :
  observers_ok (heap w) observers = true ->
  notify_each observers o stage w =
  (Ok tt, with_heap (heap_notify observers (log_entry o stage) (heap w)) w).
Proof.
  revert w. induction observers as [| obs rest IH]; intros w Hok.
  - cbn. unfold mret, M_ret. now rewrite with_heap_same.
  - cbn in Hok. apply andb_prop in Hok as [Hobs Hrest].
    cbn [notify_each]. unfold mbind at 1, M_bind at 1.
    rewrite on_evolution_step_ok by assumption.
    rewrite IH.
    + destruct obs; reflexivity.
    + cbn [heap with_heap].
      now rewrite (observers_ok_heap_notify [obs]).
Qed.
End ObserverFacts.

(** ** The stage loop on the organisms of the repository *)

Lemma with_layers out2 h2 out1 h1 w :
  with_stdout ((stdout (with_stdout (stdout w ++ out1) (with_heap h1 w)))
               ++ out2)
    (with_heap h2 (with_stdout (stdout w ++ out1) (with_heap h1 w))) =
  with_stdout (stdout w ++ (out1 ++ out2)) (with_heap h2 w).
Proof. unfold with_stdout, with_heap; cbn. now rewrite app_assoc. Qed.

Lemma with_no_output h w :
  with_stdout (stdout w ++ []) (with_heap h w) = with_heap h w.
Proof. unfold with_stdout, with_heap; cbn. now rewrite app_nil_r. Qed.

Section LoopFacts.
Variable object_str : LifeForm -> string.

Local Abbreviation organisms := (the_organisms object_str).

Lemma debug_stage_line_ok (o : organism) stage w :
  exists line,
    debug_stage_line (H := organisms) o stage w =
    (Ok tt, with_stdout (stdout w ++ [line]) w).
Proof.
  destruct o; eexists;
    unfold debug_stage_line, debug_evolved_line, debug_message,
           mbind, M_bind, mret, M_ret, lift_result, print;
    cbn [reveal_method attr_message_fragment organism_PyObject
         the_organisms default];
    reflexivity.
Qed.

Lemma debug_evolved_line_ok (o : organism) w :
  exists line,
    debug_evolved_line (H := organisms) o w =
    (Ok tt, with_stdout (stdout w ++ [line]) w).
Proof.
  destruct o; eexists;
    unfold debug_stage_line, debug_evolved_line, debug_message,
           mbind, M_bind, mret, M_ret, lift_result, print;
    cbn [reveal_method attr_message_fragment organism_PyObject
         the_organisms default];
    reflexivity.
Qed.

(** One pass of the loop body: it never raises, its exit depends on the
    organism alone, and beyond the output it only touches the logs. *)
Lemma stage_body_ok (self : EvolutionEngine) (o : organism) stage w :
  observers_ok (heap w) (_observers self) = true ->
  exists out,
    stage_body (H := organisms) self o stage w =
    (Ok (exit_of o),
     with_stdout (stdout w ++ out)
       (with_heap (heap_notify (_observers self)
                     (log_entry (H := organisms) o stage) (heap w)) w)) /\
    (_debug self = false -> out = []).
Proof.
  intros Hok. unfold stage_body, notify_observers.
  unfold mbind at 1, M_bind at 1. rewrite notify_each_ok by assumption.
  set (w1 := with_heap _ w).
  destruct (_debug self) eqn:Hdebug; cbn [when andb].
  - unfold mbind at 1, M_bind at 1.
    destruct (debug_stage_line_ok o stage w1) as [line1 ->].
    destruct o as [l | b]; cbn [evolve_method organism_PyObject the_organisms
                                 exit_of py_ne].
    + unfold mbind at 1, M_bind at 1, lift_result at 1.
      unfold mbind at 1, M_bind at 1. cbn [when].
      destruct (debug_evolved_line_ok (snd (evolve l))
                  (with_stdout (stdout w1 ++ [line1]) w1)) as [line2 ->].
      exists [line1; line2]. split; [| discriminate].
      unfold mret, M_ret. f_equal.
      subst w1. unfold with_stdout, with_heap; cbn. now rewrite <- app_assoc.
    + exists [line1]. split; [| discriminate]. reflexivity.
  - unfold mbind at 1, M_bind at 1, mret at 1, M_ret at 1.
    exists []. split; [| reflexivity].
    subst w1. rewrite with_no_output.
    destruct o as [l | b]; reflexivity.
Qed.

Lemma stage_loop_ok (self : EvolutionEngine) (o : organism) todo w :
  observers_ok (heap w) (_observers self) = true ->
  exists out,
    stage_loop (H := organisms) self o todo w =
    (Ok (evolve_through o todo),
     with_stdout (stdout w ++ out)
       (with_heap (heap_through object_str (_observers self) o todo (heap w))
                  w)) /\
    (_debug self = false -> out = []).
Proof.
  revert o w. induction todo as [| stage rest IH]; intros o w Hok.
  - exists []. split; [| reflexivity]. cbn.
    unfold mret, M_ret. now rewrite with_no_output, with_heap_same.
  - cbn [stage_loop]. unfold mbind at 1, M_bind at 1.
    destruct (stage_body_ok self o stage w Hok) as (out1 & -> & Hquiet1).
    destruct o as [l | b]; cbn [exit_of evolve_through heap_through].
    + set (h1 := heap_notify _ _ _).
      destruct (IH (snd (evolve l))
                   (with_stdout (stdout w ++ out1) (with_heap h1 w)))
        as (out2 & -> & Hquiet2).
      { cbn [heap with_stdout with_heap]. subst h1.
        now rewrite observers_ok_heap_notify. }
      exists (out1 ++ out2)%list. split.
      * f_equal. cbn [heap with_stdout with_heap]. apply with_layers.
      * intros Hq. now rewrite Hquiet1, Hquiet2.
    + exists out1. split; [reflexivity | assumption].
Qed.
End LoopFacts.

(** ** The stage sequencer *)

Section Sequencer.
Variable object_str : LifeForm -> string.

Local Abbreviation organisms := (the_organisms object_str).

Lemma run_evolution_default (self : EvolutionEngine) w :
  run_evolution (H := organisms) (H0 := organism_HasFish) self None w =
  run_evolution (H := organisms) (H0 := organism_HasFish) self
    (Some (OLife new_Fish)) w.
Proof. reflexivity. Qed.

Lemma run_evolution_ok (self : EvolutionEngine) (seed : organism) w :
  observers_ok (heap w) (_observers self) = true ->
  exists out,
    run_evolution (H := organisms) (H0 := organism_HasFish) self
      (Some seed) w =
    (Ok (evolve_through seed stages),
     with_stdout (stdout w ++ out)
       (with_heap (heap_through object_str (_observers self) seed stages
                     (heap w)) w)) /\
    (_debug self = false -> out = []).
Proof. intros Hok. unfold run_evolution. now apply stage_loop_ok. Qed.

(** C1: from the seed, a [Fish] that carries "H", the engine returns a
    [MessageBearer] whose [reveal] is "Hello World", whatever strategy,
    observers and debug flag it has; the default argument is that seed.
    Along the way the classes are Fish, Amphibian, Reptile, Dinosaur and
    MessageBearer and the fragments "H", "Hello", "Hello ", "Hello World",
    that is "H" followed by "ello", " " and "World". *)
Theorem seed_evolves_to_hello_world (self : EvolutionEngine) (w : World) :
  observers_ok (heap w) (_observers self) = true ->
  exists bearer w',
    run_evolution (H := organisms) (H0 := organism_HasFish) self
      (Some (OLife new_Fish)) w = (Ok (OBearer bearer), w') /\
    run_evolution (H := organisms) (H0 := organism_HasFish) self None w =
      (Ok (OBearer bearer), w') /\
    reveal bearer = "Hello World" /\
    reveal bearer = "H" +:+ "ello" +:+ " " +:+ "World" /\
    get_message_fragment new_Fish = "H" /\
    (fun k => o ← iter_evolve (H := organisms) k (OLife new_Fish);
              Some (type_name (PyObject := organisms) o, message_of o))
      <$> [0; 1; 2; 3; 4]%nat =
    [Some ("Fish", "H"); Some ("Amphibian", "Hello");
     Some ("Reptile", "Hello "); Some ("Dinosaur", "Hello World");
     Some ("MessageBearer", "Hello World")].
Proof.
  intros Hok.
  destruct (run_evolution_ok self (OLife new_Fish) w Hok) as (out & Hrun & _).
  eexists _, _. split; [exact Hrun |].
  split; [rewrite run_evolution_default; exact Hrun |].
  repeat split.
Qed.

(** The log of a logger that is attached once, after the run from the
    seed: one entry per stage, in the order of the list [stages]. *)
Lemma seed_run_log (observers : list observer) (h : list obj) (l : loc) :
  is_logger h l = true ->
  count_occ observer_eq_dec observers (ObsLogger l) = 1%nat ->
  log_of (heap_through object_str observers (OLife new_Fish) stages h) l =
  (log_of h l ++
   ["Evolution stage: AQUATIC - Organism: Fish";
    "Evolution stage: AMPHIBIOUS - Organism: Amphibian";
    "Evolution stage: TERRESTRIAL - Organism: Reptile";
    "Evolution stage: APEX_PREDATOR - Organism: Dinosaur";
    "Evolution stage: TRANSCENDENT - Organism: MessageBearer"])%list.
Proof.
  intros Hl Hcount.
  change (heap_through object_str observers (OLife new_Fish) stages h) with
    (heap_notify observers
       "Evolution stage: TRANSCENDENT - Organism: MessageBearer"
       (heap_notify observers
          "Evolution stage: APEX_PREDATOR - Organism: Dinosaur"
          (heap_notify observers
             "Evolution stage: TERRESTRIAL - Organism: Reptile"
             (heap_notify observers
                "Evolution stage: AMPHIBIOUS - Organism: Amphibian"
                (heap_notify observers
                   "Evolution stage: AQUATIC - Organism: Fish" h))))).
  repeat (rewrite log_of_heap_notify, Hcount
            by now rewrite ?is_logger_heap_notify).
  cbn [replicate]. rewrite <- !app_assoc. reflexivity.
Qed.

(** A pass that raises ends the loop with that exception. *)
Lemma fails_in_stage_loop {O : Type} `{PyObject O}
    (self : EvolutionEngine) (current : O) todo w e w' :
  fails_in self current todo w e w' ->
  stage_loop self current todo w = (Raise e, w').
Proof.
  induction 1 as [current stage rest w e w' Hbody
                 | current stage rest w next_form w1 e w' Hbody _ IH];
    cbn [stage_loop]; unfold mbind at 1, M_bind at 1; rewrite Hbody.
  - reflexivity.
  - exact IH.
Qed.

(** The loop body raises exactly what [evolve] raises. *)
Lemma stage_body_evolve_raises {O : Type} `{PyObject O}
    (self : EvolutionEngine) (current : O) stage w e :
  _debug self = false ->
  observers_ok (heap w) (_observers self) = true ->
  evolve_method current = Some (Raise e) ->
  stage_body self current stage w =
  (Raise e,
   with_heap (heap_notify (_observers self) (log_entry current stage)
                (heap w)) w).
Proof.
  intros Hquiet Hok Hraise. unfold stage_body, notify_observers.
  unfold mbind at 1, M_bind at 1. rewrite notify_each_ok by assumption.
  rewrite Hquiet, Hraise. reflexivity.
Qed.

(** C2: on the default seed the loop body runs five times, once for each
    stage of the list and in its order, as the log of an attached logger
    records; the first four passes call [evolve], the fifth finds the
    [MessageBearer], which has no [evolve], and ends the loop after the
    last stage.  A pass that raises, after any number of passes that
    continue, makes [run_evolution] raise the same exception at once, in
    the state of the raise and with no organism returned; in particular
    what [evolve] raises is what the caller gets. *)
Theorem five_passes_in_order_or_failure :
  (forall (self : EvolutionEngine) (w : World) (l : loc),
      observers_ok (heap w) (_observers self) = true ->
      is_logger (heap w) l = true ->
      count_occ observer_eq_dec (_observers self) (ObsLogger l) = 1%nat ->
      exists bearer w',
        run_evolution (H := organisms) (H0 := organism_HasFish) self None w
          = (Ok (OBearer bearer), w') /\
        log_of (heap w') l =
          (log_of (heap w) l ++
           ["Evolution stage: AQUATIC - Organism: Fish";
            "Evolution stage: AMPHIBIOUS - Organism: Amphibian";
            "Evolution stage: TERRESTRIAL - Organism: Reptile";
            "Evolution stage: APEX_PREDATOR - Organism: Dinosaur";
            "Evolution stage: TRANSCENDENT - Organism: MessageBearer"])%list /\
        iter_evolve (H := organisms) 4 (OLife new_Fish)
          = Some (OBearer bearer) /\
        evolve_method (PyObject := organisms) (OBearer bearer) = None) /\
  stages = [AQUATIC; AMPHIBIOUS; TERRESTRIAL; APEX_PREDATOR; TRANSCENDENT] /\
  (forall (O : Type) (H : PyObject O) (F : HasFish O)
          (self : EvolutionEngine) (seed : O) w e w',
      fails_in self seed stages w e w' ->
      run_evolution self (Some seed) w = (Raise e, w')) /\
  (forall (O : Type) (H : PyObject O) (F : HasFish O)
          (self : EvolutionEngine) (seed : O) w e,
      _debug self = false ->
      observers_ok (heap w) (_observers self) = true ->
      evolve_method seed = Some (Raise e) ->
      fst (run_evolution self (Some seed) w) = Raise e).
Proof.
  split; [| split; [reflexivity | split]].
  - intros self w l Hok Hl Hcount.
    destruct (run_evolution_ok self (OLife new_Fish) w Hok)
      as (out & Hrun & _).
    eexists _, _. split; [rewrite run_evolution_default; exact Hrun |].
    split; [| split; reflexivity].
    cbn [heap with_stdout with_heap]. now apply seed_run_log.
  - intros O H F self seed w e w' Hfails. unfold run_evolution.
    now apply fails_in_stage_loop.
  - intros O H F self seed w e Hquiet Hok Hraise.
    unfold run_evolution. cbn [default stages].
    erewrite fails_in_stage_loop; [reflexivity |].
    apply fails_now. now apply stage_body_evolve_raises.
Qed.

Lemma iter_evolve_4_bearer (seed o : organism) :
  iter_evolve (H := organisms) 4 seed = Some o -> exists b, o = OBearer b.
Proof.
  destruct seed as [l | b]; [| discriminate].
  cbn [iter_evolve evolve_method organism_PyObject the_organisms].
  unfold evolve at 1.
  destruct (class_of l); cbn; try discriminate.
  intros [= <-]. eexists. reflexivity.
Qed.

(** The loop on a list of stages split in two: the second part is entered
    with the organism that the passes of the first part have evolved, if
    all of them did; otherwise the loop has ended within the first part. *)
Lemma stage_loop_reaches (self : EvolutionEngine) pre post (seed : organism) w :
  observers_ok (heap w) (_observers self) = true ->
  match iter_evolve (H := organisms) (length pre) seed with
  | Some o =>
      exists w1,
        stage_loop (H := organisms) self seed (pre ++ post) w =
        stage_loop (H := organisms) self o post w1 /\
        observers_ok (heap w1) (_observers self) = true
  | None =>
      stage_loop (H := organisms) self seed (pre ++ post) w =
      stage_loop (H := organisms) self seed pre w
  end.
Proof.
  revert seed w. induction pre as [| stage pre' IH]; intros seed w Hok.
  - exists w. split; [reflexivity | exact Hok].
  - cbn [length iter_evolve app stage_loop].
    destruct (stage_body_ok object_str self seed stage w Hok)
      as (out & Hbody & _).
    destruct seed as [l | b];
      cbn [evolve_method organism_PyObject the_organisms exit_of] in *.
    + set (w' := with_stdout _ _) in Hbody.
      assert (Hok' : observers_ok (heap w') (_observers self) = true).
      { subst w'. cbn [heap with_stdout with_heap].
        now rewrite observers_ok_heap_notify. }
      specialize (IH (snd (evolve l)) w' Hok').
      destruct (iter_evolve (H := organisms) (length pre') (snd (evolve l)))
        as [o |].
      * unfold mbind at 1, M_bind at 1. rewrite Hbody. exact IH.
      * unfold mbind, M_bind. rewrite Hbody. exact IH.
    + unfold mbind, M_bind. now rewrite Hbody.
Qed.

(** C4: the fifth entry of the list is the terminal stage, and the pass
    for it is the identity: for every string [s], with the
    [MessageBearer] that carries [s] the loop body ends the loop and
    leaves that bearer, whose [reveal] is still [s]; so does the loop
    run on that last stage alone.  Whatever organism of the repository the
    engine starts from, the fifth pass is only reached after four passes
    that evolved it, and what it then finds is such a bearer. *)
Theorem terminal_stage_is_identity
    (self : EvolutionEngine) (w : World) (s : string) :
  observers_ok (heap w) (_observers self) = true ->
  stages !! 4%nat = Some TRANSCENDENT /\
  (exists w',
      stage_body (H := organisms) self (OBearer (mkMessageBearer s))
        TRANSCENDENT w =
      (Ok (Break (OBearer (mkMessageBearer s))), w') /\
      stage_loop (H := organisms) self (OBearer (mkMessageBearer s))
        [TRANSCENDENT] w =
      (Ok (OBearer (mkMessageBearer s)), w')) /\
  reveal (mkMessageBearer s) = s /\
  (forall seed : organism,
      match iter_evolve (H := organisms) 4 seed with
      | Some o =>
          exists b w1,
            o = OBearer b /\
            run_evolution (H := organisms) (H0 := organism_HasFish) self
              (Some seed) w =
            stage_loop (H := organisms) self (OBearer b) [TRANSCENDENT] w1
      | None =>
          run_evolution (H := organisms) (H0 := organism_HasFish) self
            (Some seed) w =
          stage_loop (H := organisms) self seed
            [AQUATIC; AMPHIBIOUS; TERRESTRIAL; APEX_PREDATOR] w
      end).
Proof.
  intros Hok. split; [reflexivity |]. split; [| split].
  - destruct (stage_body_ok object_str self (OBearer (mkMessageBearer s))
                TRANSCENDENT w Hok) as (out & Hbody & _).
    eexists. split; [exact Hbody |].
    cbn [stage_loop]. unfold mbind at 1, M_bind at 1. rewrite Hbody.
    reflexivity.
  - reflexivity.
  - intros seed.
    pose proof (stage_loop_reaches self
                  [AQUATIC; AMPHIBIOUS; TERRESTRIAL; APEX_PREDATOR]
                  [TRANSCENDENT] seed w Hok) as Hreach.
    cbn [length] in Hreach.
    destruct (iter_evolve (H := organisms) 4 seed) as [o |] eqn:Hiter.
    + destruct Hreach as (w1 & Hloop & _).
      destruct (iter_evolve_4_bearer seed o Hiter) as [b ->].
      exists b, w1. split; [reflexivity | exact Hloop].
    + exact Hreach.
Qed.
End Sequencer.

Lemma seed_evolves_to_hello_world_witness :
  exists bearer,
    fst (run_evolution (H := the_organisms (fun _ => ""))
           (H0 := organism_HasFish)
           (EvolutionEngine_init None false) None initial_world)
    = Ok (OBearer bearer) /\
    reveal bearer = "Hello World".
Proof.
  destruct (seed_evolves_to_hello_world (fun _ => "")
              (EvolutionEngine_init None false) initial_world)
    as (bearer & w' & _ & Hrun & Hreveal & _).
  - reflexivity.
  - exists bearer. rewrite Hrun. split; [reflexivity | exact Hreveal].
Defined.


Lemma five_passes_in_order_or_failure_witness :
  (exists bearer w',
      run_evolution (H := the_organisms (fun _ => ""))
        (H0 := organism_HasFish) logged_engine None logged_world
        = (Ok (OBearer bearer), w') /\
      log_of (heap w') 0%nat =
        (log_of (heap logged_world) 0%nat ++
         ["Evolution stage: AQUATIC - Organism: Fish";
          "Evolution stage: AMPHIBIOUS - Organism: Amphibian";
          "Evolution stage: TERRESTRIAL - Organism: Reptile";
          "Evolution stage: APEX_PREDATOR - Organism: Dinosaur";
          "Evolution stage: TRANSCENDENT - Organism: MessageBearer"])%list) /\
  fst (run_evolution (H := specimen_PyObject (fun _ => ""))
         (H0 := specimen_HasFish) logged_engine (Some (Fragile 1))
         logged_world)
  = Raise (PyExn "RuntimeError" "extinct").
Proof.
  destruct (five_passes_in_order_or_failure (fun _ => ""))
    as (Hfive & _ & Hfail & _).
  split.
  - destruct (Hfive logged_engine logged_world 0%nat)
      as (bearer & w' & Hrun & Hlog & _); [reflexivity .. |].
    exists bearer, w'. split; assumption.
  - erewrite Hfail; [reflexivity |].
    eapply fails_later; [reflexivity |]. apply fails_now. reflexivity.
Defined.

Lemma terminal_stage_is_identity_witness :
  exists w',
    stage_body (H := the_organisms (fun _ => "")) logged_engine
      (OBearer (mkMessageBearer "Hello World")) TRANSCENDENT logged_world =
    (Ok (Break (OBearer (mkMessageBearer "Hello World"))), w').
Proof.
  destruct (terminal_stage_is_identity (fun _ => "") logged_engine
              logged_world "Hello World" eq_refl)
    as (_ & (w' & Hbody & _) & _).
  exists w'. exact Hbody.
Defined.

(** ** The singleton metaclass *)

Lemma SingletonMeta_call_registered cls l w :
  _instances w !! cls = Some l ->
  SingletonMeta_call cls w = (Ok l, w).
Proof.
  intros Hreg. unfold SingletonMeta_call, mbind, M_bind, gets, mret, M_ret.
  rewrite Hreg. cbn. now rewrite Hreg.
Qed.

Lemma type_call_ok cls w :
  exists out,
    type_call cls w =
    (Ok (length (heap w)), emit out (heap w ++ [new_object cls]) w) /\
    (cls <> HelloWorldOrchestrator -> out = []).
Proof.
  destruct cls; cbn [type_call new_object].
  - unfold alloc, mbind, M_bind, gets, set_heap, mret, M_ret; cbn.
    destruct (DEBUG w); cbn.
    + eexists [_]. split; [reflexivity | congruence].
    + exists []. split; [| reflexivity].
      unfold emit, with_stdout, with_heap; cbn. now rewrite app_nil_r.
  - unfold alloc, mbind, M_bind, gets, set_heap, mret, M_ret; cbn.
    exists []. split; [| reflexivity].
    unfold emit, with_stdout, with_heap; cbn. now rewrite app_nil_r.
  - unfold alloc, mbind, M_bind, gets, set_heap, mret, M_ret; cbn.
    exists []. split; [| reflexivity].
    unfold emit, with_stdout, with_heap; cbn. now rewrite app_nil_r.
Qed.

Lemma SingletonMeta_call_fresh cls w :
  _instances w !! cls = None ->
  exists out,
    SingletonMeta_call cls w =
    (Ok (length (heap w)),
     with_instances (<[cls := length (heap w)]> (_instances w))
       (emit out (heap w ++ [new_object cls]) w)) /\
    (cls <> HelloWorldOrchestrator -> out = []).
Proof.
  intros Hnone. destruct (type_call_ok cls w) as (out & Hcall & Hquiet).
  exists out. split; [| exact Hquiet].
  unfold SingletonMeta_call.
  unfold mbind at 1, M_bind at 1, gets at 1. rewrite Hnone.
  unfold mbind at 1, M_bind at 1. unfold mbind at 1, M_bind at 1.
  rewrite Hcall.
  unfold mbind, M_bind, gets, set_instances, mret, M_ret; cbn.
  now rewrite lookup_insert_eq.
Qed.

Lemma registry_in_heap_call cls w :
  registry_in_heap w -> registry_in_heap (snd (SingletonMeta_call cls w)).
Proof.
  intros Hinv. destruct (_instances w !! cls) as [l |] eqn:Hreg.
  - now rewrite (SingletonMeta_call_registered cls l).
  - destruct (SingletonMeta_call_fresh cls w Hreg) as (out & -> & _).
    intros c l. cbn. rewrite length_app; cbn.
    destruct (decide (cls = c)) as [<- | Hne].
    + rewrite lookup_insert_eq. intros [= <-]. lia.
    + rewrite lookup_insert_ne by assumption.
      intros Hc. apply Hinv in Hc. lia.
Qed.

Lemma SingletonMeta_call_keeps cls' cls l w :
  _instances w !! cls = Some l ->
  _instances (snd (SingletonMeta_call cls' w)) !! cls = Some l.
Proof.
  intros Hreg. destruct (_instances w !! cls') as [l' |] eqn:Hreg'.
  - now rewrite (SingletonMeta_call_registered cls' l').
  - destruct (SingletonMeta_call_fresh cls' w Hreg') as (out & -> & _).
    cbn. rewrite lookup_insert_ne; [exact Hreg | congruence].
Qed.

Lemma SingletonMeta_call_returns cls w :
  exists instance,
    fst (SingletonMeta_call cls w) = Ok instance /\
    _instances (snd (SingletonMeta_call cls w)) !! cls = Some instance.
Proof.
  destruct (_instances w !! cls) as [l |] eqn:Hreg.
  - exists l. now rewrite (SingletonMeta_call_registered cls l).
  - destruct (SingletonMeta_call_fresh cls w Hreg) as (out & -> & _).
    eexists. split; [reflexivity |]. cbn. apply lookup_insert_eq.
Qed.

(** Later constructions, of any classes, keep a registered instance. *)
Lemma construct_all_keeps classes cls l w :
  registry_in_heap w ->
  _instances w !! cls = Some l ->
  exists w',
    construct_all classes w = (Ok tt, w') /\
    _instances w' !! cls = Some l /\
    registry_in_heap w'.
Proof.
  revert w. induction classes as [| c rest IH]; intros w Hinv Hreg.
  - exists w. repeat split; assumption.
  - cbn [construct_all]. unfold mbind at 1, M_bind at 1.
    destruct (SingletonMeta_call_returns c w) as (i & Hfst & _).
    destruct (SingletonMeta_call c w) as [r w1] eqn:Hcall.
    cbn in Hfst. subst r.
    apply (IH w1).
    + change w1 with (snd (Ok i, w1)). rewrite <- Hcall.
      now apply registry_in_heap_call.
    + change w1 with (snd (Ok i, w1)). rewrite <- Hcall.
      now apply SingletonMeta_call_keeps.
Qed.

(** C9: a class built by [SingletonMeta] has one instance.  The first call
    builds one new object and registers it; a call for a registered class
    returns the registered object and changes nothing; after any further
    constructions, of this or of other classes, the call still returns the
    object of the first call.  This lasts until [clear_instances] empties
    the registry: the next call then builds another object. *)
Theorem singleton_is_built_once (cls : singleton_class) (w : World) :
  registry_in_heap w ->
  exists instance w1,
    SingletonMeta_call cls w = (Ok instance, w1) /\
    _instances w1 !! cls = Some instance /\
    (forall l, _instances w !! cls = Some l -> instance = l /\ w1 = w) /\
    (_instances w !! cls = None ->
     instance = length (heap w) /\
     length (heap w1) = S (length (heap w)) /\
     _instances w1 = <[cls := instance]> (_instances w)) /\
    (forall others,
        exists w2,
          construct_all others w1 = (Ok tt, w2) /\
          SingletonMeta_call cls w2 = (Ok instance, w2) /\
          (exists w3,
              clear_instances w2 = (Ok tt, w3) /\
              _instances w3 = ∅ /\
              exists another w4,
                SingletonMeta_call cls w3 = (Ok another, w4) /\
                another <> instance /\
                _instances w4 !! cls = Some another)).
Proof.
  intros Hinv.
  destruct (SingletonMeta_call_returns cls w) as (instance & Hfst & Hreg1).
  pose proof (registry_in_heap_call cls w Hinv) as Hinv1.
  destruct (SingletonMeta_call cls w) as [r w1] eqn:Hcall.
  cbn in Hfst, Hreg1, Hinv1. subst r.
  exists instance, w1. split; [reflexivity |]. split; [exact Hreg1 |].
  split; [| split].
  - intros l Hreg. rewrite (SingletonMeta_call_registered cls l) in Hcall
      by assumption.
    inversion Hcall. now split.
  - intros Hnone.
    destruct (SingletonMeta_call_fresh cls w Hnone) as (out & Hfresh & _).
    rewrite Hfresh in Hcall. inversion Hcall; subst. cbn.
    rewrite length_app; cbn. repeat split. lia.
  - intros others.
    destruct (construct_all_keeps others cls instance w1 Hinv1 Hreg1)
      as (w2 & Hall & Hreg2 & Hinv2).
    exists w2. split; [exact Hall |].
    split; [now apply SingletonMeta_call_registered |].
    eexists. split; [reflexivity |]. split; [reflexivity |].
    destruct (SingletonMeta_call_fresh cls (with_instances ∅ w2))
      as (out & Hfresh & _); [apply lookup_empty |].
    eexists _, _. split; [exact Hfresh |]. split.
    + cbn. apply Hinv2 in Hreg2. lia.
    + cbn. apply lookup_insert_eq.
Qed.

Lemma singleton_is_built_once_witness :
  exists instance w1,
    SingletonMeta_call HelloWorldOrchestrator initial_world
      = (Ok instance, w1) /\
    SingletonMeta_call HelloWorldOrchestrator w1 = (Ok instance, w1).
Proof.
  destruct (singleton_is_built_once HelloWorldOrchestrator initial_world)
    as (instance & w1 & Hfirst & _ & _ & _ & Hlater).
  - intros cls l Hreg.
    change (_instances initial_world) with (∅ : gmap singleton_class nat)
      in Hreg.
    rewrite lookup_empty in Hreg. discriminate.
  - exists instance, w1. split; [exact Hfirst |].
    destruct (Hlater []) as (w2 & Hnone & Hagain & _).
    inversion Hnone; subst. exact Hagain.
Defined.

(** ** The full pipeline *)

Lemma emit_emit out2 h2 out1 h1 w :
  emit out2 h2 (emit out1 h1 w) = emit (out1 ++ out2) h2 w.
Proof. unfold emit, with_stdout, with_heap; cbn. now rewrite app_assoc. Qed.

Lemma debug_out_emit w lines :
  debug_out w lines = emit (if DEBUG w then lines else []) (heap w) w.
Proof.
  unfold debug_out, emit. destruct (DEBUG w).
  - now rewrite with_heap_same.
  - now rewrite with_no_output, with_heap_same.
Qed.

Lemma same_but_logs_refl h : same_but_logs h h.
Proof.
  intros l. unfold is_logger. now destruct (h !! l) as [[]|].
Qed.

Lemma same_but_logs_trans h1 h2 h3 :
  same_but_logs h1 h2 -> same_but_logs h2 h3 -> same_but_logs h1 h3.
Proof.
  intros H12 H23 l. specialize (H12 l). specialize (H23 l).
  unfold is_logger in *.
  destruct (h1 !! l) as [[]|]; try (rewrite H12 in H23; exact H23).
  destruct (h2 !! l) as [[]|]; try discriminate. exact H23.
Qed.

Lemma same_but_logs_heap_log l entry h : same_but_logs h (heap_log l entry h).
Proof.
  intros l'. unfold is_logger. rewrite heap_log_lookup.
  now destruct (h !! l') as [[]|].
Qed.

Lemma same_but_logs_heap_notify observers entry h :
  same_but_logs h (heap_notify observers entry h).
Proof.
  revert h. induction observers as [| [l |] rest IH]; intros h; cbn.
  - apply same_but_logs_refl.
  - eapply same_but_logs_trans; [apply same_but_logs_heap_log | apply IH].
  - apply IH.
Qed.

Lemma same_but_logs_heap_through object_str observers o todo h :
  same_but_logs h (heap_through object_str observers o todo h).
Proof.
  revert o h. induction todo as [| stage rest IH]; intros o h; cbn.
  - apply same_but_logs_refl.
  - destruct o as [l | b].
    + eapply same_but_logs_trans; [apply same_but_logs_heap_notify | apply IH].
    + apply same_but_logs_heap_notify.
Qed.

Lemma same_but_logs_is_logger h h' l :
  same_but_logs h h' -> is_logger h' l = is_logger h l.
Proof.
  intros Hsame. specialize (Hsame l). unfold is_logger in *.
  destruct (h !! l) as [[]|]; now rewrite Hsame.
Qed.

Lemma same_but_logs_orchestrator h h' l orch :
  same_but_logs h h' ->
  h' !! l = Some (ObjOrchestrator orch) <-> h !! l = Some (ObjOrchestrator orch).
Proof.
  intros Hsame. specialize (Hsame l). unfold is_logger in *.
  destruct (h !! l) as [[]|]; try (now rewrite Hsame).
  destruct (h' !! l) as [[]|]; try discriminate. split; discriminate.
Qed.

(** The invariant does not depend on the logs, the output or [DEBUG]. *)
Lemma world_ok_same_but_logs w w' :
  world_ok w ->
  same_but_logs (heap w) (heap w') ->
  _strategies w' = _strategies w ->
  _instances w' = _instances w ->
  world_ok w'.
Proof.
  intros (Horch & Hlinear & Hreg & Hmain) Hsame Hstrat Hinst.
  split; [| split; [| split]].
  - intros l orch Hl.
    apply (same_but_logs_orchestrator _ _ _ _ Hsame) in Hl.
    destruct (Horch l orch Hl) as [Hfish Hengine].
    split; [exact Hfish |].
    intros engine He.
    rewrite (observers_ok_ext (heap w) (heap w')).
    + now apply Hengine.
    + intros l0. now apply same_but_logs_is_logger.
  - now rewrite Hstrat.
  - intros l Hl. rewrite Hinst in Hl.
    rewrite (same_but_logs_is_logger _ _ _ Hsame). now apply Hreg.
  - intros l Hl. rewrite Hinst in Hl. destruct (Hmain l Hl) as [orch Horch'].
    exists orch. now apply (same_but_logs_orchestrator _ _ _ _ Hsame).
Qed.

Lemma world_ok_initial : world_ok initial_world.
Proof.
  split; [| split; [| split]].
  - intros l orch Hl. destruct l; discriminate.
  - now eexists.
  - intros l Hl. discriminate.
  - intros l Hl. discriminate.
Qed.

Lemma world_ok_set_debug self debug w :
  world_ok w -> world_ok (snd (set_debug self debug w)).
Proof.
  intros Hok. apply (world_ok_same_but_logs w); try reflexivity; try assumption.
  apply same_but_logs_refl.
Qed.

Lemma world_ok_clear_instances w :
  world_ok w -> world_ok (snd (clear_instances w)).
Proof.
  intros (Horch & Hlinear & Hreg & Hmain).
  split; [| split; [| split]]; try assumption;
    intros l Hl; cbn in Hl; rewrite lookup_empty in Hl; discriminate.
Qed.

Lemma create_initial_organism_ok self orch w :
  heap w !! self = Some (ObjOrchestrator orch) ->
  _factory orch !! "fish" = Some Fish ->
  create_initial_organism self w =
  (Ok new_Fish,
   debug_out w ["[DEBUG] Creating initial organism: Fish";
                "[DEBUG] Fish created with message: 'H'"]).
Proof.
  intros Hlive Hfish. unfold create_initial_organism.
  unfold mbind at 1, M_bind at 1. rewrite when_DEBUG_print.
  unfold mbind at 1, M_bind at 1.
  rewrite (get_orchestrator_live self orch) by now rewrite debug_out_heap.
  unfold mbind at 1, M_bind at 1, lift_result at 1.
  unfold create_life_form. change (str_lower "fish") with "fish".
  rewrite Hfish. cbn [String.eqb Ascii.eqb Bool.eqb call_life_form_class
                      no_kwargs kwargs_empty inherited_complexity
                      inherited_message].
  unfold mbind at 1, M_bind at 1.
  change ("[DEBUG] Fish created with message: '" +:+
          get_message_fragment new_Fish +:+ "'")
    with "[DEBUG] Fish created with message: 'H'".
  rewrite when_DEBUG_print. unfold mret, M_ret.
  now rewrite debug_out_twice.
Qed.

Section Pipeline.
Variable object_str : LifeForm -> string.

Local Abbreviation organisms := (the_organisms object_str).

(** With a cached engine, the orchestrator runs the engine and only the
    logs and the output change. *)
Lemma run_evolution_pipeline_cached self orch engine (seed : organism) w :
  heap w !! self = Some (ObjOrchestrator orch) ->
  _engine orch = Some engine ->
  observers_ok (heap w) (_observers engine) = true ->
  exists out,
    run_evolution_pipeline (H := organisms) (H0 := organism_HasFish)
      self seed w =
    (Ok (evolve_through seed stages),
     emit out (heap_through object_str (_observers engine) seed stages
                 (heap w)) w).
Proof.
  intros Hlive Hengine Hok. unfold run_evolution_pipeline.
  unfold mbind at 1, M_bind at 1.
  rewrite (get_orchestrator_live self orch) by assumption.
  rewrite Hengine.
  unfold mbind at 1, M_bind at 1, mret at 1, M_ret at 1.
  unfold mbind at 1, M_bind at 1. rewrite when_DEBUG_print2.
  unfold mbind at 1, M_bind at 1.
  rewrite (get_orchestrator_live self orch) by now rewrite debug_out_heap.
  rewrite Hengine.
  unfold mbind at 1, M_bind at 1.
  destruct (run_evolution_ok object_str engine seed
              (debug_out w [nl +:+ "[DEBUG] Starting evolution pipeline...";
                            str_repeat "=" 60]))
    as (out & -> & _); [now rewrite debug_out_heap |].
  unfold mbind at 1, M_bind at 1. rewrite when_DEBUG_print2.
  unfold mret, M_ret.
  rewrite debug_out_heap. fold (emit out
    (heap_through object_str (_observers engine) seed stages (heap w))
    (debug_out w [nl +:+ "[DEBUG] Starting evolution pipeline...";
                  str_repeat "=" 60])).
  rewrite (debug_out_emit (emit _ _ _)).
  rewrite (debug_out_emit w).
  rewrite !emit_emit.
  eexists. reflexivity.
Qed.
End Pipeline.

Lemma with_instances_same w : with_instances (_instances w) w = w.
Proof. now destruct w. Qed.

Lemma create_strategy_linear registry :
  is_Some (registry !! "linear") ->
  exists strategy0,
    create_strategy str_lower registry "linear" None = Ok strategy0.
Proof.
  intros [cls Hcls]. unfold create_strategy.
  change (str_lower "linear") with "linear". rewrite Hcls.
  destruct cls; eexists; reflexivity.
Qed.

(** Building the engine: the strategy comes from the factory, the logger is
    the singleton, which is built when there is none yet. *)
Lemma initialize_engine_ok self w :
  is_Some (_strategies w !! "linear") ->
  (forall l, _instances w !! EvolutionLogger = Some l ->
             is_logger (heap w) l = true) ->
  exists strategy0 l out h' instances',
    initialize_engine self w =
    (Ok {| _observers := [ObsLogger l; ObsSilent];
           _strategy := strategy0;
           _debug := DEBUG w |},
     with_instances instances' (emit out h' w)) /\
    is_logger h' l = true /\
    instances' !! EvolutionLogger = Some l /\
    (h' = heap w \/ h' = (heap w ++ [ObjLogger []])%list) /\
    (forall cls, cls <> EvolutionLogger ->
                 instances' !! cls = _instances w !! cls).
Proof.
  intros Hlinear Hreg.
  destruct (create_strategy_linear _ Hlinear) as [strategy0 Hstrategy].
  exists strategy0.
  unfold initialize_engine.
  unfold mbind at 1, M_bind at 1. rewrite when_DEBUG_print.
  unfold mbind at 1, M_bind at 1, gets at 1.
  unfold mbind at 1, M_bind at 1, lift_result at 1.
  rewrite debug_out_strategies, Hstrategy.
  unfold mbind at 1, M_bind at 1. rewrite when_DEBUG_print.
  unfold mbind at 1, M_bind at 1, gets at 1.
  unfold mbind at 1, M_bind at 1.
  rewrite debug_out_twice. rewrite !debug_out_DEBUG.
  set (lines := (_ ++ _)%list).
  destruct (_instances w !! EvolutionLogger) as [l |] eqn:Hlogger.
  - rewrite (SingletonMeta_call_registered EvolutionLogger l)
      by now rewrite debug_out_instances.
    unfold mbind at 1, M_bind at 1. rewrite when_DEBUG_print.
    unfold mret, M_ret. rewrite debug_out_twice, debug_out_emit.
    eexists l, _, (heap w), (_instances w).
    split; [| split; [now apply Hreg | split; [exact Hlogger |]]].
    + reflexivity.
    + split; [now left | reflexivity].
  - destruct (SingletonMeta_call_fresh EvolutionLogger (debug_out w lines))
      as (out & -> & Hnew); [now rewrite debug_out_instances |].
    rewrite Hnew by discriminate. cbn [new_object].
    unfold mbind at 1, M_bind at 1. rewrite when_DEBUG_print.
    unfold mret, M_ret.
    rewrite debug_out_heap, debug_out_instances.
    exists (length (heap w)),
           (if DEBUG w
            then (lines ++ ["[DEBUG] Observers attached: EvolutionLogger, SilentObserver"])%list
            else []),
           (heap w ++ [ObjLogger []])%list,
           (<[EvolutionLogger := length (heap w)]> (_instances w)).
    split; [| split; [| split; [apply lookup_insert_eq | split; [now right |]]]].
    3: { intros cls Hcls. now rewrite lookup_insert_ne by congruence. }
    + f_equal. unfold debug_out, emit, with_instances, with_stdout, with_heap.
      cbn. destruct (DEBUG w) eqn:Hd; cbn; rewrite ?Hd, ?app_nil_r;
        try rewrite <- !app_assoc; reflexivity.
    + unfold is_logger. now rewrite lookup_app_r, Nat.sub_diag by lia.
Qed.

Lemma lookup_orchestrator_grown (h h' : list obj) l orch :
  h' = h \/ h' = (h ++ [ObjLogger []])%list ->
  h' !! l = Some (ObjOrchestrator orch) <-> h !! l = Some (ObjOrchestrator orch).
Proof.
  intros [-> | ->]; [reflexivity |].
  destruct (decide (l < length h)%nat) as [Hlt | Hge].
  - now rewrite lookup_app_l by assumption.
  - rewrite lookup_app_r by lia.
    rewrite (lookup_ge_None_2 h l) by lia.
    destruct (l - length h)%nat as [| k]; cbn; split; discriminate.
Qed.

Lemma is_logger_grown (h h' : list obj) l :
  h' = h \/ h' = (h ++ [ObjLogger []])%list ->
  is_logger h l = true -> is_logger h' l = true.
Proof.
  intros [-> | ->]; [trivial |]. unfold is_logger.
  destruct (h !! l) as [o |] eqn:Hl; [| discriminate].
  rewrite lookup_app_l by (eapply lookup_lt_Some; eassumption).
  now rewrite Hl.
Qed.

Lemma observers_ok_mono (h h' : list obj) observers :
  (forall l, is_logger h l = true -> is_logger h' l = true) ->
  observers_ok h observers = true -> observers_ok h' observers = true.
Proof.
  intros Hmono. unfold observers_ok.
  induction observers as [| [l |] rest IH]; cbn; [trivial | |].
  - intros [Hl Hrest]%andb_prop. now rewrite (Hmono l Hl), IH.
  - exact IH.
Qed.

(** The state in which the orchestrator at [self] has stored its new
    engine satisfies the invariant again. *)
Lemma world_ok_engine_stored self orch w h' instances' out l strategy0 debug :
  world_ok w ->
  heap w !! self = Some (ObjOrchestrator orch) ->
  h' = heap w \/ h' = (heap w ++ [ObjLogger []])%list ->
  is_logger h' l = true ->
  instances' !! EvolutionLogger = Some l ->
  (forall cls, cls <> EvolutionLogger ->
               instances' !! cls = _instances w !! cls) ->
  world_ok
    (with_heap
       (<[self := ObjOrchestrator
                    {| _engine := Some {| _observers := [ObsLogger l; ObsSilent];
                                          _strategy := strategy0;
                                          _debug := debug |};
                       _factory := _factory orch |}]> h')
       (with_instances instances' (emit out h' w))).
Proof.
  intros (Horch & Hlinear & Hreg & Hmain) Hself Hgrown Hl Hinst Hothers.
  assert (Hself' : h' !! self = Some (ObjOrchestrator orch))
    by now apply (lookup_orchestrator_grown (heap w)).
  assert (Hne : l <> self).
  { intros ->. unfold is_logger in Hl. now rewrite Hself' in Hl. }
  assert (Hmono : forall x, is_logger (heap w) x = true ->
                            is_logger (<[self := ObjOrchestrator
                              {| _engine := Some {| _observers := [ObsLogger l; ObsSilent];
                                                    _strategy := strategy0;
                                                    _debug := debug |};
                                 _factory := _factory orch |}]> h') x = true).
  { intros x Hx. apply (is_logger_grown _ h') in Hx; [| assumption].
    unfold is_logger in *.
    destruct (decide (x = self)) as [-> | Hxs].
    - now rewrite Hself' in Hx.
    - now rewrite list_lookup_insert_ne by congruence. }
  split; [| split; [| split]];
    cbn [heap _strategies _instances with_heap with_instances emit with_stdout].
  - intros x o Hx.
    destruct (decide (x = self)) as [-> | Hxs].
    + rewrite list_lookup_insert_eq in Hx
        by (eapply lookup_lt_Some; eassumption).
      inversion Hx; subst; cbn. split; [now apply (Horch self orch) |].
      intros engine [= <-]. cbn.
      unfold is_logger. rewrite list_lookup_insert_ne by congruence.
      unfold is_logger in Hl. now rewrite Hl.
    + rewrite list_lookup_insert_ne in Hx by congruence.
      apply (lookup_orchestrator_grown (heap w)) in Hx; [| assumption].
      destruct (Horch x o Hx) as [Hfish Hengine]. split; [exact Hfish |].
      intros engine He. eapply observers_ok_mono; [exact Hmono |].
      now apply Hengine.
  - exact Hlinear.
  - intros x Hx. rewrite Hinst in Hx. inversion Hx; subst.
    unfold is_logger. rewrite list_lookup_insert_ne by congruence.
    exact Hl.
  - intros x Hx. rewrite Hothers in Hx by discriminate.
    destruct (Hmain x Hx) as [o Ho].
    destruct (decide (x = self)) as [-> | Hxs].
    + eexists. apply list_lookup_insert_eq.
      eapply lookup_lt_Some; eassumption.
    + exists o. rewrite list_lookup_insert_ne by congruence.
      now apply (lookup_orchestrator_grown (heap w)).
Qed.

Section PipelineRun.
Variable object_str : LifeForm -> string.

Local Abbreviation organisms := (the_organisms object_str).

(** Without a cached engine the orchestrator first builds and stores one;
    from there on the call proceeds as with a cached engine. *)
Lemma run_evolution_pipeline_fresh self orch (seed : organism) w :
  world_ok w ->
  heap w !! self = Some (ObjOrchestrator orch) ->
  _engine orch = None ->
  exists w2 engine,
    run_evolution_pipeline (H := organisms) (H0 := organism_HasFish)
      self seed w =
    run_evolution_pipeline (H := organisms) (H0 := organism_HasFish)
      self seed w2 /\
    world_ok w2 /\
    heap w2 !! self =
      Some (ObjOrchestrator {| _engine := Some engine;
                               _factory := _factory orch |}) /\
    DEBUG w2 = DEBUG w /\
    (forall l o, heap w !! l = Some (ObjOrchestrator o) ->
                 exists o', heap w2 !! l = Some (ObjOrchestrator o')).
Proof.
  intros Hok Hself Hengine.
  pose proof Hok as (_ & Hlinear & Hreg & _).
  destruct (initialize_engine_ok self w Hlinear Hreg)
    as (strategy0 & l & out & h' & instances' & Hinit & Hl & Hinst & Hgrown
        & Hothers).
  assert (Hself' : h' !! self = Some (ObjOrchestrator orch))
    by now apply (lookup_orchestrator_grown (heap w)).
  set (engine := {| _observers := [ObsLogger l; ObsSilent];
                    _strategy := strategy0; _debug := DEBUG w |}) in *.
  set (w1 := with_instances instances' (emit out h' w)) in *.
  set (orch2 := {| _engine := Some engine; _factory := _factory orch |}).
  exists (with_heap (<[self := ObjOrchestrator orch2]> h') w1), engine.
  assert (Hself2 : heap (with_heap (<[self := ObjOrchestrator orch2]> h') w1)
                   !! self = Some (ObjOrchestrator orch2)).
  { cbn. apply list_lookup_insert_eq. eapply lookup_lt_Some; eassumption. }
  split; [| split; [| split; [exact Hself2 | split; [reflexivity |]]]].
  - unfold run_evolution_pipeline.
    unfold mbind at 1, M_bind at 1.
    rewrite (get_orchestrator_live self orch w) by assumption.
    rewrite Hengine.
    unfold mbind at 1, M_bind at 1. unfold mbind at 1, M_bind at 1.
    rewrite Hinit.
    unfold mbind at 1, M_bind at 1.
    rewrite (get_orchestrator_live self orch w1) by exact Hself'.
    unfold store at 1, mbind at 1, M_bind at 1, gets at 1, set_heap at 1.
    symmetry.
    unfold mbind at 1, M_bind at 1.
    rewrite (get_orchestrator_live self orch2) by exact Hself2.
    cbn [_engine orch2].
    unfold mbind at 1, M_bind at 1, mret at 1, M_ret at 1.
    reflexivity.
  - subst w1 orch2 engine. now apply world_ok_engine_stored.
  - intros x o Hx. cbn.
    destruct (decide (x = self)) as [-> | Hxs].
    + exists orch2. apply list_lookup_insert_eq.
      eapply lookup_lt_Some; eassumption.
    + exists o. rewrite list_lookup_insert_ne by congruence.
      now apply (lookup_orchestrator_grown (heap w)).
Qed.

Lemma run_evolution_pipeline_ok self (seed : organism) w :
  world_ok w ->
  (exists orch, heap w !! self = Some (ObjOrchestrator orch)) ->
  exists w',
    run_evolution_pipeline (H := organisms) (H0 := organism_HasFish)
      self seed w = (Ok (evolve_through seed stages), w') /\
    world_ok w' /\
    DEBUG w' = DEBUG w /\
    (forall l o, heap w !! l = Some (ObjOrchestrator o) ->
                 exists o', heap w' !! l = Some (ObjOrchestrator o')).
Proof.
  assert (Hcached : forall w0 orch engine,
    world_ok w0 ->
    heap w0 !! self = Some (ObjOrchestrator orch) ->
    _engine orch = Some engine ->
    exists w',
      run_evolution_pipeline (H := organisms) (H0 := organism_HasFish)
        self seed w0 = (Ok (evolve_through seed stages), w') /\
      world_ok w' /\
      DEBUG w' = DEBUG w0 /\
      (forall l o, heap w0 !! l = Some (ObjOrchestrator o) ->
                   heap w' !! l = Some (ObjOrchestrator o))).
  { intros w0 orch engine Hok0 Hself0 Hengine0.
    pose proof Hok0 as (Horch & _ & _).
    destruct (Horch self orch Hself0) as [_ Hobs].
    destruct (run_evolution_pipeline_cached object_str self orch engine seed
                w0 Hself0 Hengine0 (Hobs engine Hengine0)) as [out Hrun].
    eexists. split; [exact Hrun |].
    pose proof (same_but_logs_heap_through object_str (_observers engine)
                  seed stages (heap w0)) as Hsame.
    split; [| split; [reflexivity |]].
    - apply (world_ok_same_but_logs w0); try reflexivity; assumption.
    - intros x o Hx. cbn.
      now apply (same_but_logs_orchestrator _ _ _ _ Hsame). }
  intros Hok [orch Hself].
  destruct (_engine orch) as [engine |] eqn:Hengine.
  - destruct (Hcached w orch engine Hok Hself Hengine)
      as (w' & Hrun & Hok' & Hdebug & Hlive).
    exists w'. split; [exact Hrun |]. split; [exact Hok' |].
    split; [exact Hdebug |].
    intros l o Hl. exists o. now apply Hlive.
  - destruct (run_evolution_pipeline_fresh self orch seed w Hok Hself Hengine)
      as (w2 & engine & -> & Hok2 & Hself2 & Hdebug2 & Hlive2).
    destruct (Hcached w2 _ engine Hok2 Hself2 eq_refl)
      as (w' & Hrun & Hok' & Hdebug & Hlive).
    exists w'. split; [exact Hrun |]. split; [exact Hok' |].
    split; [congruence |].
    intros l o Hl. destruct (Hlive2 l o Hl) as [o' Hl'].
    exists o'. now apply Hlive.
Qed.

Lemma pipeline_execute_ok (self : ComplexityWrapper) w :
  world_ok w ->
  wrapper_live w self ->
  exists w',
    pipeline_execute object_str self w = (Ok "Hello World", w') /\
    world_ok w' /\
    DEBUG w' = DEBUG w /\
    (forall other, wrapper_live w other -> wrapper_live w' other).
Proof.
  intros Hok [orch Hself].
  pose proof Hok as (Horch & _).
  destruct (Horch _ orch Hself) as [Hfish _].
  unfold pipeline_execute.
  unfold mbind at 1, M_bind at 1.
  rewrite (create_initial_organism_ok _ orch) by assumption.
  set (wa := debug_out w _).
  assert (Hoka : world_ok wa).
  { apply (world_ok_same_but_logs w); [assumption | | |]; subst wa.
    - rewrite debug_out_heap. apply same_but_logs_refl.
    - apply debug_out_strategies.
    - apply debug_out_instances. }
  destruct (run_evolution_pipeline_ok (_orchestrator self) (OLife new_Fish)
              wa Hoka) as (wb & Hrun & Hokb & Hdebugb & Hliveb).
  { exists orch. subst wa. now rewrite debug_out_heap. }
  change (evolve_through (OLife new_Fish) stages)
    with (OBearer (mkMessageBearer "Hello World")) in Hrun.
  unfold the_organisms in Hrun.
  unfold mbind at 1, M_bind at 1. rewrite Hrun.
  unfold mbind at 1, M_bind at 1. rewrite extract_message_outcome.
  change (generate (H := organisms) (OBearer (mkMessageBearer "Hello World"))
            "composed") with (Ok "Hello World").
  cbn [create_lazy_output force LazyMessage_str LazyMessage_init
       _cached_value _generator fst lift_result].
  eexists. split; [reflexivity |]. split; [| split].
  - apply (world_ok_same_but_logs wb); [assumption | | |].
    + rewrite debug_out_heap. apply same_but_logs_refl.
    + apply debug_out_strategies.
    + apply debug_out_instances.
  - rewrite debug_out_DEBUG, Hdebugb. subst wa. apply debug_out_DEBUG.
  - intros other [o Ho]. unfold wrapper_live. rewrite debug_out_heap.
    apply (Hliveb _ o). subst wa. now rewrite debug_out_heap.
Qed.
End PipelineRun.

Lemma is_logger_appended (h : list obj) o l :
  is_logger h l = true -> is_logger (h ++ [o])%list l = true.
Proof.
  unfold is_logger. intros Hl.
  destruct (h !! l) as [x |] eqn:Hx; [| discriminate].
  rewrite lookup_app_l by (eapply lookup_lt_Some; eassumption).
  now rewrite Hx.
Qed.

Lemma lookup_appended (h : list obj) o l x :
  (h ++ [o])%list !! l = Some x ->
  h !! l = Some x \/ (l = length h /\ x = o).
Proof.
  destruct (decide (l < length h)%nat) as [Hlt | Hge].
  - rewrite lookup_app_l by assumption. now left.
  - rewrite lookup_app_r by lia.
    destruct (l - length h)%nat as [| k] eqn:Hk; cbn; [| discriminate].
    intros [= <-]. right. split; [lia | reflexivity].
Qed.

(** The construction of a singleton keeps the invariant. *)
Lemma world_ok_SingletonMeta_call cls w :
  world_ok w -> world_ok (snd (SingletonMeta_call cls w)).
Proof.
  intros Hok. destruct (_instances w !! cls) as [l |] eqn:Hreg.
  - now rewrite (SingletonMeta_call_registered cls l).
  - destruct (SingletonMeta_call_fresh cls w Hreg) as (out & -> & _).
    destruct Hok as (Horch & Hlinear & Hlog & Hmain).
    split; [| split; [| split]];
      cbn [snd heap _strategies _instances with_heap with_instances emit
           with_stdout].
    + intros x orch Hx. apply lookup_appended in Hx as [Hx | [-> Hnew]].
      * destruct (Horch x orch Hx) as [Hfish Hengine]. split; [exact Hfish |].
        intros engine He. eapply observers_ok_mono; [| now apply Hengine].
        intros l0. apply is_logger_appended.
      * destruct cls; try discriminate. inversion Hnew; subst; cbn.
        split; [reflexivity | discriminate].
    + exact Hlinear.
    + intros x Hx. destruct (decide (cls = EvolutionLogger)) as [-> | Hne].
      * rewrite lookup_insert_eq in Hx. inversion Hx; subst.
        unfold is_logger. now rewrite lookup_app_r, Nat.sub_diag by lia.
      * rewrite lookup_insert_ne in Hx by assumption.
        now apply is_logger_appended, Hlog.
    + intros x Hx.
      destruct (decide (cls = HelloWorldOrchestrator)) as [-> | Hne].
      * rewrite lookup_insert_eq in Hx. inversion Hx; subst.
        eexists. now rewrite lookup_app_r, Nat.sub_diag by lia.
      * rewrite lookup_insert_ne in Hx by assumption.
        destruct (Hmain x Hx) as [orch Ho]. exists orch.
        rewrite lookup_app_l by (eapply lookup_lt_Some; eassumption).
        exact Ho.
Qed.

(** A new wrapper refers to a live orchestrator. *)
Lemma ComplexityWrapper_init_ok w :
  world_ok w ->
  exists self w',
    ComplexityWrapper_init w = (Ok self, w') /\
    world_ok w' /\ wrapper_live w' self.
Proof.
  intros Hok. unfold ComplexityWrapper_init, mbind, M_bind, mret, M_ret.
  pose proof (world_ok_SingletonMeta_call HelloWorldOrchestrator w Hok) as Hok'.
  destruct (SingletonMeta_call_returns HelloWorldOrchestrator w)
    as (l & Hfst & Hreg).
  destruct (SingletonMeta_call HelloWorldOrchestrator w) as [r w'].
  cbn in Hfst, Hreg, Hok'. subst r.
  eexists _, w'. split; [reflexivity |]. split; [exact Hok' |].
  destruct Hok' as (_ & _ & _ & Hmain). now apply Hmain.
Qed.

(** The injected method [say_hello], that is a new wrapper and its
    pipeline, returns the message in every state of the program. *)
Lemma say_hello_ok object_str w :
  world_ok w ->
  exists w', say_hello object_str w = (Ok "Hello World", w') /\ world_ok w'.
Proof.
  intros Hok. unfold say_hello. unfold mbind at 1, M_bind at 1.
  destruct (ComplexityWrapper_init_ok w Hok) as (self & w1 & -> & Hok1 & Hlive).
  destruct (pipeline_execute_ok object_str self w1 Hok1 Hlive)
    as (w' & -> & Hok' & _).
  exists w'. split; [reflexivity | exact Hok'].
Qed.

(** C6: the pipeline is deterministic.  In every state that satisfies the
    invariant of the program, whatever its debug setting, its output so
    far, its logs and its cached engine, [pipeline_execute] of a wrapper
    with a live orchestrator returns the string "Hello World"; so any two
    invocations return the same string, byte for byte, and so do any two
    calls of [say_hello], which builds its wrapper first.  The invocation
    leaves a state of the same kind, with the same debug setting, in
    which every wrapper is still live: the next invocation returns that
    string again. *)
Theorem pipeline_is_deterministic (object_str : LifeForm -> string)
    (self1 self2 : ComplexityWrapper) (w1 w2 : World) :
  world_ok w1 -> wrapper_live w1 self1 ->
  world_ok w2 -> wrapper_live w2 self2 ->
  fst (pipeline_execute object_str self1 w1) =
    fst (pipeline_execute object_str self2 w2) /\
  fst (pipeline_execute object_str self1 w1) = Ok "Hello World" /\
  world_ok (snd (pipeline_execute object_str self1 w1)) /\
  DEBUG (snd (pipeline_execute object_str self1 w1)) = DEBUG w1 /\
  (forall other,
      wrapper_live w1 other ->
      wrapper_live (snd (pipeline_execute object_str self1 w1)) other /\
      fst (pipeline_execute object_str other
             (snd (pipeline_execute object_str self1 w1))) =
        fst (pipeline_execute object_str self1 w1)) /\
  fst (say_hello object_str w1) = fst (say_hello object_str w2) /\
  fst (say_hello object_str (snd (say_hello object_str w1))) =
    fst (say_hello object_str w1).
Proof.
  intros Hok1 Hlive1 Hok2 Hlive2.
  destruct (pipeline_execute_ok object_str self1 w1 Hok1 Hlive1)
    as (w1' & Hrun1 & Hok1' & Hdebug1 & Hlive1').
  destruct (pipeline_execute_ok object_str self2 w2 Hok2 Hlive2)
    as (w2' & Hrun2 & _).
  rewrite Hrun1, Hrun2. cbn [fst snd].
  split; [reflexivity |]. split; [reflexivity |].
  split; [exact Hok1' |]. split; [exact Hdebug1 |].
  split; [| split].
  - intros other Hother. split; [now apply Hlive1' |].
    destruct (pipeline_execute_ok object_str other w1' Hok1'
                (Hlive1' other Hother)) as (w3 & -> & _).
    reflexivity.
  - destruct (say_hello_ok object_str w1 Hok1) as (w3 & -> & _).
    destruct (say_hello_ok object_str w2 Hok2) as (w4 & -> & _).
    reflexivity.
  - destruct (say_hello_ok object_str w1 Hok1) as (w3 & -> & Hok3).
    cbn [fst snd].
    destruct (say_hello_ok object_str w3 Hok3) as (w4 & -> & _).
    reflexivity.
Qed.

Lemma pipeline_is_deterministic_witness :
  fst (pipeline_execute (fun _ => "") (mkComplexityWrapper 0%nat)
         (snd (ComplexityWrapper_init initial_world)))
  = fst (pipeline_execute (fun _ => "") (mkComplexityWrapper 0%nat)
           (snd (set_DEBUG true (snd (ComplexityWrapper_init initial_world))))).
Proof.
  assert (Hok : world_ok (snd (ComplexityWrapper_init initial_world))).
  { destruct (ComplexityWrapper_init_ok initial_world world_ok_initial)
      as (self & w' & Hinit & Hok & _).
    now rewrite Hinit. }
  apply (pipeline_is_deterministic (fun _ => "")).
  - exact Hok.
  - eexists. reflexivity.
  - apply (world_ok_set_debug 0%nat true _ Hok).
  - eexists. reflexivity.
Defined.

(** * Further properties of the code *)

(** ** The evolution chain *)

Lemma str_app_assoc (a b c : string) : (a +:+ b) +:+ c = a +:+ (b +:+ c).
Proof.
  induction a as [| x a IH]; [reflexivity |].
  change (String x ((a +:+ b) +:+ c) = String x (a +:+ (b +:+ c))).
  now rewrite IH.
Qed.

Lemma str_app_nil_r (a : string) : a +:+ "" = a.
Proof.
  induction a as [| x a IH]; [reflexivity |].
  change (String x (a +:+ "") = String x a). now rewrite IH.
Qed.

Lemma evolve_through_life object_str (l : LifeForm) stage rest :
  evolve_through (OLife l) (stage :: rest) =
  evolve_through (snd (evolve l)) rest /\
  iter_evolve (H := the_organisms object_str) 1 (OLife l) =
  Some (snd (evolve l)).
Proof. split; reflexivity. Qed.

(** X1: the classes form one chain without branch or cycle.  From a life
    form of any class, built in any way, the calls of [evolve] reach the
    [MessageBearer] after exactly 4, 3, 2 or 1 steps (Fish, Amphibian,
    Reptile, Dinosaur); every object before it is a life form that is one
    class further; the bearer carries the fragment of the start followed by
    what the remaining classes append, and it cannot evolve. *)
Theorem evolution_chain_is_linear
    (object_str : LifeForm -> string) (l : LifeForm) :
  iter_evolve (H := the_organisms object_str)
    (evolves_left (class_of l)) (OLife l) =
  Some (OBearer (mkMessageBearer
                   (_message_fragment l +:+ message_suffix (class_of l)))) /\
  (forall k,
      (k < evolves_left (class_of l))%nat ->
      exists l',
        iter_evolve (H := the_organisms object_str) k (OLife l)
          = Some (OLife l') /\
        evolves_left (class_of l') = (evolves_left (class_of l) - k)%nat) /\
  (forall k,
      (evolves_left (class_of l) < k)%nat ->
      iter_evolve (H := the_organisms object_str) k (OLife l) = None).
Proof.
  destruct l as [cls c dna m]. cbn [class_of _message_fragment].
  split; [| split].
  - destruct cls; cbn; unfold get_message_fragment; cbn;
      rewrite ?str_app_assoc, ?str_app_nil_r; reflexivity.
  - intros k Hk.
    destruct cls; cbn in Hk;
      repeat (destruct k as [| k]; [eexists; split; reflexivity |]); lia.
  - intros k Hk.
    destruct cls; cbn in Hk;
      repeat (destruct k as [| k]; [lia |]); reflexivity.
Qed.

Lemma evolution_chain_is_linear_witness :
  exists l',
    iter_evolve (H := the_organisms (fun _ => "")) 2
      (OLife (new_Amphibian (Some 7) (Some "J"))) = Some (OLife l') /\
    evolves_left (class_of l') = 1%nat.
Proof.
  destruct (evolution_chain_is_linear (fun _ => "")
              (new_Amphibian (Some 7) (Some "J"))) as (_ & Hbefore & _).
  apply (Hbefore 2%nat). cbn. lia.
Defined.

(** ** The engine on any seed *)

Lemma evolve_through_stages_life (l : LifeForm) :
  evolve_through (OLife l) stages =
  OBearer (mkMessageBearer
             (_message_fragment l +:+ message_suffix (class_of l))).
Proof.
  destruct l as [cls c dna m]. destruct cls; cbn;
    unfold get_message_fragment; cbn;
    rewrite ?str_app_assoc, ?str_app_nil_r; reflexivity.
Qed.

(** X2: whatever organism of the repository it starts from, the engine
    returns a [MessageBearer].  From a life form, the bearer carries its
    fragment followed by what the classes still ahead append.  From a
    bearer, the loop ends in its first pass: the bearer comes back as it
    is, after the one notification of the stage AQUATIC.  Without the debug
    flag nothing is printed. *)
Theorem run_evolution_reaches_bearer
    (object_str : LifeForm -> string) (self : EvolutionEngine) (w : World) :
  observers_ok (heap w) (_observers self) = true ->
  (forall l : LifeForm,
      exists w',
        run_evolution (H := the_organisms object_str)
          (H0 := organism_HasFish) self (Some (OLife l)) w =
        (Ok (OBearer (mkMessageBearer
                        (_message_fragment l +:+
                         message_suffix (class_of l)))), w') /\
        (_debug self = false -> stdout w' = stdout w)) /\
  (forall b : MessageBearer,
      exists out,
        run_evolution (H := the_organisms object_str)
          (H0 := organism_HasFish) self (Some (OBearer b)) w =
        (Ok (OBearer b),
         emit out
           (heap_notify (_observers self)
              "Evolution stage: AQUATIC - Organism: MessageBearer" (heap w))
           w) /\
        (_debug self = false -> out = [])).
Proof.
  intros Hok. split.
  - intros l.
    destruct (run_evolution_ok object_str self (OLife l) w Hok)
      as (out & Hrun & Hquiet).
    rewrite evolve_through_stages_life in Hrun.
    eexists. split; [exact Hrun |].
    intros Hq. cbn. rewrite (Hquiet Hq). apply app_nil_r.
  - intros b.
    destruct (run_evolution_ok object_str self (OBearer b) w Hok)
      as (out & Hrun & Hquiet).
    exists out. split; [exact Hrun | exact Hquiet].
Qed.

Lemma run_evolution_reaches_bearer_witness :
  exists w',
    run_evolution (H := the_organisms (fun _ => ""))
      (H0 := organism_HasFish) logged_engine
      (Some (OLife (new_Reptile (Some 6) (Some "Jello")))) logged_world =
    (Ok (OBearer (mkMessageBearer "Jello World")), w').
Proof.
  destruct (run_evolution_reaches_bearer (fun _ => "") logged_engine
              logged_world eq_refl) as [Hlife _].
  destruct (Hlife (new_Reptile (Some 6) (Some "Jello"))) as (w' & Hrun & _).
  exists w'. exact Hrun.
Defined.

Lemma heap_notify_lookup_other observers entry h x :
  is_logger h x = false ->
  heap_notify observers entry h !! x = h !! x.
Proof.
  intros Hx. pose proof (same_but_logs_heap_notify observers entry h x) as Hs.
  unfold is_logger in Hx.
  destruct (h !! x) as [[]|]; try exact Hs. discriminate.
Qed.

(** X3: a notification reaches every attached observer and nothing else.
    The log of a logger grows by one entry for each time that logger is
    attached to the engine, a logger that is not attached and every other
    object stay as they are, no object is added, and nothing but the heap
    changes. *)
Theorem notify_observers_appends
    {O : Type} `{PyObject O} (self : EvolutionEngine) (o : O)
    (stage : EvolutionStage) (w : World) :
  observers_ok (heap w) (_observers self) = true ->
  exists h',
    notify_observers self o stage w = (Ok tt, with_heap h' w) /\
    length h' = length (heap w) /\
    (forall l,
        is_logger (heap w) l = true ->
        log_of h' l =
        (log_of (heap w) l ++
         replicate (count_occ observer_eq_dec (_observers self) (ObsLogger l))
           ("Evolution stage: " +:+ stage_name stage +:+
            " - Organism: " +:+ type_name o))%list) /\
    (forall x, is_logger (heap w) x = false -> h' !! x = heap w !! x).
Proof.
  intros Hok. eexists. split; [now apply notify_each_ok |].
  split; [apply heap_notify_length |].
  split.
  - intros l Hl. now apply log_of_heap_notify.
  - intros x Hx. now apply heap_notify_lookup_other.
Qed.

Lemma notify_observers_appends_witness :
  exists h',
    notify_observers
      (attach_observer logged_engine (ObsLogger 0%nat))
      "a string" TERRESTRIAL logged_world = (Ok tt, with_heap h' logged_world) /\
    log_of h' 0%nat =
      ["Evolution stage: TERRESTRIAL - Organism: str";
       "Evolution stage: TERRESTRIAL - Organism: str"].
Proof.
  destruct (notify_observers_appends
              (attach_observer logged_engine (ObsLogger 0%nat))
              "a string" TERRESTRIAL logged_world eq_refl)
    as (h' & Hrun & _ & Hlog & _).
  exists h'. split; [exact Hrun |]. now rewrite Hlog.
Defined.

(** ** The strategies *)

(** X4: the engine never consults its strategy.  Two engines with the same
    observers and the same debug flag run alike, for every seed and state;
    in particular [set_strategy] changes nothing of what [run_evolution]
    does. *)
Theorem engine_never_consults_strategy
    {O : Type} `{PyObject O} `{HasFish O}
    (self other : EvolutionEngine) (seed : option O) (w : World) :
  _observers self = _observers other ->
  _debug self = _debug other ->
  run_evolution self seed w = run_evolution other seed w /\
  forall s, run_evolution (set_strategy self s) seed w =
            run_evolution self seed w.
Proof.
  intros Hobs Hdebug.
  destruct self as [obs1 s1 d1], other as [obs2 s2 d2]. cbn in Hobs, Hdebug.
  subst obs2 d2. split; [| intros s]; reflexivity.
Qed.

Lemma engine_never_consults_strategy_witness :
  run_evolution (H := the_organisms (fun _ => "")) (H0 := organism_HasFish)
    (EvolutionEngine_init (Some (AcceleratedEvolutionStrategy 3)) false)
    None initial_world =
  run_evolution (H := the_organisms (fun _ => "")) (H0 := organism_HasFish)
    (EvolutionEngine_init None false) None initial_world.
Proof.
  apply (engine_never_consults_strategy
           (H := the_organisms (fun _ => "")) (H0 := organism_HasFish));
    reflexivity.
Defined.

Lemma accelerated_evolve_stuck {O : Type} `{PyObject O} (n : nat) (o : O) :
  evolve_method o = None -> accelerated_evolve n o = Ok o.
Proof. intros Hnone. destruct n; cbn; [reflexivity | now rewrite Hnone]. Qed.

Lemma accelerated_evolve_add {O : Type} `{PyObject O} (n m : nat) (o : O) :
  accelerated_evolve (n + m) o =
  match accelerated_evolve n o with
  | Ok o' => accelerated_evolve m o'
  | Raise e => Raise e
  end.
Proof.
  revert o. induction n as [| n IH]; intros o; [reflexivity |].
  cbn [Nat.add accelerated_evolve].
  destruct (evolve_method o) as [[next | e] |] eqn:Hevolve.
  - apply IH.
  - reflexivity.
  - symmetry. now apply accelerated_evolve_stuck.
Qed.

Lemma accelerated_evolve_life object_str (n : nat) (l : LifeForm) :
  (evolves_left (class_of l) <= n)%nat ->
  accelerated_evolve (H := the_organisms object_str) n (OLife l) =
  Ok (OBearer (mkMessageBearer
                 (_message_fragment l +:+ message_suffix (class_of l)))).
Proof.
  intros Hn.
  replace n with (evolves_left (class_of l) + (n - evolves_left (class_of l)))%nat
    by lia.
  rewrite accelerated_evolve_add.
  destruct l as [cls c dna m]. cbn [class_of _message_fragment] in *.
  destruct cls; cbn; unfold get_message_fragment; cbn;
    rewrite ?str_app_assoc, ?str_app_nil_r;
    now rewrite accelerated_evolve_stuck.
Qed.

(** X5: the two strategies.  The linear strategy is one call of [evolve]
    and raises an [AttributeError] on an object without that method; the
    accelerated strategy makes up to [acceleration_factor] calls, stops
    without error at an object that cannot evolve, returns its argument for
    a factor of zero or less, and passes on what [evolve] raises.  Its
    factors add up: the factor n + m is the factor n followed by the factor
    m.  On a life form, a factor that covers the classes still ahead yields
    the [MessageBearer]; the default factor 2 takes a new Fish to the
    Reptile.  [EvolutionContext.execute_evolution] is the strategy. *)
Theorem strategies_evolve
    {O : Type} `{PyObject O} (o : O) :
  (forall k, k <= 0 -> strategy_evolve (AcceleratedEvolutionStrategy k) o = Ok o) /\
  (evolve_method o = None ->
   strategy_evolve LinearEvolutionStrategy o =
     Raise (PyExn "AttributeError" "evolve") /\
   forall k, strategy_evolve (AcceleratedEvolutionStrategy k) o = Ok o) /\
  (forall r, evolve_method o = Some r ->
             strategy_evolve LinearEvolutionStrategy o = r /\
             strategy_evolve (AcceleratedEvolutionStrategy 1) o = r /\
             forall e k, r = Raise e -> 0 < k ->
                         strategy_evolve (AcceleratedEvolutionStrategy k) o
                         = Raise e) /\
  (forall n m, 0 <= n -> 0 <= m ->
      strategy_evolve (AcceleratedEvolutionStrategy (n + m)) o =
      match strategy_evolve (AcceleratedEvolutionStrategy n) o with
      | Ok o' => strategy_evolve (AcceleratedEvolutionStrategy m) o'
      | Raise e => Raise e
      end) /\
  (forall ctx, execute_evolution ctx o =
               strategy_evolve (context_strategy ctx) o) /\
  (forall object_str (l : LifeForm) k,
      Z.of_nat (evolves_left (class_of l)) <= k ->
      strategy_evolve (H := the_organisms object_str)
        (AcceleratedEvolutionStrategy k) (OLife l) =
      Ok (OBearer (mkMessageBearer
                     (_message_fragment l +:+ message_suffix (class_of l))))) /\
  (forall object_str,
      strategy_evolve (H := the_organisms object_str)
        (AcceleratedEvolutionStrategy 2) (OLife new_Fish) =
      Ok (OLife (new_Reptile (Some 6) (Some "Hello")))).
Proof.
  split; [| split; [| split; [| split; [| split; [| split]]]]].
  - intros k Hk. cbn. now replace (Z.to_nat k) with 0%nat by lia.
  - intros Hnone. split.
    + unfold strategy_evolve, call_evolve. now rewrite Hnone.
    + intros k. cbn. now apply accelerated_evolve_stuck.
  - intros r Hsome. split; [| split].
    + unfold strategy_evolve, call_evolve. now rewrite Hsome.
    + unfold strategy_evolve. change (Z.to_nat 1) with 1%nat.
      cbn [accelerated_evolve]. rewrite Hsome. now destruct r.
    + intros e k -> Hk. unfold strategy_evolve.
      destruct (Z.to_nat k) as [| n] eqn:Hn; [lia |].
      cbn [accelerated_evolve]. now rewrite Hsome.
  - intros n m Hn Hm. cbn.
    rewrite Z2Nat.inj_add by assumption. apply accelerated_evolve_add.
  - reflexivity.
  - intros object_str l k Hk. cbn. apply accelerated_evolve_life. lia.
  - reflexivity.
Qed.

Lemma strategies_evolve_witness :
  strategy_evolve (H := the_organisms (fun _ => ""))
    (AcceleratedEvolutionStrategy 7) (OLife (new_Dinosaur None (Some "Hi "))) =
  Ok (OBearer (mkMessageBearer "Hi World")) /\
  strategy_evolve (H := the_organisms (fun _ => "")) LinearEvolutionStrategy
    (OBearer (mkMessageBearer "Hi World")) =
  Raise (PyExn "AttributeError" "evolve").
Proof.
  split.
  - destruct (strategies_evolve (H := the_organisms (fun _ => ""))
                (OLife (new_Dinosaur None (Some "Hi "))))
      as (_ & _ & _ & _ & _ & Hlife & _).
    rewrite (Hlife (fun _ => "") (new_Dinosaur None (Some "Hi ")) 7);
      [reflexivity | cbn; lia].
  - destruct (strategies_evolve (H := the_organisms (fun _ => ""))
                (OBearer (mkMessageBearer "Hi World")))
      as (_ & Hnone & _).
    now apply Hnone.
Defined.

(** ** Pipelines and composition *)

Lemma reduce_stages_app {A : Type} (p q : list (A -> result A)) (x : A) :
  reduce_stages (p ++ q)%list x =
  match reduce_stages p x with
  | Ok y => reduce_stages q y
  | Raise e => Raise e
  end.
Proof.
  revert x. induction p as [| f p IH]; intros x; cbn; [reflexivity |].
  destruct (f x); [apply IH | reflexivity].
Qed.

(** X6: a pipeline applies its stages in the order in which they were
    added, and composition applies its functions from right to left.  The
    empty pipeline and the empty composition return their argument; a
    stage added last runs last on what the stages before it return; running
    two pipelines one after the other is running their concatenation; an
    exception of a stage ends the run, the stages after it are not applied;
    a composition is the pipeline of its functions in reverse order. *)
Theorem pipeline_and_compose_order {A : Type}
    (p q : list (A -> result A)) (f : A -> result A) (x : A) :
  EvolutionPipeline_execute EvolutionPipeline_init x = Ok x /\
  EvolutionPipeline_execute (add_stage p f) x =
    match EvolutionPipeline_execute p x with
    | Ok y => f y
    | Raise e => Raise e
    end /\
  EvolutionPipeline_execute (p ++ q)%list x =
    match EvolutionPipeline_execute p x with
    | Ok y => EvolutionPipeline_execute q y
    | Raise e => Raise e
    end /\
  (forall e, EvolutionPipeline_execute p x = Raise e ->
             EvolutionPipeline_execute (p ++ q)%list x = Raise e) /\
  py_compose [] x = Ok x /\
  py_compose (f :: p) x =
    match py_compose p x with
    | Ok y => f y
    | Raise e => Raise e
    end /\
  py_compose (p ++ q)%list x =
    match py_compose q x with
    | Ok y => py_compose p y
    | Raise e => Raise e
    end /\
  py_compose p x = EvolutionPipeline_execute (rev p) x /\
  EvolutionPipeline_execute p x = py_compose (rev p) x.
Proof.
  unfold EvolutionPipeline_execute, EvolutionPipeline_init, add_stage,
    py_compose.
  repeat match goal with |- _ /\ _ => split end.
  - reflexivity.
  - rewrite reduce_stages_app. destruct (reduce_stages p x); [| reflexivity].
    cbn. now destruct (f a).
  - apply reduce_stages_app.
  - intros e He. now rewrite reduce_stages_app, He.
  - reflexivity.
  - cbn [rev]. rewrite reduce_stages_app.
    destruct (reduce_stages (rev p) x); [| reflexivity].
    cbn. now destruct (f a).
  - rewrite rev_app_distr. apply reduce_stages_app.
  - reflexivity.
  - now rewrite rev_involutive.
Qed.

Lemma reduce_evolve_stages {O : Type} `{PyObject O} (n : nat) (o : O) :
  reduce_stages (replicate n evolve_stage) o = accelerated_evolve n o.
Proof.
  revert o. induction n as [| n IH]; intros o; [reflexivity |].
  cbn [replicate reduce_stages accelerated_evolve]. unfold evolve_stage at 1.
  destruct (evolve_method o) as [[next | e] |] eqn:Hevolve;
    [apply IH | reflexivity |].
  rewrite IH. now apply accelerated_evolve_stuck.
Qed.

Lemma build_pipeline_stages {O : Type} `{PyObject O} (k : nat) :
  Nat.iter k (build_pipeline (O := O)) EvolutionPipeline_init =
  replicate (4 * k) evolve_stage.
Proof.
  induction k as [| k IH]; [reflexivity |].
  rewrite Nat.iter_succ, IH. unfold build_pipeline, add_stage.
  rewrite <- !app_assoc. cbn [app].
  replace (4 * S k)%nat with (4 * k + 4)%nat by lia.
  now rewrite replicate_add.
Qed.

(** X7: the pipelines of evolve stages.  A pipeline of n such stages is
    the accelerated strategy of factor n.  Every call of [build_pipeline]
    adds four more stages to the pipeline of the engine, so after k calls
    it holds 4k stages; from the first call on, executing it on a life form
    yields the [MessageBearer] of its chain, the stages in excess leave the
    bearer as it is.  The pipeline of [create_evolution_pipeline] first
    replaces whatever is not a Fish by a new Fish: it yields "Hello World"
    for every such input, and for a Fish the bearer of its own fragment. *)
Theorem evolve_pipelines (object_str : LifeForm -> string) :
  (forall (O : Type) (H : PyObject O) (n : nat) (o : O),
      EvolutionPipeline_execute (replicate n evolve_stage) o =
      strategy_evolve (AcceleratedEvolutionStrategy (Z.of_nat n)) o) /\
  (forall k : nat,
      length (Nat.iter k (build_pipeline (H := the_organisms object_str))
                EvolutionPipeline_init) = (4 * k)%nat) /\
  (forall (k : nat) (l : LifeForm),
      (1 <= k)%nat ->
      EvolutionPipeline_execute
        (Nat.iter k (build_pipeline (H := the_organisms object_str))
           EvolutionPipeline_init) (OLife l) =
      Ok (OBearer (mkMessageBearer
                     (_message_fragment l +:+ message_suffix (class_of l))))) /\
  (forall (k : nat) (b : MessageBearer),
      EvolutionPipeline_execute
        (Nat.iter k (build_pipeline (H := the_organisms object_str))
           EvolutionPipeline_init) (OBearer b) = Ok (OBearer b)) /\
  (forall o : organism,
      EvolutionPipeline_execute (create_evolution_pipeline object_str) o =
      Ok (OBearer (mkMessageBearer
                     (match o with
                      | OLife l =>
                          match class_of l with
                          | Fish => _message_fragment l +:+ "ello World"
                          | _ => "Hello World"
                          end
                      | OBearer _ => "Hello World"
                      end)))).
Proof.
  split; [| split; [| split; [| split]]].
  - intros O H n o. unfold EvolutionPipeline_execute, strategy_evolve.
    rewrite Nat2Z.id. apply reduce_evolve_stages.
  - intros k. rewrite build_pipeline_stages. apply length_replicate.
  - intros k l Hk. unfold EvolutionPipeline_execute.
    rewrite build_pipeline_stages, reduce_evolve_stages.
    apply accelerated_evolve_life.
    destruct (class_of l); cbn; lia.
  - intros k b. unfold EvolutionPipeline_execute.
    rewrite build_pipeline_stages, reduce_evolve_stages.
    now apply accelerated_evolve_stuck.
  - intros o. unfold EvolutionPipeline_execute.
    change (create_evolution_pipeline object_str) with
      (init_stage ::
       replicate 4 (evolve_stage (H := the_organisms object_str))).
    cbn [reduce_stages].
    destruct o as [l | b]; cbn [init_stage].
    + destruct (class_of l) eqn:Hcls; rewrite reduce_evolve_stages.
      * rewrite accelerated_evolve_life by (rewrite Hcls; cbn; lia).
        now rewrite Hcls.
      * reflexivity.
      * reflexivity.
      * reflexivity.
    + reflexivity.
Qed.

Lemma evolve_pipelines_witness :
  EvolutionPipeline_execute
    (build_pipeline (H := the_organisms (fun _ => ""))
       (build_pipeline (H := the_organisms (fun _ => ""))
          EvolutionPipeline_init))
    (OLife (new_Amphibian None (Some "Tr"))) =
  Ok (OBearer (mkMessageBearer "Trello World")).
Proof.
  destruct (evolve_pipelines (fun _ => "")) as (_ & _ & Hbuilt & _).
  apply (Hbuilt 2%nat (new_Amphibian None (Some "Tr"))). lia.
Defined.

(** ** Currying *)




(** ** The factories and the builder *)

Lemma lookup_initial_registry (key : string) :
  initial_registry !! key =
  if String.eqb key "fish" then Some Fish
  else if String.eqb key "amphibian" then Some Amphibian
  else if String.eqb key "reptile" then Some Reptile
  else if String.eqb key "dinosaur" then Some Dinosaur
  else None.
Proof.
  unfold initial_registry.
  destruct (String.eqb_spec key "fish") as [-> | Hfish]; [reflexivity |].
  rewrite lookup_insert_ne by congruence.
  destruct (String.eqb_spec key "amphibian") as [-> | Hamphibian];
    [reflexivity |].
  rewrite lookup_insert_ne by congruence.
  destruct (String.eqb_spec key "reptile") as [-> | Hreptile]; [reflexivity |].
  rewrite lookup_insert_ne by congruence.
  destruct (String.eqb_spec key "dinosaur") as [-> | Hdinosaur];
    [reflexivity |].
  rewrite lookup_insert_ne by congruence.
  apply lookup_empty.
Qed.

Lemma call_life_form_class_no_kwargs cls :
  call_life_form_class cls no_kwargs =
  Ok (match cls with
      | Fish => new_Fish
      | Amphibian => new_Amphibian None None
      | Reptile => new_Reptile None None
      | Dinosaur => new_Dinosaur None None
      end).
Proof. destruct cls; reflexivity. Qed.

(** X9: the builder.  Its setters overwrite one attribute each and leave
    the others.  [build] looks the lower-cased type up in a new factory:
    for the type fish it returns the seed Fish, whatever complexity and
    message were set; for amphibian, reptile and dinosaur it passes both on,
    so the life form has the complexity that was set, a DNA that agrees
    with it, and the message followed by the part its class appends; for
    any other type it raises the [ValueError] that names the type as it was
    given.  The builder approach of main.py returns "Hello World". *)
Theorem builder_builds (lower : string -> string) (b : LifeFormBuilder) :
  (forall c c' m t,
      with_complexity (with_complexity b c) c' = with_complexity b c' /\
      with_message (with_complexity b c) m =
        with_complexity (with_message b m) c /\
      of_type (with_message (with_complexity b c) m) t =
        {| _complexity := c; _message := m; _type := t |}) /\
  build lower b =
    match initial_registry !! lower (_type b) with
    | Some cls => Ok (new_life_form cls (_complexity b) (_message b))
    | None => Raise (ValueError ("Unknown species type: " +:+ _type b))
    end /\
  (forall l, build lower b = Ok l ->
             dna_invariant l /\
             (class_of l <> Fish ->
              complexity l = _complexity b /\
              exists piece, _message_fragment l = _message b +:+ piece)) /\
  build str_lower LifeFormBuilder_init = Ok new_Fish /\
  builder_approach = Ok "Hello World".
Proof.
  assert (Hbuild :
    build lower b =
    match initial_registry !! lower (_type b) with
    | Some cls => Ok (new_life_form cls (_complexity b) (_message b))
    | None => Raise (ValueError ("Unknown species type: " +:+ _type b))
    end).
  { unfold build, create_life_form.
    rewrite lookup_initial_registry.
    destruct (String.eqb (lower (_type b)) "fish") eqn:Hfish;
      [reflexivity |].
    destruct (String.eqb (lower (_type b)) "amphibian"); [reflexivity |].
    destruct (String.eqb (lower (_type b)) "reptile"); [reflexivity |].
    destruct (String.eqb (lower (_type b)) "dinosaur"); reflexivity. }
  split; [intros; repeat split |].
  split; [exact Hbuild |].
  split; [| split; reflexivity].
  intros l Hl. rewrite Hbuild in Hl.
  destruct (initial_registry !! lower (_type b)) as [cls |]; [| discriminate].
  inversion Hl; subst. destruct cls; cbn.
  - split; [reflexivity | congruence].
  - split; [reflexivity |]. intros _. split; [reflexivity | eexists; reflexivity].
  - split; [reflexivity |]. intros _. split; [reflexivity | eexists; reflexivity].
  - split; [reflexivity |]. intros _. split; [reflexivity | eexists; reflexivity].
Qed.

Lemma builder_builds_witness :
  exists l,
    build str_lower
      (of_type (with_message (with_complexity LifeFormBuilder_init 9) "Sh")
         "Amphibian") = Ok l /\
    complexity l = 9 /\ _message_fragment l = "Shello".
Proof.
  destruct (builder_builds str_lower
              (of_type (with_message (with_complexity LifeFormBuilder_init 9)
                          "Sh") "Amphibian")) as (_ & Hbuild & _).
  eexists. split; [rewrite Hbuild; reflexivity |]. split; reflexivity.
Defined.

(** X10: the registry of the life-form factory.  A class registered under
    a name is the class that a request for that name builds, in any
    spelling with the same lower-cased form; it receives the keyword
    arguments of the request, except under the key fish, where it is called
    without any.  A later registration under the same name replaces the
    earlier one, and requests for other names are not affected.  The Fish
    class, registered under another key and requested with a keyword
    argument, raises a [TypeError]. *)
Theorem registered_class_is_built
    (lower : string -> string) (registry : gmap string species)
    (name name' : string) (cls : species) (kw : life_form_kwargs) :
  lower name' = lower name ->
  create_life_form lower (register lower registry name cls) name' kw =
    call_life_form_class cls
      (if String.eqb (lower name) "fish" then no_kwargs else kw) /\
  (forall cls0,
      register lower (register lower registry name cls0) name' cls =
      register lower registry name cls) /\
  (forall other,
      lower other <> lower name ->
      create_life_form lower (register lower registry name cls) other kw =
      create_life_form lower registry other kw) /\
  (cls = Fish -> lower name <> "fish" -> kwargs_empty kw = false ->
   exists msg,
     create_life_form lower (register lower registry name cls) name' kw =
     Raise (TypeError msg)).
Proof.
  intros Hname.
  assert (Hcreate :
    create_life_form lower (register lower registry name cls) name' kw =
    call_life_form_class cls
      (if String.eqb (lower name) "fish" then no_kwargs else kw)).
  { unfold create_life_form, register. rewrite Hname, lookup_insert_eq.
    now destruct (String.eqb (lower name) "fish"). }
  split; [exact Hcreate |]. split; [| split].
  - intros cls0. unfold register. rewrite Hname. apply insert_insert_eq.
  - intros other Hother. unfold create_life_form, register.
    now rewrite lookup_insert_ne by congruence.
  - intros -> Hkey Hkw. rewrite Hcreate.
    apply String.eqb_neq in Hkey. rewrite Hkey. cbn. rewrite Hkw.
    eexists. reflexivity.
Qed.

Lemma registered_class_is_built_witness :
  create_life_form str_lower (register str_lower initial_registry "Raptor" Dinosaur)
    "RAPTOR" {| inherited_complexity := Some 30; inherited_message := Some "Old " |}
  = Ok (new_Dinosaur (Some 30) (Some "Old ")).
Proof.
  destruct (registered_class_is_built str_lower initial_registry
              "Raptor" "RAPTOR" Dinosaur
              {| inherited_complexity := Some 30;
                 inherited_message := Some "Old " |} eq_refl) as [Hcreate _].
  rewrite Hcreate. reflexivity.
Defined.




(** X12: the strategy factory.  A class registered under a name is the one
    that a request for that name instantiates.  The accelerated class takes
    the requested factor, 2 when none is given; under the key linear no
    argument is passed on, so the linear class never fails there; the
    linear class registered under another key raises a [TypeError] when a
    factor is requested; requests for other names are not affected by a
    registration. *)
Theorem registered_strategy_is_built
    (lower : string -> string) (registry : gmap string strategy_class)
    (name name' : string) (cls : strategy_class) (factor : option Z) :
  lower name' = lower name ->
  create_strategy lower (register_strategy lower registry name cls) name' factor =
    match cls, String.eqb (lower name) "linear" with
    | LinearEvolutionStrategy_cls, true => Ok LinearEvolutionStrategy
    | AcceleratedEvolutionStrategy_cls, true => Ok (AcceleratedEvolutionStrategy 2)
    | AcceleratedEvolutionStrategy_cls, false =>
        Ok (AcceleratedEvolutionStrategy (default 2 factor))
    | LinearEvolutionStrategy_cls, false =>
        match factor with
        | None => Ok LinearEvolutionStrategy
        | Some _ => Raise (TypeError "LinearEvolutionStrategy() takes no arguments")
        end
    end /\
  (forall other,
      lower other <> lower name ->
      create_strategy lower (register_strategy lower registry name cls) other
        factor =
      create_strategy lower registry other factor) /\
  (lower "linear" = "linear" -> lower "accelerated" = "accelerated" ->
   create_strategy lower initial_strategies "linear" factor =
     Ok LinearEvolutionStrategy /\
   create_strategy lower initial_strategies "accelerated" factor =
     Ok (AcceleratedEvolutionStrategy (default 2 factor))).
Proof.
  intros Hname. split; [| split].
  - unfold create_strategy, register_strategy.
    rewrite Hname, lookup_insert_eq.
    destruct cls, (String.eqb (lower name) "linear"); reflexivity.
  - intros other Hother. unfold create_strategy, register_strategy.
    now rewrite lookup_insert_ne by congruence.
  - intros Hlinear Haccelerated. unfold create_strategy.
    rewrite Hlinear, Haccelerated. split; reflexivity.
Qed.

Lemma registered_strategy_is_built_witness :
  create_strategy str_lower
    (register_strategy str_lower initial_strategies "Turbo"
       AcceleratedEvolutionStrategy_cls) "turbo" (Some 4)
  = Ok (AcceleratedEvolutionStrategy 4).
Proof.
  destruct (registered_strategy_is_built str_lower initial_strategies
              "Turbo" "turbo" AcceleratedEvolutionStrategy_cls (Some 4) eq_refl)
    as [Hcreate _].
  rewrite Hcreate. reflexivity.
Defined.

(** ** The decorator [singleton] *)

Lemma get_instances_cached {Args I : Type} (cls : Args -> result I)
    (calls : list Args) (instance : I) :
  get_instances cls calls (Some instance) =
  (replicate (length calls) (Ok instance), Some instance).
Proof.
  induction calls as [| args rest IH]; [reflexivity |].
  cbn [get_instances get_instance length replicate]. now rewrite IH.
Qed.

Lemma get_instances_failing {Args I : Type} (cls : Args -> result I)
    (calls : list Args) :
  Forall (fun args => is_ok (cls args) = false) calls ->
  get_instances cls calls None = (cls <$> calls, None).
Proof.
  induction 1 as [| args rest Hfail _ IH]; [reflexivity |].
  cbn [get_instances get_instance fmap list_fmap].
  destruct (cls args) as [i | e] eqn:Hcls; [discriminate |].
  now rewrite IH.
Qed.

(** X13: the decorator [singleton] keeps the first instance that could be
    built.  Calls whose construction raises pass the exception on and leave
    nothing behind, so the next call constructs again; once a construction
    has returned, every later call returns that instance, whatever its
    arguments, and the class is not called any more. *)
Theorem singleton_decorator_keeps_first {Args I : Type}
    (cls : Args -> result I) (failing : list Args) (args : Args)
    (later : list Args) (instance : I) :
  Forall (fun a => is_ok (cls a) = false) failing ->
  cls args = Ok instance ->
  get_instances cls (failing ++ args :: later)%list None =
  ((cls <$> failing) ++ replicate (S (length later)) (Ok instance),
   Some instance)%list /\
  (forall cls' : Args -> result I,
      get_instances cls' later (Some instance) =
      (replicate (length later) (Ok instance), Some instance)).
Proof.
  intros Hfailing Hargs. split; [| intros cls'; apply get_instances_cached].
  induction Hfailing as [| a rest Hfail _ IH].
  - cbn [app get_instances get_instance fmap list_fmap]. rewrite Hargs.
    now rewrite get_instances_cached.
  - cbn [app get_instances get_instance fmap list_fmap].
    destruct (cls a) as [i | e] eqn:Hcls; [discriminate |].
    now rewrite IH.
Qed.

Lemma singleton_decorator_keeps_first_witness :
  get_instances
    (fun n : Z => if n <? 0 then Raise (ValueError "negative") else Ok n)
    [-1; 5; 7; -3] None =
  ([Raise (ValueError "negative"); Ok 5; Ok 5; Ok 5], Some 5).
Proof.
  refine (proj1 (singleton_decorator_keeps_first
                   (fun n : Z => if n <? 0 then Raise (ValueError "negative")
                                 else Ok n)
                   [-1] 5 [7; -3] 5 _ eq_refl)).
  repeat constructor.
Defined.

(** ** The log of the logger *)

Lemma get_logs_logger l w :
  is_logger (heap w) l = true ->
  get_logs l w = (Ok (log_of (heap w) l), w).
Proof.
  unfold is_logger, log_of, get_logs, deref, mbind, M_bind, gets.
  destruct (heap w !! l) as [[| entries |] |]; try discriminate.
  reflexivity.
Qed.

(** X14: the log of an [EvolutionLogger] is what its steps have appended
    since it was last cleared.  [get_logs] returns the entries and changes
    nothing; a step of the logger appends its one entry; [clear_logs]
    empties the log and touches no other object, and the steps after it
    are again recorded from the first. *)
Theorem logger_log_round_trip
    {O : Type} `{PyObject O} (l : loc) (o : O) (stage : EvolutionStage)
    (w : World) :
  is_logger (heap w) l = true ->
  get_logs l w = (Ok (log_of (heap w) l), w) /\
  (exists w1,
      on_evolution_step (ObsLogger l) o stage w = (Ok tt, w1) /\
      get_logs l w1 =
        (Ok (log_of (heap w) l ++
             ["Evolution stage: " +:+ stage_name stage +:+
              " - Organism: " +:+ type_name o])%list, w1)) /\
  (exists w2,
      clear_logs l w = (Ok tt, w2) /\
      get_logs l w2 = (Ok [], w2) /\
      length (heap w2) = length (heap w) /\
      (forall x, x <> l -> heap w2 !! x = heap w !! x) /\
      exists w3,
        on_evolution_step (ObsLogger l) o stage w2 = (Ok tt, w3) /\
        get_logs l w3 =
          (Ok ["Evolution stage: " +:+ stage_name stage +:+
               " - Organism: " +:+ type_name o], w3)).
Proof.
  intros Hl. split; [now apply get_logs_logger |].
  assert (Hstep : forall w0,
    is_logger (heap w0) l = true ->
    exists w1,
      on_evolution_step (ObsLogger l) o stage w0 = (Ok tt, w1) /\
      get_logs l w1 =
        (Ok (log_of (heap w0) l ++ [log_entry o stage])%list, w1)).
  { intros w0 Hl0. eexists. split; [now apply on_evolution_step_ok |].
    rewrite get_logs_logger
      by (cbn [heap with_heap]; now rewrite is_logger_heap_notify).
    cbn [heap with_heap]. f_equal. f_equal.
    rewrite log_of_heap_notify by assumption. cbn [count_occ].
    destruct (observer_eq_dec (ObsLogger l) (ObsLogger l)); [| congruence].
    reflexivity. }
  split; [now apply Hstep |].
  assert (Hlt : (l < length (heap w))%nat).
  { unfold is_logger in Hl. destruct (heap w !! l) eqn:Hlook; [| discriminate].
    eapply lookup_lt_Some; eassumption. }
  assert (Hcleared :
    clear_logs l w = (Ok tt, with_heap (<[l := ObjLogger []]> (heap w)) w)).
  { unfold is_logger in Hl.
    unfold clear_logs, deref, store, mbind, M_bind, gets, set_heap.
    destruct (heap w !! l) as [[| entries |] |]; try discriminate.
    reflexivity. }
  assert (Hl2 : is_logger (<[l := ObjLogger []]> (heap w)) l = true).
  { unfold is_logger. now rewrite list_lookup_insert_eq by assumption. }
  eexists. split; [exact Hcleared |].
  split; [| split; [| split]].
  - rewrite get_logs_logger by exact Hl2. cbn [heap with_heap].
    unfold log_of. now rewrite list_lookup_insert_eq by assumption.
  - cbn [heap with_heap]. apply length_insert.
  - intros x Hx. cbn [heap with_heap].
    now rewrite list_lookup_insert_ne by congruence.
  - destruct (Hstep (with_heap (<[l := ObjLogger []]> (heap w)) w) Hl2)
      as (w3 & Hrun & Hlogs).
    exists w3. split; [exact Hrun |]. rewrite Hlogs.
    cbn [heap with_heap]. unfold log_of.
    now rewrite list_lookup_insert_eq by assumption.
Qed.

Lemma logger_log_round_trip_witness :
  exists w2,
    clear_logs 0%nat logged_world = (Ok tt, w2) /\
    get_logs 0%nat w2 = (Ok [], w2).
Proof.
  destruct (logger_log_round_trip 0%nat "x" AQUATIC logged_world eq_refl)
    as (_ & _ & w2 & Hclear & Hlogs & _).
  exists w2. split; assumption.
Defined.

(** ** Messages: rendering, transformations, lazy evaluation *)

Lemma str_lstrip_app (p t : string) (c : ascii) :
  is_space c = false ->
  str_lstrip (p +:+ String c t) = str_lstrip p +:+ String c t.
Proof.
  intros Hc. induction p as [| a p IH].
  - change ("" +:+ String c t) with (String c t).
    cbn [str_lstrip]. now rewrite Hc.
  - change (String a p +:+ String c t) with (String a (p +:+ String c t)).
    cbn [str_lstrip]. destruct (is_space a); [exact IH | reflexivity].
Qed.

Lemma str_app_not_empty (a b : string) : b <> "" -> a +:+ b <> "".
Proof. destruct a; [trivial | discriminate]. Qed.

Lemma str_rstrip_app (a b : string) :
  str_rstrip b <> "" -> str_rstrip (a +:+ b) = a +:+ str_rstrip b.
Proof.
  intros Hb. induction a as [| x a IH]; [reflexivity |].
  change (String x a +:+ b) with (String x (a +:+ b)).
  cbn [str_rstrip]. rewrite IH.
  destruct (String.eqb_spec (a +:+ str_rstrip b) "") as [Hempty | _].
  - now apply str_app_not_empty in Hempty.
  - now rewrite andb_false_r.
Qed.

Lemma str_lstrip_all_space (s : string) : all_space s = true -> str_lstrip s = "".
Proof.
  induction s as [| c s IH]; [reflexivity |]. cbn.
  intros [Hc Hs]%andb_prop. rewrite Hc. now apply IH.
Qed.

Lemma str_rstrip_all_space (s : string) : all_space s = true -> str_rstrip s = "".
Proof.
  induction s as [| c s IH]; [reflexivity |]. cbn.
  intros [Hc Hs]%andb_prop. now rewrite (IH Hs), Hc.
Qed.

Lemma str_rstrip_idempotent (s : string) :
  str_rstrip (str_rstrip s) = str_rstrip s.
Proof.
  induction s as [| c s IH]; [reflexivity |]. cbn [str_rstrip].
  destruct (is_space c && String.eqb (str_rstrip s) "") eqn:Hcut;
    [reflexivity |].
  cbn [str_rstrip]. rewrite IH. now rewrite Hcut.
Qed.

Lemma str_lstrip_head (s : string) :
  match str_lstrip s with
  | EmptyString => True
  | String c _ => is_space c = false
  end.
Proof.
  induction s as [| c s IH]; [exact I |]. cbn [str_lstrip].
  destruct (is_space c) eqn:Hc; [exact IH | exact Hc].
Qed.

Lemma str_strip_idempotent (s : string) : str_strip (str_strip s) = str_strip s.
Proof.
  unfold str_strip. pose proof (str_lstrip_head s) as Hhead.
  destruct (str_lstrip s) as [| c r]; [reflexivity |].
  assert (Hkeep : str_rstrip (String c r) = String c (str_rstrip r)).
  { cbn [str_rstrip]. now rewrite Hhead. }
  rewrite Hkeep. cbn [str_lstrip]. rewrite Hhead.
  rewrite <- Hkeep. apply str_rstrip_idempotent.
Qed.

(** X15: what [render] returns.  For an ASCII prefix and suffix, the
    rendered message is the prefix without its leading white space, then
    "Hello World", then the suffix without its trailing white space: the
    white space inside, next to the core message, stays.  With nothing but
    white space around it the message is "Hello World", which is also what
    the dynamic generation returns; stripping a rendered message again
    changes nothing. *)
Theorem render_strips_outer_space (_prefix _suffix : string) :
  ascii_only _prefix = true ->
  ascii_only _suffix = true ->
  render _prefix _suffix =
    str_lstrip _prefix +:+ "Hello World" +:+ str_rstrip _suffix /\
  (all_space _prefix = true -> all_space _suffix = true ->
   render _prefix _suffix = "Hello World") /\
  str_strip (render _prefix _suffix) = render _prefix _suffix /\
  render "" "" = "Hello World" /\
  (forall (O : Type) (H : PyObject O) (source : O),
      generate source "dynamic" = Ok "Hello World").
Proof.
  intros _ _.
  assert (Hrender : render _prefix _suffix =
    str_lstrip _prefix +:+ "Hello World" +:+ str_rstrip _suffix).
  { unfold render, str_strip.
    change ("Hello World" +:+ _suffix)
      with (String "H" ("ello World" +:+ _suffix)).
    rewrite str_lstrip_app by reflexivity.
    change (String "H" ("ello World" +:+ _suffix))
      with ("Hello Worl" +:+ String "d" _suffix).
    rewrite <- str_app_assoc.
    rewrite str_rstrip_app by discriminate.
    rewrite str_app_assoc. reflexivity. }
  split; [exact Hrender |]. split; [| split; [| split]].
  - intros Hp Hs. rewrite Hrender.
    now rewrite (str_lstrip_all_space _ Hp), (str_rstrip_all_space _ Hs).
  - unfold render. apply str_strip_idempotent.
  - reflexivity.
  - reflexivity.
Qed.

Lemma render_strips_outer_space_witness :
  render "  >> " " <<  " = ">> Hello World <<".
Proof.
  destruct (render_strips_outer_space "  >> " " <<  " eq_refl eq_refl)
    as [Hrender _].
  rewrite Hrender. reflexivity.
Defined.










(** X17: a lazy message evaluates its generator at most once.  A forced
    message that holds a value returns it and stays as it is, whatever its
    generator would return; the first force of a new message returns what
    the generator returns and keeps it, so the second force returns the
    same and changes nothing; when the generator raises, nothing is kept
    and the next force runs the generator again. *)
Theorem lazy_message_is_forced_once (lazy : LazyMessage) :
  (forall v, _cached_value lazy = Some v -> force lazy = (Ok v, lazy)) /\
  (forall v,
      fst (force lazy) = Ok v ->
      _cached_value (snd (force lazy)) = Some v /\
      force (snd (force lazy)) = (Ok v, snd (force lazy)) /\
      forall generator,
        fst (force {| _generator := generator;
                      _cached_value := _cached_value (snd (force lazy)) |})
        = Ok v) /\
  (forall e, fst (force lazy) = Raise e ->
             snd (force lazy) = lazy /\
             _cached_value lazy = None /\
             _generator lazy tt = Raise e) /\
  (forall generator,
      force (LazyMessage_init generator) =
      match generator tt with
      | Ok v => (Ok v, {| _generator := generator; _cached_value := Some v |})
      | Raise e => (Raise e, LazyMessage_init generator)
      end).
Proof.
  unfold force, LazyMessage_str.
  split; [| split; [| split]].
  - intros v Hv. now rewrite Hv.
  - intros v. destruct (_cached_value lazy) as [c |] eqn:Hc.
    + cbn. intros [= <-]. rewrite Hc. repeat split; reflexivity.
    + destruct (_generator lazy tt) as [g | e]; cbn; [| discriminate].
      intros [= <-]. repeat split; reflexivity.
  - intros e. destruct (_cached_value lazy) as [c |]; [discriminate |].
    destruct (_generator lazy tt) as [g | e']; cbn; [discriminate |].
    intros [= <-]. repeat split; reflexivity.
  - intros generator. cbn. now destruct (generator tt).
Qed.

Lemma lazy_message_is_forced_once_witness :
  force (snd (force (LazyMessage_init (fun _ => Ok "Hello World")))) =
  (Ok "Hello World",
   {| _generator := fun _ => Ok "Hello World";
      _cached_value := Some "Hello World" |}).
Proof.
  destruct (lazy_message_is_forced_once
              (LazyMessage_init (fun _ => Ok "Hello World")))
    as (_ & Hforced & _).
  destruct (Hforced "Hello World" eq_refl) as (_ & Hagain & _).
  exact Hagain.
Defined.

(** ** The decorators *)

Section RetryFacts.
Context {State Ret : Type}.
Variable max_attempts : Z.
Variable delay : Q.
Variable func : Process State -> result Ret * Process State.

Lemma retry_loop_retried k p pk :
  Qle_bool 0 delay = true ->
  retried delay func k p pk ->
  forall todo attempt last,
    attempt + Z.of_nat todo = max_attempts ->
    (k < todo)%nat ->
    exists last',
      retry_loop max_attempts delay func todo attempt last p =
      retry_loop max_attempts delay func (todo - k) (attempt + Z.of_nat k)
        last' pk.
Proof.
  intros Hdelay Hretried.
  induction Hretried as [p | k p e p1 p2 Hcall Hexc _ IH];
    intros todo attempt last Hsum Hlt.
  - exists last. now rewrite Nat.sub_0_r, Z.add_0_r.
  - destruct todo as [| todo]; [lia |].
    cbn [retry_loop]. rewrite Hcall, Hexc.
    destruct (Z.ltb_spec attempt (max_attempts - 1)) as [_ | Hge]; [| lia].
    unfold time_sleep. rewrite Hdelay.
    destruct (IH todo (attempt + 1) (Some e)) as (last' & ->); [lia | lia |].
    exists last'. f_equal. lia.
Qed.
End RetryFacts.

(** X18: what the wrapper of [retry] returns, for a delay that is not
    negative.  When [func] raises [k] times an exception deriving from
    [Exception] and then returns, with [k] below [max_attempts], the
    wrapper returns that value, after a pause behind each failure.  When
    the call after these [k] failures is the last one allowed and raises
    too, the wrapper raises that last exception, without a pause behind
    it.  An exception that does not derive from [Exception] is not
    retried.  With [max_attempts] at most 0 the function is not called and
    the wrapper raises a [TypeError], since it raises [None]. *)
Theorem retry_outcomes {State Ret : Type} (max_attempts : Z) (delay : Q)
    (func : Process State -> result Ret * Process State)
    (k : nat) (p pk : Process State) :
  Qle_bool 0 delay = true ->
  retried delay func k p pk ->
  (forall v p', Z.of_nat k < max_attempts -> func pk = (Ok v, p') ->
                retry max_attempts delay func p = (Ok v, p')) /\
  (forall e p', Z.of_nat k + 1 = max_attempts -> func pk = (Raise e, p') ->
                retry max_attempts delay func p = (Raise e, p')) /\
  (forall e p', Z.of_nat k < max_attempts -> func pk = (Raise e, p') ->
                is_Exception e = false ->
                retry max_attempts delay func p = (Raise e, p')) /\
  (max_attempts <= 0 ->
   retry max_attempts delay func p =
   (Raise (TypeError "exceptions must derive from BaseException"), p)).
Proof.
  intros Hdelay Hretried. unfold retry.
  assert (Hstep : Z.of_nat k < max_attempts ->
    exists last' todo,
      retry_loop max_attempts delay func (Z.to_nat max_attempts) 0 None p =
      retry_loop max_attempts delay func (S todo) (Z.of_nat k) last' pk /\
      Z.of_nat k + Z.of_nat (S todo) = max_attempts).
  { intros Hlt.
    destruct (retry_loop_retried max_attempts delay func k p pk Hdelay
                Hretried (Z.to_nat max_attempts) 0 None) as (last' & ->);
      [lia | lia |].
    exists last', (Z.to_nat max_attempts - k - 1)%nat.
    split; [| lia]. f_equal. lia. }
  split; [| split; [| split]].
  - intros v p' Hlt Hcall. destruct (Hstep Hlt) as (last' & todo & -> & _).
    cbn [retry_loop]. now rewrite Hcall.
  - intros e p' Hlast Hcall.
    destruct (Hstep ltac:(lia)) as (last' & todo & -> & Hsum).
    cbn [retry_loop]. rewrite Hcall.
    destruct (is_Exception e); [| reflexivity].
    destruct (Z.ltb_spec (Z.of_nat k) (max_attempts - 1)) as [Hlt | _];
      [lia |].
    assert (todo = 0%nat) as -> by lia. reflexivity.
  - intros e p' Hlt Hcall Hforeign.
    destruct (Hstep Hlt) as (last' & todo & -> & _).
    cbn [retry_loop]. now rewrite Hcall, Hforeign.
  - intros Hnone. now replace (Z.to_nat max_attempts) with 0%nat by lia.
Qed.

Lemma retry_outcomes_witness :
  retry (State := nat) 3 retry_default_delay
    (fun p => if (length (slept p) <? 2)%nat
              then (Raise (ValueError "not yet"), p)
              else (Ok "Hello World", p))
    (mkProcess 0%nat []) =
  (Ok "Hello World",
   mkProcess 0%nat [retry_default_delay; retry_default_delay]).
Proof.
  assert (Hretried :
    retried retry_default_delay
      (fun p : Process nat =>
         if (length (slept p) <? 2)%nat
         then (Raise (ValueError "not yet"), p)
         else (Ok "Hello World", p))
      2 (mkProcess 0%nat [])
      (mkProcess 0%nat [retry_default_delay; retry_default_delay])).
  { eapply retried_S; [reflexivity | reflexivity |].
    eapply retried_S; [reflexivity | reflexivity |].
    apply retried_0. }
  destruct (retry_outcomes 3 retry_default_delay _ 2 _ _ eq_refl Hretried)
    as [Hreturns _].
  apply Hreturns; [lia | reflexivity].
Defined.

Section MemoizeFacts.
Context {Args State Ret : Type}.
Variable key : Args -> string.
Variable func : Args -> State -> result Ret * State.

Lemma memoize_keeps k v args cache s :
  cache !! k = Some v ->
  (memoize key func args cache s).1.2 !! k = Some v.
Proof.
  intros Hk. unfold memoize.
  destruct (cache !! key args) as [c |] eqn:Hhit; [exact Hk |].
  destruct (func args s) as [[r | e] s']; cbn; [| exact Hk].
  rewrite lookup_insert_ne; [exact Hk | congruence].
Qed.

Lemma memoize_calls_keep k v calls cache s :
  cache !! k = Some v ->
  (memoize_calls key func calls cache s).1 !! k = Some v.
Proof.
  revert cache s. induction calls as [| args rest IH]; intros cache s Hk;
    [exact Hk |].
  cbn [memoize_calls].
  pose proof (memoize_keeps k v args cache s Hk) as Hkept.
  destruct (memoize key func args cache s) as [[r cache'] s'].
  now apply IH.
Qed.
End MemoizeFacts.

(** X19: the wrapper of [memoize] keeps the first value.  Once a call has
    returned a value, every later call whose arguments have the same key
    returns that value without calling the function, whatever calls were
    made in between and even when the arguments differ; a value in the
    cache is never replaced.  A call that raises leaves the cache as it
    was. *)
Theorem memoize_keeps_first {Args State Ret : Type} (key : Args -> string)
    (func : Args -> State -> result Ret * State)
    (args : Args) (cache : gmap string Ret) (s : State) (v : Ret) :
  (memoize key func args cache s).1.1 = Ok v ->
  (forall between args',
      key args' = key args ->
      let '(_, cache1, s1) := memoize key func args cache s in
      let '(cache2, s2) := memoize_calls key func between cache1 s1 in
      memoize key func args' cache2 s2 = (Ok v, cache2, s2)) /\
  (forall k v0, cache !! k = Some v0 ->
                (memoize key func args cache s).1.2 !! k = Some v0) /\
  (forall args0 e,
      (memoize key func args0 cache s).1.1 = Raise e ->
      (memoize key func args0 cache s).1.2 = cache).
Proof.
  intros Hfirst. split; [| split].
  - intros between args' Hkey.
    assert (Hcached : (memoize key func args cache s).1.2 !! key args = Some v).
    { revert Hfirst. unfold memoize.
      destruct (cache !! key args) as [c |] eqn:Hhit.
      - cbn. now intros [= <-].
      - destruct (func args s) as [[r | e] s']; cbn; [| discriminate].
        intros [= <-]. apply lookup_insert_eq. }
    destruct (memoize key func args cache s) as [[r cache1] s1].
    cbn in Hcached.
    pose proof (memoize_calls_keep key func _ _ between cache1 s1 Hcached)
      as Hkept.
    destruct (memoize_calls key func between cache1 s1) as [cache2 s2].
    cbn in Hkept. unfold memoize. now rewrite Hkey, Hkept.
  - intros k v0. apply memoize_keeps.
  - intros args0 e. unfold memoize.
    destruct (cache !! key args0) as [c |]; [discriminate |].
    now destruct (func args0 s) as [[r | e'] s'].
Qed.

Lemma memoize_keeps_first_witness :
  (memoize (fun _ : Z => "(1,)") (fun n s => (Ok n, S s)) 2
     (memoize (fun _ : Z => "(1,)") (fun n s => (Ok n, S s)) 1 ∅ 0%nat).1.2
     (memoize (fun _ : Z => "(1,)") (fun n s => (Ok n, S s)) 1 ∅ 0%nat).2).1.1
  = Ok 1.
Proof.
  destruct (memoize_keeps_first (fun _ : Z => "(1,)")
              (fun n s => (Ok n, S s)) 1 ∅ 0%nat 1)
    as [Hagain _]; [vm_compute; reflexivity |].
  specialize (Hagain [] 2 eq_refl).
  destruct (memoize (fun _ : Z => "(1,)") (fun n s => (Ok n, S s)) 1 ∅ 0%nat)
    as [[r cache1] s1].
  cbn in Hagain |- *. now rewrite Hagain.
Defined.

Section ValidateArgsFacts.
Context {Arg : Type}.

Lemma first_invalid_none (args : list Arg) validators :
  first_invalid args validators = None <->
  forall i arg validator,
    args !! i = Some arg -> validators !! i = Some validator ->
    validator arg = true.
Proof.
  revert validators. induction args as [| a args IH]; intros validators.
  - split; [| reflexivity]. intros _ i arg validator Hi. now destruct i.
  - destruct validators as [| f validators].
    + split; [| reflexivity]. intros _ i arg validator _ Hi. now destruct i.
    + cbn [first_invalid]. destruct (f a) eqn:Hfa.
      * rewrite IH. split.
        -- intros Hall [| i] arg validator; cbn.
           ++ now intros [= <-] [= <-].
           ++ apply Hall.
        -- intros Hall i arg validator. apply (Hall (S i)).
      * split; [discriminate |]. intros Hall.
        specialize (Hall 0%nat a f eq_refl eq_refl). congruence.
Qed.

Lemma first_invalid_some (args : list Arg) validators i arg validator :
  args !! i = Some arg ->
  validators !! i = Some validator ->
  validator arg = false ->
  (forall j arg' validator',
      (j < i)%nat -> args !! j = Some arg' ->
      validators !! j = Some validator' -> validator' arg' = true) ->
  first_invalid args validators = Some arg.
Proof.
  revert validators i. induction args as [| a args IH];
    intros validators i Harg Hvalidator Hfails Hbefore.
  - now destruct i.
  - destruct validators as [| f validators]; [now destruct i |].
    cbn [first_invalid]. destruct i as [| i]; cbn in Harg, Hvalidator.
    + injection Harg as ->. injection Hvalidator as ->. now rewrite Hfails.
    + rewrite (Hbefore 0%nat a f) by (reflexivity || lia).
      apply (IH validators i Harg Hvalidator Hfails).
      intros j arg' validator' Hj. apply (Hbefore (S j)). lia.
Qed.
End ValidateArgsFacts.

(** X20: the wrapper of [validate_args] checks the positional arguments
    that have a validator at their position, in order.  When each of them
    passes, the wrapper is the function, on all its arguments: arguments
    beyond the validators, validators beyond the arguments and the keyword
    arguments are not checked.  Otherwise it raises a [ValueError] that
    names the first argument that fails, and the function is not called:
    the state is as before. *)
Theorem validate_args_checks_in_order {Arg Kwargs State Ret : Type}
    (str : Arg -> string)
    (func : list Arg -> Kwargs -> State -> result Ret * State)
    (validators : list (Arg -> bool)) (args : list Arg) (kwargs : Kwargs)
    (s : State) :
  ((forall i arg validator,
       args !! i = Some arg -> validators !! i = Some validator ->
       validator arg = true) ->
   validate_args str func validators args kwargs s = func args kwargs s) /\
  (forall i arg validator,
      args !! i = Some arg -> validators !! i = Some validator ->
      validator arg = false ->
      (forall j arg' validator',
          (j < i)%nat -> args !! j = Some arg' ->
          validators !! j = Some validator' -> validator' arg' = true) ->
      validate_args str func validators args kwargs s =
      (Raise (ValueError ("Validation failed for argument: " +:+ str arg)),
       s)) /\
  (forall more,
      (length validators <= length args)%nat ->
      validate_args str func validators (args ++ more)%list kwargs s =
      match first_invalid args validators with
      | Some arg =>
          (Raise (ValueError ("Validation failed for argument: " +:+ str arg)),
           s)
      | None => func (args ++ more)%list kwargs s
      end) /\
  validate_args str func [] args kwargs s = func args kwargs s.
Proof.
  unfold validate_args. split; [| split; [| split]].
  - intros Hall. apply first_invalid_none in Hall. now rewrite Hall.
  - intros i arg validator Harg Hvalidator Hfails Hbefore.
    now rewrite (first_invalid_some args validators i arg validator).
  - intros more Hlen.
    replace (first_invalid (args ++ more)%list validators)
      with (first_invalid args validators); [reflexivity |].
    clear func kwargs s. revert validators Hlen.
    induction args as [| a args' IH]; intros validators Hlen.
    + destruct validators; [| cbn in Hlen; lia]. now destruct more.
    + destruct validators as [| f validators]; [reflexivity |].
      cbn [first_invalid app]. destruct (f a); [| reflexivity].
      apply IH. cbn in Hlen. lia.
  - now destruct args.
Qed.

Lemma validate_args_checks_in_order_witness :
  validate_args (Kwargs := unit) (State := nat) str_of_int
    (fun args _ s => (Ok (length args), S s)) [Z.leb 0; Z.leb 0] [1; -2; -3]
    tt 0%nat =
  (Raise (ValueError "Validation failed for argument: -2"), 0%nat).
Proof.
  destruct (validate_args_checks_in_order (Kwargs := unit) (State := nat)
              str_of_int (fun args _ s => (Ok (length args), S s))
              [Z.leb 0; Z.leb 0] [1; -2; -3] tt 0%nat) as (_ & Hfails & _).
  apply (Hfails 1%nat (-2) (Z.leb 0)); [reflexivity .. |].
  intros [| j] arg' validator' Hj; [| lia]. now intros [= <-] [= <-].
Defined.


(** ** The entry points *)

Section TraceFacts.
Variable object_str : LifeForm -> string.

Local Abbreviation organisms := (the_organisms object_str).

Lemma stage_body_lines (self : EvolutionEngine) (o : organism) stage w :
  observers_ok (heap w) (_observers self) = true ->
  exists out,
    stage_body (H := organisms) self o stage w =
    (Ok (exit_of o),
     emit out (heap_notify (_observers self)
                 (log_entry (H := organisms) o stage) (heap w)) w) /\
    length out = if _debug self then debug_lines o [stage] else 0%nat.
Proof.
  intros Hok. unfold stage_body, notify_observers.
  unfold mbind at 1, M_bind at 1. rewrite notify_each_ok by assumption.
  set (w1 := with_heap _ w).
  destruct (_debug self) eqn:Hdebug; cbn [when andb].
  - unfold mbind at 1, M_bind at 1.
    destruct (debug_stage_line_ok object_str o stage w1) as [line1 ->].
    destruct o as [l | b]; cbn [evolve_method organism_PyObject the_organisms
                                 exit_of py_ne debug_lines].
    + unfold mbind at 1, M_bind at 1, lift_result at 1.
      unfold mbind at 1, M_bind at 1. cbn [when].
      destruct (debug_evolved_line_ok object_str (snd (evolve l))
                  (with_stdout (stdout w1 ++ [line1]) w1)) as [line2 ->].
      exists [line1; line2]. split; [| reflexivity].
      unfold mret, M_ret. f_equal.
      subst w1. unfold emit, with_stdout, with_heap; cbn.
      now rewrite <- app_assoc.
    + exists [line1]. split; reflexivity.
  - unfold mbind at 1, M_bind at 1, mret at 1, M_ret at 1.
    exists []. split; [| reflexivity].
    subst w1. unfold emit. rewrite with_no_output.
    destruct o as [l | b]; reflexivity.
Qed.

Lemma stage_loop_lines (self : EvolutionEngine) (o : organism) todo w :
  observers_ok (heap w) (_observers self) = true ->
  exists out,
    stage_loop (H := organisms) self o todo w =
    (Ok (evolve_through o todo),
     emit out (heap_through object_str (_observers self) o todo (heap w)) w) /\
    length out = if _debug self then debug_lines o todo else 0%nat.
Proof.
  revert o w. induction todo as [| stage rest IH]; intros o w Hok.
  - exists []. split; [| now destruct (_debug self)]. cbn.
    unfold mret, M_ret, emit. now rewrite with_no_output, with_heap_same.
  - cbn [stage_loop]. unfold mbind at 1, M_bind at 1.
    destruct (stage_body_lines self o stage w Hok) as (out1 & -> & Hlen1).
    destruct o as [l | b]; cbn [exit_of evolve_through heap_through].
    + set (h1 := heap_notify _ _ _).
      destruct (IH (snd (evolve l)) (emit out1 h1 w)) as (out2 & -> & Hlen2).
      { cbn [heap emit with_stdout with_heap]. subst h1.
        now rewrite observers_ok_heap_notify. }
      exists (out1 ++ out2)%list. split.
      * f_equal. unfold emit. cbn [heap with_stdout with_heap].
        apply with_layers.
      * rewrite length_app, Hlen1, Hlen2.
        cbn [debug_lines]. now destruct (_debug self).
    + exists out1. split; [reflexivity | exact Hlen1].
Qed.
End TraceFacts.

Lemma debug_out_length w lines :
  exists out,
    debug_out w lines = emit out (heap w) w /\
    length out = if DEBUG w then length lines else 0%nat.
Proof.
  rewrite debug_out_emit. eexists. split; [reflexivity |].
  now destruct (DEBUG w).
Qed.

Lemma initialize_engine_new self w :
  is_Some (_strategies w !! "linear") ->
  _instances w !! EvolutionLogger = None ->
  exists strategy0 out,
    initialize_engine self w =
    (Ok {| _observers := [ObsLogger (length (heap w)); ObsSilent];
           _strategy := strategy0;
           _debug := DEBUG w |},
     with_instances (<[EvolutionLogger := length (heap w)]> (_instances w))
       (emit out (heap w ++ [ObjLogger []]) w)) /\
    length out = if DEBUG w then 3%nat else 0%nat.
Proof.
  intros Hlinear Hlogger.
  destruct (create_strategy_linear _ Hlinear) as [strategy0 Hstrategy].
  exists strategy0.
  unfold initialize_engine.
  unfold mbind at 1, M_bind at 1. rewrite when_DEBUG_print.
  unfold mbind at 1, M_bind at 1, gets at 1.
  unfold mbind at 1, M_bind at 1, lift_result at 1.
  rewrite debug_out_strategies, Hstrategy.
  unfold mbind at 1, M_bind at 1. rewrite when_DEBUG_print.
  unfold mbind at 1, M_bind at 1, gets at 1.
  unfold mbind at 1, M_bind at 1.
  rewrite debug_out_twice. rewrite !debug_out_DEBUG.
  set (lines := (_ ++ _)%list).
  destruct (SingletonMeta_call_fresh EvolutionLogger (debug_out w lines))
    as (out & -> & Hnew); [now rewrite debug_out_instances |].
  rewrite Hnew by discriminate. cbn [new_object].
  unfold mbind at 1, M_bind at 1. rewrite when_DEBUG_print.
  unfold mret, M_ret.
  rewrite debug_out_heap, debug_out_instances.
  exists (if DEBUG w
          then (lines ++ ["[DEBUG] Observers attached: EvolutionLogger, SilentObserver"])%list
          else []).
  split; [| now destruct (DEBUG w)].
  f_equal. unfold debug_out, emit, with_instances, with_stdout, with_heap.
  cbn. destruct (DEBUG w) eqn:Hd; cbn; rewrite ?Hd, ?app_nil_r;
    try rewrite <- !app_assoc; reflexivity.
Qed.

Section EntryFacts.
Variable object_str : LifeForm -> string.

Local Abbreviation organisms := (the_organisms object_str).

Lemma run_evolution_pipeline_new self factory (seed : organism) w :
  heap w !! self =
    Some (ObjOrchestrator {| _engine := None; _factory := factory |}) ->
  is_Some (_strategies w !! "linear") ->
  _instances w !! EvolutionLogger = None ->
  exists out h',
    run_evolution_pipeline (H := organisms) (H0 := organism_HasFish)
      self seed w =
    (Ok (evolve_through seed stages),
     with_instances (<[EvolutionLogger := length (heap w)]> (_instances w))
       (emit out h' w)) /\
    length out =
      if DEBUG w then (7 + debug_lines seed stages)%nat else 0%nat.
Proof.
  intros Hself Hlinear Hlogger.
  destruct (initialize_engine_new self w Hlinear Hlogger)
    as (strategy0 & out1 & Hinit & Hlen1).
  set (engine := {| _observers := [ObsLogger (length (heap w)); ObsSilent];
                    _strategy := strategy0; _debug := DEBUG w |}) in *.
  set (w1 := with_instances _ _) in Hinit.
  set (orch := {| _engine := None; _factory := factory |}) in *.
  set (orch2 := {| _engine := Some engine; _factory := factory |}).
  assert (Hself1 : heap w1 !! self = Some (ObjOrchestrator orch)).
  { cbn. now apply lookup_app_l_Some. }
  unfold run_evolution_pipeline.
  unfold mbind at 1, M_bind at 1.
  rewrite (get_orchestrator_live self orch w) by assumption.
  cbn [_engine orch].
  unfold mbind at 1, M_bind at 1. unfold mbind at 1, M_bind at 1.
  rewrite Hinit.
  unfold mbind at 1, M_bind at 1.
  rewrite (get_orchestrator_live self orch w1) by exact Hself1.
  unfold store at 1, mbind at 1, M_bind at 1, gets at 1, set_heap at 1.
  cbn [_factory orch]. fold orch2.
  set (w2 := with_heap _ w1).
  assert (Hself2 : heap w2 !! self = Some (ObjOrchestrator orch2)).
  { cbn. apply list_lookup_insert_eq. rewrite length_app.
    apply lookup_lt_Some in Hself. lia. }
  unfold mbind at 1, M_bind at 1. rewrite when_DEBUG_print2.
  unfold mbind at 1, M_bind at 1.
  rewrite (get_orchestrator_live self orch2)
    by now rewrite debug_out_heap.
  cbn [_engine orch2].
  unfold mbind at 1, M_bind at 1. unfold run_evolution. cbn [default].
  set (w3 := debug_out w2 _).
  change (id seed) with seed.
  destruct (stage_loop_lines object_str engine seed stages w3)
    as (out3 & -> & Hlen3).
  { subst w3. rewrite debug_out_heap. cbn.
    unfold is_logger.
    rewrite list_lookup_insert_ne
      by (apply lookup_lt_Some in Hself; lia).
    now rewrite lookup_app_r, Nat.sub_diag by lia. }
  unfold mbind at 1, M_bind at 1. rewrite when_DEBUG_print2.
  unfold mret, M_ret.
  exists (out1 ++
          (if DEBUG w
           then [nl +:+ "[DEBUG] Starting evolution pipeline...";
                 str_repeat "=" 60]
           else []) ++
          out3 ++
          (if DEBUG w
           then [str_repeat "=" 60;
                 "[DEBUG] Evolution complete! Final form: " +:+
                 type_name (PyObject := organisms)
                   (evolve_through seed stages)]
           else []))%list,
         (heap_through object_str (_observers engine) seed stages (heap w3)).
  split.
  - f_equal. subst w3 w2 w1.
    unfold debug_out, emit, with_instances, with_stdout, with_heap.
    destruct w as [d i h s o]. cbn.
    destruct d; cbn; rewrite ?app_nil_r, <- ?app_assoc; reflexivity.
  - rewrite !length_app, Hlen1, Hlen3. cbn [_debug engine].
    destruct (DEBUG w); cbn [length]; lia.
Qed.


Lemma say_hello_new d i h s o l0 factory :
  i !! HelloWorldOrchestrator = Some l0 ->
  i !! EvolutionLogger = None ->
  h !! l0 = Some (ObjOrchestrator {| _engine := None; _factory := factory |}) ->
  factory !! "fish" = Some Fish ->
  is_Some (s !! "linear") ->
  exists out h',
    say_hello object_str
      {| DEBUG := d; _instances := i; heap := h; _strategies := s;
         stdout := o |} =
    (Ok "Hello World",
     {| DEBUG := d; _instances := <[EvolutionLogger := length h]> i;
        heap := h'; _strategies := s; stdout := (o ++ out)%list |}) /\
    length out = if d then 21%nat else 0%nat.
Proof.
  intros Horch Hlogger Hl0 Hfish Hlinear.
  set (w := {| DEBUG := d; _instances := i; heap := h; _strategies := s;
               stdout := o |}).
  unfold say_hello, ComplexityWrapper_init.
  unfold mbind at 1, M_bind at 1. unfold mbind at 1, M_bind at 1.
  rewrite (SingletonMeta_call_registered HelloWorldOrchestrator l0 w Horch).
  unfold mret at 1, M_ret at 1. unfold pipeline_execute.
  cbn [_orchestrator].
  unfold mbind at 1, M_bind at 1.
  rewrite (create_initial_organism_ok l0 _ w Hl0 Hfish).
  destruct (debug_out_length w
              ["[DEBUG] Creating initial organism: Fish";
               "[DEBUG] Fish created with message: 'H'"])
    as (out1 & -> & Hlen1).
  unfold mbind at 1, M_bind at 1.
  destruct (run_evolution_pipeline_new l0 factory (OLife new_Fish)
              (emit out1 (heap w) w) Hl0 Hlinear Hlogger)
    as (out2 & h2 & Hrun & Hlen2).
  unfold the_organisms in Hrun. rewrite Hrun.
  set (w2 := with_instances _ _).
  unfold mbind at 1, M_bind at 1.
  rewrite extract_message_outcome.
  change (generate (evolve_through (OLife new_Fish) stages) "composed")
    with (Ok (A := string) "Hello World").
  destruct (debug_out_length w2
              [nl +:+ "[DEBUG] Extracting message from MessageBearer...";
               "[DEBUG] Raw message: '" +:+ "Hello World" +:+ "'";
               "[DEBUG] Transformed message: '" +:+ "Hello World" +:+ "'"])
    as (out3 & -> & Hlen3).
  exists (out1 ++ out2 ++ out3)%list, h2. split.
  - unfold lift_result, create_lazy_output. cbn [force fst].
    f_equal. subst w2 w. unfold emit, with_instances, with_stdout, with_heap.
    cbn. now rewrite <- !app_assoc.
  - rewrite !length_app, Hlen1, Hlen2, Hlen3. subst w2 w. cbn.
    now destruct d.
Qed.

Lemma say_hello_unregistered l0 factory w :
  _instances w !! HelloWorldOrchestrator = Some l0 ->
  heap w !! l0 =
    Some (ObjOrchestrator {| _engine := None; _factory := factory |}) ->
  factory !! "fish" = Some Fish ->
  _strategies w !! "linear" = None ->
  say_hello object_str w =
  (Raise (ValueError "Unknown strategy type: linear"),
   debug_out w ["[DEBUG] Creating initial organism: Fish";
                "[DEBUG] Fish created with message: 'H'";
                "[DEBUG] Initializing Evolution Engine..."]).
Proof.
  intros Horch Hl0 Hfish Hnone.
  unfold say_hello, ComplexityWrapper_init.
  unfold mbind at 1, M_bind at 1. unfold mbind at 1, M_bind at 1.
  rewrite (SingletonMeta_call_registered HelloWorldOrchestrator l0 w Horch).
  unfold mret at 1, M_ret at 1. unfold pipeline_execute.
  cbn [_orchestrator].
  unfold mbind at 1, M_bind at 1.
  rewrite (create_initial_organism_ok l0 _ w Hl0 Hfish).
  unfold mbind at 1, M_bind at 1. unfold run_evolution_pipeline.
  unfold mbind at 1, M_bind at 1.
  rewrite (get_orchestrator_live l0 _ _)
    by (rewrite debug_out_heap; exact Hl0).
  cbn [_engine].
  unfold mbind at 1, M_bind at 1. unfold mbind at 1, M_bind at 1.
  rewrite initialize_engine_unknown by now rewrite debug_out_strategies.
  now rewrite debug_out_twice.
Qed.

Lemma Application_init_new w :
  _instances w !! HelloWorldOrchestrator = None ->
  Application_init w =
  (Ok {| Application_orchestrator := length (heap w) |},
   with_instances
     (<[HelloWorldOrchestrator := length (heap w)]> (_instances w))
     (emit (if DEBUG w
            then ["[DEBUG] HelloWorldOrchestrator initialized (Singleton)"]
            else [])
        (heap w ++ [ObjOrchestrator {| _engine := None;
                                       _factory := initial_registry |}])
        w)).
Proof.
  intros Hnone. unfold Application_init, SingletonMeta_call.
  unfold mbind at 1, M_bind at 1. unfold mbind at 1, M_bind at 1.
  unfold mbind at 1, M_bind at 1, gets at 1. rewrite Hnone.
  unfold mbind at 1, M_bind at 1. unfold mbind at 1, M_bind at 1.
  cbn [type_call].
  unfold alloc, mbind, M_bind, gets, set_heap, set_instances, mret, M_ret,
    when, print, emit.
  destruct w as [d i h s o]. cbn. destruct d; cbn.
  - rewrite lookup_insert_eq. reflexivity.
  - rewrite lookup_insert_eq. now rewrite app_nil_r.
Qed.
End EntryFacts.

Lemma when_DEBUG_print3 line1 line2 line3 w :
  when_DEBUG (print line1;; print line2;; print line3) w =
  (Ok tt, debug_out w [line1; line2; line3]).
Proof.
  unfold when_DEBUG, debug_out, mbind, M_bind, gets.
  destruct (DEBUG w); [| reflexivity].
  cbn. unfold print, with_stdout; cbn. now rewrite <- !app_assoc.
Qed.

(** X22: [main] prints the message.  In every state in which the strategy
    [linear] is registered, whatever singletons, objects and output there
    are, [main] returns, writes nothing to the standard error, and builds
    its two singletons anew.  Without the debug flag it prints the one line
    "Hello World".  With it, that line comes after 25 diagnostic lines and
    is followed by the three closing lines. *)
Theorem main_prints_hello_world (object_str : LifeForm -> string)
    (debug : bool) (w : World) :
  is_Some (_strategies w !! "linear") ->
  exists w' before,
    main object_str debug w = (Ok tt, w', []) /\
    stdout w' =
      (stdout w ++ before ++
       "Hello World" ::
       (if debug
        then [nl +:+ str_repeat "=" 60; "EVOLUTION COMPLETE";
              str_repeat "=" 60]
        else []))%list /\
    length before = (if debug then 25%nat else 0%nat) /\
    (debug = false -> stdout w' = (stdout w ++ ["Hello World"])%list) /\
    DEBUG w' = debug /\
    _strategies w' = _strategies w /\
    _instances w' !! HelloWorldOrchestrator = Some (length (heap w)) /\
    _instances w' !! EvolutionLogger = Some (S (length (heap w))).
Proof.
  intros Hlinear. destruct w as [d0 i0 h s o]. cbn in Hlinear.
  unfold main.
  unfold mbind at 1, M_bind at 1, set_DEBUG at 1.
  unfold mbind at 1, M_bind at 1, clear_instances at 1, set_instances at 1.
  unfold mbind at 1, M_bind at 1. rewrite when_DEBUG_print3.
  set (w1 := debug_out _ _).
  rewrite (Application_init_new w1)
    by (subst w1; rewrite debug_out_instances; apply lookup_empty).
  set (w2 := with_instances _ _).
  set (orch := {| _engine := None; _factory := initial_registry |}) in *.
  set (opening :=
         if debug
         then [str_repeat "=" 60; "HELLO WORLD EVOLUTION - DEBUG MODE";
               str_repeat "=" 60;
               "[DEBUG] HelloWorldOrchestrator initialized (Singleton)"]
         else []).
  assert (Hw2 : w2 =
    {| DEBUG := debug;
       _instances := <[HelloWorldOrchestrator := length h]> ∅;
       heap := (h ++ [ObjOrchestrator orch])%list;
       _strategies := s;
       stdout := (o ++ opening)%list |}).
  { subst w2 w1 opening. unfold debug_out, emit, with_instances, with_DEBUG,
      with_stdout, with_heap.
    destruct debug; cbn; rewrite ?app_nil_r, <- ?app_assoc; reflexivity. }
  rewrite Hw2. clear Hw2.
  destruct (say_hello_new object_str debug
              (<[HelloWorldOrchestrator := length h]> ∅)
              (h ++ [ObjOrchestrator orch])%list s (o ++ opening)%list
              (length h) initial_registry)
    as (out & h' & Hsay & Hlen);
    [apply lookup_insert_eq
    | now rewrite lookup_insert_ne
    | now rewrite lookup_app_r, Nat.sub_diag by lia
    | reflexivity
    | exact Hlinear |].
  unfold Application_run, execute, timeit.
  unfold mbind at 1, M_bind at 1. rewrite Hsay.
  unfold print at 1. cbn [stdout with_stdout].
  rewrite when_DEBUG_print3.
  eexists _, (opening ++ out)%list.
  split; [reflexivity |].
  unfold debug_out, with_stdout. cbn [DEBUG].
  split; [| split; [| split; [| split; [| split; [| split]]]]].
  - destruct debug; cbn [stdout]; rewrite <- ?app_assoc; cbn [app];
      rewrite ?app_nil_r; reflexivity.
  - rewrite length_app, Hlen. subst opening. now destruct debug.
  - intros ->. cbn [stdout].
    destruct out; [| discriminate]. subst opening.
    now rewrite !app_nil_r.
  - now destruct debug.
  - now destruct debug.
  - destruct debug; cbn [_instances]; rewrite length_app;
      (rewrite lookup_insert_ne by discriminate); apply lookup_insert_eq.
  - destruct debug; cbn [_instances]; rewrite length_app; cbn [length];
      rewrite Nat.add_1_r; apply lookup_insert_eq.
Qed.

Lemma main_prints_hello_world_witness :
  exists w',
    main (fun _ => "") false initial_world = (Ok tt, w', []) /\
    stdout w' = ["Hello World"].
Proof.
  destruct (main_prints_hello_world (fun _ => "") false initial_world)
    as (w' & before & Hmain & _ & _ & Hquiet & _);
    [now eexists |].
  exists w'. split; [exact Hmain | now apply Hquiet].
Defined.

(** X23: [main] reports a failure of the pipeline.  When the strategy
    [linear] is not registered, the [ValueError] of the strategy factory
    leaves [main]: [Application.run] writes the one line "Error in
    evolution: Unknown strategy type: linear" to the standard error and
    raises the exception again.  The message is not printed: without the
    debug flag nothing is printed at all, with it the seven diagnostic lines
    up to the failure and no closing lines.  The new orchestrator is left
    without an engine, and no logger is built. *)
Theorem main_reports_failure (object_str : LifeForm -> string)
    (debug : bool) (w : World) :
  _strategies w !! "linear" = None ->
  exists w',
    main object_str debug w =
    (Raise (ValueError "Unknown strategy type: linear"), w',
     ["Error in evolution: Unknown strategy type: linear"]) /\
    stdout w' =
      (stdout w ++
       if debug
       then [str_repeat "=" 60; "HELLO WORLD EVOLUTION - DEBUG MODE";
             str_repeat "=" 60;
             "[DEBUG] HelloWorldOrchestrator initialized (Singleton)";
             "[DEBUG] Creating initial organism: Fish";
             "[DEBUG] Fish created with message: 'H'";
             "[DEBUG] Initializing Evolution Engine..."]
       else [])%list /\
    DEBUG w' = debug /\
    heap w' =
      (heap w ++ [ObjOrchestrator {| _engine := None;
                                     _factory := initial_registry |}])%list /\
    _instances w' !! EvolutionLogger = None.
Proof.
  intros Hnone. destruct w as [d0 i0 h s o]. cbn in Hnone.
  unfold main.
  unfold mbind at 1, M_bind at 1, set_DEBUG at 1.
  unfold mbind at 1, M_bind at 1, clear_instances at 1, set_instances at 1.
  unfold mbind at 1, M_bind at 1. rewrite when_DEBUG_print3.
  set (w1 := debug_out _ _).
  rewrite (Application_init_new w1)
    by (subst w1; rewrite debug_out_instances; apply lookup_empty).
  set (w2 := with_instances _ _).
  unfold Application_run, execute, timeit.
  unfold mbind at 1, M_bind at 1.
  rewrite (say_hello_unregistered object_str (length h) initial_registry w2).
  - cbn [is_Exception ValueError exn_str existsb String.eqb negb].
    eexists. split; [reflexivity |].
    subst w2 w1. unfold debug_out, emit, with_instances, with_DEBUG,
      with_stdout, with_heap.
    destruct debug; cbn; rewrite ?app_nil_r, <- ?app_assoc;
      repeat split; reflexivity.
  - subst w2 w1. rewrite debug_out_heap. cbn. apply lookup_insert_eq.
  - subst w2 w1. rewrite debug_out_heap. cbn.
    now rewrite lookup_app_r, Nat.sub_diag by lia.
  - reflexivity.
  - subst w2 w1. cbn. now rewrite debug_out_strategies.
Qed.

Lemma main_reports_failure_witness :
  exists w',
    main (fun _ => "") false
      {| DEBUG := false; _instances := ∅; heap := []; _strategies := ∅;
         stdout := [] |} =
    (Raise (ValueError "Unknown strategy type: linear"), w',
     ["Error in evolution: Unknown strategy type: linear"]) /\
    stdout w' = [].
Proof.
  destruct (main_reports_failure (fun _ => "") false
              {| DEBUG := false; _instances := ∅; heap := [];
                 _strategies := ∅; stdout := [] |})
    as (w' & Hmain & Hout & _); [vm_compute; reflexivity |].
  exists w'. split; [exact Hmain | exact Hout].
Defined.

(** X24: the other entry points of main.py give the same message.  In
    every state that satisfies the invariant of the program,
    [HigherOrderHelloWorld.run] returns "Hello World" and keeps the
    invariant; [alternative_main] prints the one line "Hello World" and
    returns at its first attempt, so [retry] makes no pause and no second
    call; [functional_approach] and [metaclass_approach] return
    "Hello World". *)
Theorem other_entry_points_agree (object_str : LifeForm -> string)
    (w : World) (pauses : list Q) :
  world_ok w ->
  (exists w',
      HigherOrderHelloWorld_run object_str w = (Ok "Hello World", w') /\
      world_ok w') /\
  alternative_main object_str {| state := w; slept := pauses |} =
    (Ok tt,
     {| state := with_stdout (stdout w ++ ["Hello World"]) w;
        slept := pauses |}) /\
  functional_approach = Ok (VStr "Hello World") /\
  metaclass_approach = "Hello World".
Proof.
  intros Hok. split; [| split; [| split]].
  - unfold HigherOrderHelloWorld_run, Application_init, execute, timeit.
    unfold mbind at 1, M_bind at 1. unfold mbind at 1, M_bind at 1.
    pose proof (world_ok_SingletonMeta_call HelloWorldOrchestrator w Hok)
      as Hok1.
    destruct (SingletonMeta_call_returns HelloWorldOrchestrator w)
      as (instance & Hfst & _).
    destruct (SingletonMeta_call HelloWorldOrchestrator w) as [r w1].
    cbn in Hfst, Hok1. subst r. unfold mret at 1, M_ret at 1.
    now apply say_hello_ok.
  - reflexivity.
  - reflexivity.
  - reflexivity.
Qed.

Lemma other_entry_points_agree_witness :
  alternative_main (fun _ => "") {| state := initial_world; slept := [] |} =
  (Ok tt,
   {| state := with_stdout ["Hello World"] initial_world; slept := [] |}).
Proof.
  destruct (other_entry_points_agree (fun _ => "") initial_world []
              world_ok_initial) as (_ & Halt & _).
  exact Halt.
Defined.

(** ** The DNA container *)

(** X25: [DNASequence] satisfies the laws that its operations are named
    after.  [bind] has the constructor as left and right unit and is
    associative; [fmap] keeps the identity and composition, is the [bind]
    with a function that wraps its result, and [get] after [fmap] is the
    function applied to the value. *)
Theorem dna_sequence_laws {T U V : Type} (x : T) (m : DNASequence T)
    (f : T -> DNASequence U) (g : U -> DNASequence V)
    (h : T -> U) (k : U -> V) :
  DNASequence_bind (mkDNASequence x) f = f x /\
  DNASequence_bind m mkDNASequence = m /\
  DNASequence_bind (DNASequence_bind m f) g =
    DNASequence_bind m (fun y => DNASequence_bind (f y) g) /\
  DNASequence_fmap m (fun y => y) = m /\
  DNASequence_fmap (DNASequence_fmap m h) k =
    DNASequence_fmap m (fun y => k (h y)) /\
  DNASequence_fmap m h =
    DNASequence_bind m (fun y => mkDNASequence (h y)) /\
  DNASequence_get (DNASequence_fmap m h) = h (DNASequence_get m).
Proof.
  destruct m as [v].
  unfold DNASequence_bind, DNASequence_fmap, DNASequence_get. cbn.
  repeat split.
Qed.
